(** * goreportcard bookkeeping handlers: a shallow embedding

    The development follows [handlers/bookkeeping.go] (with the ledger
    display handler that accompanies it) and the earlier variant of the
    same file.  Go values are modelled as the code has them:

    - a Go [string] is a byte sequence, here [string] (a list of [ascii]);
    - a [float64] is an IEEE 754 binary64 number, here [spec_float] with
      the operations of [SpecFloat] at precision 53 and [emax] 1024
      (NaN payloads are not distinguished);
    - an [int] is a 64-bit two's complement integer, here a [Z] with the
      wrap-around written out;
    - a Go [map] is a [gmap].

    The library calls the handlers make ([fmt.Sscanf], [strconv.ParseFloat],
    [html.EscapeString], [filepath.Clean], [filepath.Abs]) are modelled for
    a Unix target after the behaviour of Go 1.13 and later. *)

From Stdlib Require Import ZArith List String Ascii Bool Lia DecimalString.
From Stdlib Require Import Floats.SpecFloat.
From stdpp Require Import gmap strings list.

Local Open Scope string_scope.
Local Open Scope Z_scope.

(** ** Machine integers and floats *)

Module golang.

(** Go's [int] on a 64-bit target. *)
Definition MaxInt : Z := 2 ^ 63 - 1.
Definition MinInt : Z := - 2 ^ 63.

Definition wrap_int (x : Z) : Z := (x + 2 ^ 63) mod 2 ^ 64 - 2 ^ 63.

Definition int_add (x y : Z) : Z := wrap_int (x + y).

(** [len] of a slice: always within [int]. *)
Definition len {A} (l : list A) : Z := Z.of_nat (length l).

Definition float64 : Type := spec_float.

Definition prec : Z := 53.
Definition emax : Z := 1024.

Definition f64_zero : float64 := S754_zero false.
Definition f64_add (x y : float64) : float64 := SFadd prec emax x y.

(** The value [m * 2^e], rounded to nearest even. *)
Definition f64_of_binary (m e : Z) : float64 := binary_normalize prec emax m e false.

(** The bytes of a string as numbers. *)
Definition byte (c : ascii) : Z := Z.of_N (N_of_ascii c).

Definition between (lo hi x : Z) : bool := (lo <=? x) && (x <=? hi).

(** The double quote, which no literal of this file contains. *)
Definition dquote : string := String (ascii_of_nat 34) EmptyString.

End golang.
Import golang.

(** ** [strconv]: text to numbers *)

Module strconv.

Inductive NumError := ErrSyntax | ErrRange.

(** [lower(c)] is [c | ('x' - 'X')]. *)
Definition lower (c : ascii) : Z := Z.lor (byte c) 32.

Definition isDigit (c : ascii) : bool := between 48 57 (byte c).
Definition isHexLetter (c : ascii) : bool := between 97 102 (lower c).
Definition isByte (c : ascii) (d : ascii) : bool := Ascii.eqb c d.

Fixpoint commonPrefixLenIgnoreCase (s prefix : string) : Z :=
  match s, prefix with
  | String c s', String p prefix' =>
      let c' := if between 65 90 (byte c) then byte c + 32 else byte c in
      if c' =? byte p then 1 + commonPrefixLenIgnoreCase s' prefix' else 0
  | _, _ => 0
  end.

(** [special]: the strings for infinities and NaN, with the number of
    bytes they take. *)
Definition special (s : string) : option (float64 * Z) :=
  let inf (sign : bool) (nsign : Z) (t : string) :=
    let n := commonPrefixLenIgnoreCase t "infinity" in
    let n := if (3 <? n) && (n <? 8) then 3 else n in
    if (n =? 3) || (n =? 8) then Some (S754_infinity sign, nsign + n) else None in
  match s with
  | EmptyString => None
  | String c0 rest =>
      if isByte c0 "+" then inf false 1 rest
      else if isByte c0 "-" then inf true 1 rest
      else if isByte c0 "i" || isByte c0 "I" then inf false 0 s
      else if isByte c0 "n" || isByte c0 "N" then
        if commonPrefixLenIgnoreCase s "nan" =? 3 then Some (S754_nan, 3) else None
      else None
  end.

(** The variables of [readFloat]'s digit loop.  Go keeps the first 19
    decimal (16 hexadecimal) digits in a [uint64] and a flag for the
    rest, and rounds as if it had them all; here [mantissa] has them all. *)
Record digitState := {
  mantissa : Z; nd : Z; dp : Z;
  sawdot : bool; sawdigits : bool; underscores : bool }.

Fixpoint readDigits (base : Z) (s : string) (st : digitState) : digitState * string :=
  match s with
  | EmptyString => (st, s)
  | String c s' =>
      if isByte c "_" then
        readDigits base s' {| mantissa := mantissa st; nd := nd st; dp := dp st;
          sawdot := sawdot st; sawdigits := sawdigits st; underscores := true |}
      else if isByte c "." then
        if sawdot st then (st, s)
        else readDigits base s' {| mantissa := mantissa st; nd := nd st; dp := nd st;
          sawdot := true; sawdigits := sawdigits st; underscores := underscores st |}
      else if isDigit c then
        if isByte c "0" && (nd st =? 0) then
          readDigits base s' {| mantissa := mantissa st; nd := nd st; dp := dp st - 1;
            sawdot := sawdot st; sawdigits := true; underscores := underscores st |}
        else
          readDigits base s' {| mantissa := mantissa st * base + (byte c - 48);
            nd := nd st + 1; dp := dp st;
            sawdot := sawdot st; sawdigits := true; underscores := underscores st |}
      else if (base =? 16) && isHexLetter c then
        readDigits base s' {| mantissa := mantissa st * 16 + (lower c - 97 + 10);
          nd := nd st + 1; dp := dp st;
          sawdot := sawdot st; sawdigits := true; underscores := underscores st |}
      else (st, s)
  end.

(** The digits of an exponent; the value stops growing at 10000. *)
Fixpoint readExponent (s : string) (e : Z) (us : bool) : Z * bool * string :=
  match s with
  | EmptyString => (e, us, s)
  | String c s' =>
      if isByte c "_" then readExponent s' e true
      else if isDigit c then
        readExponent s' (if e <? 10000 then e * 10 + (byte c - 48) else e) us
      else (e, us, s)
  end.

(** [underscoreOK]: underscores only between digits (or after the base
    prefix).  [saw] is 0 at the start, 1 after a digit, 2 after an
    underscore, 3 after anything else. *)
Fixpoint underscoreLoop (hex : bool) (s : string) (saw : Z) : bool :=
  match s with
  | EmptyString => negb (saw =? 2)
  | String c s' =>
      if isDigit c || (hex && isHexLetter c) then underscoreLoop hex s' 1
      else if isByte c "_" then
        if saw =? 1 then underscoreLoop hex s' 2 else false
      else if saw =? 2 then false
      else underscoreLoop hex s' 3
  end.

Definition underscoreOK (s : string) : bool :=
  let s := match s with
           | String c s' => if isByte c "-" || isByte c "+" then s' else s
           | _ => s
           end in
  match s with
  | String c0 (String c1 s') =>
      if isByte c0 "0" && ((lower c1 =? 98) || (lower c1 =? 111) || (lower c1 =? 120))
      then underscoreLoop (lower c1 =? 120) s' 1
      else underscoreLoop false s 0
  | _ => underscoreLoop false s 0
  end.

Record floatParts := {
  fp_mantissa : Z; fp_exp : Z; fp_neg : bool; fp_hex : bool; fp_rest : string }.

Definition prefixOf (s rest : string) : string :=
  substring 0 (String.length s - String.length rest) s.

(** [readFloat]: [None] where Go returns [ok = false]. *)
Definition readFloat (s : string) : option floatParts :=
  match s with
  | EmptyString => None
  | String c0 s0 =>
      let '(neg, s1) :=
        if isByte c0 "+" then (false, s0) else if isByte c0 "-" then (true, s0) else (false, s) in
      let '(base, hex, s2) :=
        match s1 with
        | String d0 (String d1 (String d2 t)) =>
            if isByte d0 "0" && (lower d1 =? 120) then (16, true, String d2 t)
            else (10, false, s1)
        | _ => (10, false, s1)
        end in
      let expChar := if hex then 112 else 101 in
      let '(st, s3) := readDigits base s2
        {| mantissa := 0; nd := 0; dp := 0;
           sawdot := false; sawdigits := false; underscores := false |} in
      if negb (sawdigits st) then None else
      let dp0 := if sawdot st then dp st else nd st in
      let dp1 := if hex then dp0 * 4 else dp0 in
      let ndMant := if hex then nd st * 4 else nd st in
      let finish (dp2 : Z) (us : bool) (rest : string) :=
        let exp := if mantissa st =? 0 then 0 else dp2 - ndMant in
        if us && negb (underscoreOK (prefixOf s rest)) then None
        else Some {| fp_mantissa := mantissa st; fp_exp := exp;
                     fp_neg := neg; fp_hex := hex; fp_rest := rest |} in
      match s3 with
      | String c s4 =>
          if lower c =? expChar then
            match s4 with
            | EmptyString => None
            | String c1 s5 =>
                let '(esign, s6) :=
                  if isByte c1 "+" then (1, s5) else if isByte c1 "-" then (-1, s5) else (1, s4) in
                match s6 with
                | EmptyString => None
                | String c2 _ =>
                    if negb (isDigit c2) then None else
                    let '(e, us, s7) := readExponent s6 0 (underscores st) in
                    finish (dp1 + e * esign) us s7
                end
            end
          else if hex then None
          else finish dp1 (underscores st) s3
      | EmptyString =>
          if hex then None else finish dp1 (underscores st) s3
      end
  end.

(** The nearest [float64] to [m * 10^e10], ties to even. *)
Definition decimalToFloat (neg : bool) (m e10 : Z) : float64 :=
  match m with
  | Zpos p =>
      if 0 <=? e10 then binary_round prec emax neg (p * Z.to_pos (10 ^ e10)) 0
      else SFdiv prec emax (S754_finite neg p 0)
                           (S754_finite false (Z.to_pos (10 ^ (- e10))) 0)
  | _ => S754_zero neg
  end.

(** The nearest [float64] to [m * 2^e2], ties to even. *)
Definition hexToFloat (neg : bool) (m e2 : Z) : float64 :=
  match m with
  | Zpos p => binary_round prec emax neg p e2
  | _ => S754_zero neg
  end.

Definition isInf (f : float64) : bool :=
  match f with S754_infinity _ => true | _ => false end.

(** [ParseFloat(s, 64)]: the value and the error. *)
Definition ParseFloat (s : string) : float64 * option NumError :=
  match special s with
  | Some (v, n) =>
      if n =? Z.of_nat (String.length s) then (v, None) else (f64_zero, Some ErrSyntax)
  | None =>
      match readFloat s with
      | None => (f64_zero, Some ErrSyntax)
      | Some r =>
          match fp_rest r with
          | String _ _ => (f64_zero, Some ErrSyntax)
          | EmptyString =>
              let f := if fp_hex r
                       then hexToFloat (fp_neg r) (fp_mantissa r) (fp_exp r)
                       else decimalToFloat (fp_neg r) (fp_mantissa r) (fp_exp r) in
              (f, if isInf f then Some ErrRange else None)
          end
      end
  end.

Fixpoint digitsValue (s : string) (acc : Z) : option Z :=
  match s with
  | EmptyString => Some acc
  | String c s' => if isDigit c then digitsValue s' (acc * 10 + (byte c - 48)) else None
  end.

(** [Atoi]: a signed run of decimal digits within [int]. *)
Definition Atoi (s : string) : Z + NumError :=
  let '(neg, ds) :=
    match s with
    | String c r => if isByte c "+" then (false, r) else if isByte c "-" then (true, r) else (false, s)
    | EmptyString => (false, s)
    end in
  match ds with
  | EmptyString => inr ErrSyntax
  | _ =>
      match digitsValue ds 0 with
      | None => inr ErrSyntax
      | Some n =>
          let v := if neg then - n else n in
          if (MinInt <=? v) && (v <=? MaxInt) then inl v else inr ErrRange
      end
  end.

End strconv.

(** ** [math.Ldexp] *)

Module math.

(** [frac * 2^exp].  The exponent of the result is computed in [int]
    and wraps; beyond the range of [float64] the result is a zero or an
    infinity of the sign of [frac]. *)
Definition Ldexp (frac : float64) (exp : Z) : float64 :=
  match frac with
  | S754_finite s m e =>
      let ex := wrap_int (exp + (Zpos (digits2_pos m) + e - 1)) in
      if ex <? -1075 then S754_zero s
      else if 1023 <? ex then S754_infinity s
      else SFldexp prec emax frac exp
  | _ => frac
  end.

End math.

(** ** [fmt.Sscanf] with the format ["%f"] and a [*float64] operand *)

Module fmt.

Inductive ScanError :=
| ErrEOF
| ErrUnexpectedNewline
| ErrNum (e : strconv.NumError).

Definition RuneError : Z := 65533.
Definition hugeWid : Z := 2 ^ 30.

(** [utf8.DecodeRune] on the head of the input: the rune and what is
    left; an ill-formed sequence gives [RuneError] and takes one byte. *)
Definition DecodeRune (s : string) : option (Z * string) :=
  match s with
  | EmptyString => None
  | String c0 s1 =>
      let b0 := byte c0 in
      let bad := Some (RuneError, s1) in
      if b0 <? 128 then Some (b0, s1)
      else if between 194 223 b0 then
        match s1 with
        | String c1 s2 =>
            if between 128 191 (byte c1)
            then Some (Z.lor (Z.shiftl (Z.land b0 31) 6) (Z.land (byte c1) 63), s2)
            else bad
        | _ => bad
        end
      else if between 224 239 b0 then
        let lo := if b0 =? 224 then 160 else 128 in
        let hi := if b0 =? 237 then 159 else 191 in
        match s1 with
        | String c1 (String c2 s3) =>
            if between lo hi (byte c1) && between 128 191 (byte c2)
            then Some (Z.lor (Z.shiftl (Z.land b0 15) 12)
                        (Z.lor (Z.shiftl (Z.land (byte c1) 63) 6) (Z.land (byte c2) 63)), s3)
            else bad
        | _ => bad
        end
      else if between 240 244 b0 then
        let lo := if b0 =? 240 then 144 else 128 in
        let hi := if b0 =? 244 then 143 else 191 in
        match s1 with
        | String c1 (String c2 (String c3 s4)) =>
            if between lo hi (byte c1) && between 128 191 (byte c2) && between 128 191 (byte c3)
            then Some (Z.lor (Z.shiftl (Z.land b0 7) 18)
                        (Z.lor (Z.shiftl (Z.land (byte c1) 63) 12)
                          (Z.lor (Z.shiftl (Z.land (byte c2) 63) 6) (Z.land (byte c3) 63))), s4)
            else bad
        | _ => bad
        end
      else bad
  end.

(** The scan state: the unread input, the runes read so far, and the
    token buffer. *)
Record ss := { input : string; count : Z; buf : string }.

(** [getRune]: [None] at the end of the input (or of the width). *)
Definition getRune (s : ss) : option (Z * ss) :=
  if hugeWid <=? count s then None
  else match DecodeRune (input s) with
       | None => None
       | Some (r, rest) => Some (r, {| input := rest; count := count s + 1; buf := buf s |})
       end.

Definition space : list (Z * Z) :=
  [ (9, 13); (32, 32); (133, 133); (160, 160); (5760, 5760); (8192, 8202);
    (8232, 8233); (8239, 8239); (8287, 8287); (12288, 12288) ].

Definition isSpace (r : Z) : bool :=
  (r <? 65536) && existsb (fun rng => between (fst rng) (snd rng) r) space.

Fixpoint indexRune (ok : string) (r : Z) : bool :=
  match ok with
  | EmptyString => false
  | String c ok' => (byte c =? r) || indexRune ok' r
  end.

Definition peek (ok : string) (s : ss) : bool :=
  match getRune s with
  | None => false
  | Some (r, _) => indexRune ok r
  end.

Definition newline : string := String (ascii_of_nat 10) EmptyString.

(** [SkipSpace] when a newline is not a space ([nlIsSpace] unset, as
    [Sscanf] has it).  Each turn of the loop reads a rune. *)
Fixpoint SkipSpace (fuel : nat) (s : ss) : ss + ScanError :=
  match fuel with
  | O => inl s
  | S fuel' =>
      match getRune s with
      | None => inl s
      | Some (r, s') =>
          if (r =? 13) && peek newline s' then SkipSpace fuel' s'
          else if r =? 10 then inr ErrUnexpectedNewline
          else if negb (isSpace r) then inl s
          else SkipSpace fuel' s'
      end
  end.

(** The loop reads a rune each turn, so one turn more than the bytes
    left is fuel enough. *)
Definition skipSpaces (s : ss) : ss + ScanError :=
  SkipSpace (S (String.length (input s))) s.

(** [accept]: read a rune; keep it in the token if it is one of [ok],
    put it back if not. *)
Definition accept (ok : string) (s : ss) : bool * ss :=
  match getRune s with
  | None => (false, s)
  | Some (r, s') =>
      if indexRune ok r
      then (true, {| input := input s'; count := count s';
                     buf := buf s' ++ String (ascii_of_N (Z.to_N r)) EmptyString |})
      else (false, s)
  end.

Definition andAccept (ok : string) (b : bool * ss) : bool * ss :=
  if fst b then accept ok (snd b) else (false, snd b).

Fixpoint acceptAll (fuel : nat) (ok : string) (s : ss) : ss :=
  match fuel with
  | O => s
  | S fuel' => let '(b, s') := accept ok s in if b then acceptAll fuel' ok s' else s'
  end.

(** [for s.accept(ok) {}] *)
Definition acceptRun (ok : string) (s : ss) : ss :=
  acceptAll (S (String.length (input s))) ok s.

Definition sign : string := "+-".
Definition period : string := ".".
Definition exponent : string := "eEpP".
Definition decimalDigits : string := "0123456789".
Definition hexadecimalDigits : string := "0123456789aAbBcCdDeEfF".

(** [floatToken]: the longest prefix of the input that looks like a
    floating-point number, which may be empty. *)
Definition floatToken (s : ss) : string * ss :=
  let s := {| input := input s; count := count s; buf := EmptyString |} in
  let '(isnan, s) := andAccept "nN" (andAccept "aA" (accept "nN" s)) in
  if isnan then (buf s, s) else
  let '(_, s) := accept sign s in
  let '(isinf, s) := andAccept "fF" (andAccept "nN" (accept "iI" s)) in
  if isinf then (buf s, s) else
  let '(ishex, s) := andAccept "xX" (accept "0" s) in
  let digits := if ishex then hexadecimalDigits ++ "_" else decimalDigits ++ "_" in
  let exp := if ishex then "pP" else exponent in
  let s := acceptRun digits s in
  let '(dot, s) := accept period s in
  let s := if dot then acceptRun digits s else s in
  let '(e, s) := accept exp s in
  let s := if e then acceptRun (decimalDigits ++ "_") (snd (accept sign s)) else s in
  (buf s, s).

Definition hasX (s : string) : bool :=
  match String.index 0 "x" s, String.index 0 "X" s with
  | None, None => false
  | _, _ => true
  end.

(** [convertFloat]: [strconv.ParseFloat], and the mixed form of a decimal
    number with a power of two ([1.5p4]) that [strconv] does not take.
    An error is raised before the result is stored. *)
Definition convertFloat (str : string) : float64 + ScanError :=
  let plain :=
    match strconv.ParseFloat str with
    | (f, None) => inl f
    | (_, Some e) => inr (ErrNum e)
    end in
  match String.index 0 "p" str with
  | Some p =>
      if hasX str then plain else
      match strconv.ParseFloat (substring 0 p str) with
      | (_, Some e) => inr (ErrNum e)
      | (f, None) =>
          match strconv.Atoi (substring (S p) (String.length str - S p) str) with
          | inr e => inr (ErrNum e)
          | inl m => inl (math.Ldexp f m)
          end
      end
  | None => plain
  end.

(** [Sscanf(str, "%f", &dst)]: the count of operands stored, the error,
    and the operand after the call.  [doScanf] skips spaces before the
    verb, [scanOne] skips them again, refuses the end of the input, reads
    the token and converts it; the operand is assigned last. *)
Definition Sscanf_f (str : string) (dst : float64) : Z * option ScanError * float64 :=
  match skipSpaces {| input := str; count := 0; buf := EmptyString |} with
  | inr e => (0, Some e, dst)
  | inl s1 =>
      match skipSpaces s1 with
      | inr e => (0, Some e, dst)
      | inl s2 =>
          match getRune s2 with
          | None => (0, Some ErrEOF, dst)
          | Some _ =>
              match convertFloat (fst (floatToken s2)) with
              | inr e => (0, Some e, dst)
              | inl f => (1, None, f)
              end
          end
      end
  end.

End fmt.

(** ** [html.EscapeString] *)

Module html.

(** The replacer of the [html] package: five bytes have an entity, the
    others stand for themselves. *)
Definition escapeByte (c : ascii) : string :=
  if Ascii.eqb c "&" then "&amp;"
  else if Ascii.eqb c "'" then "&#39;"
  else if Ascii.eqb c "<" then "&lt;"
  else if Ascii.eqb c ">" then "&gt;"
  else if Ascii.eqb c (ascii_of_nat 34) then "&#34;"
  else String c EmptyString.

Fixpoint EscapeString (s : string) : string :=
  match s with
  | EmptyString => EmptyString
  | String c s' => escapeByte c ++ EscapeString s'
  end.

End html.

(** ** [path/filepath] on Unix, and the part of [os] it reads *)

Module os.

(** Why a file could not be read. *)
Inductive PathError :=
| ErrNotExist
| ErrPermission
| ErrOther (msg : string).

Definition Error (e : PathError) : string :=
  match e with
  | ErrNotExist => "no such file or directory"
  | ErrPermission => "permission denied"
  | ErrOther msg => msg
  end.

(** What the handlers read of the process and its file system: the
    environment, the working directory ([Getwd] can fail) and the files. *)
Record Process := {
  Getenv : string -> string;
  Getwd : option string;
  ReadFile : string -> string + PathError }.

End os.

Module filepath.

Definition isSep (c : ascii) : bool := Ascii.eqb c "/".

Definition IsAbs (path : string) : bool :=
  match path with
  | String c _ => isSep c
  | EmptyString => false
  end.

(** [Clean] writes into a buffer [out], kept here with its last byte
    first; [w] of the source is its length. *)

(** The [..] case when it can backtrack: [out.w--], then drop bytes while
    [out.w > dotdot] and the byte at [out.w] is no separator.  [last] is
    the byte at [out.w]. *)
Fixpoint unwind (dotdot : nat) (out : list ascii) (last : ascii) : list ascii :=
  match out with
  | [] => []
  | c :: out' =>
      if (dotdot <? length out)%nat && negb (isSep last) then unwind dotdot out' c else out
  end.

Definition backtrack (dotdot : nat) (out : list ascii) : list ascii :=
  match out with
  | [] => []
  | c :: out' => unwind dotdot out' c
  end.

(** Copy a path element: the bytes up to the next separator. *)
Fixpoint copyElement (path : list ascii) (out : list ascii) : list ascii * list ascii :=
  match path with
  | [] => (path, out)
  | c :: path' => if isSep c then (path, out) else copyElement path' (c :: out)
  end.

Definition endOrSep (path : list ascii) : bool :=
  match path with
  | [] => true
  | c :: _ => isSep c
  end.

(** The loop of [Clean] over the bytes still to read.  Each turn reads
    at least one byte, so the length of the path is fuel enough. *)
Fixpoint cleanLoop (fuel : nat) (rooted : bool) (path : list ascii)
    (out : list ascii) (dotdot : nat) : list ascii :=
  match fuel with
  | O => out
  | S fuel' =>
      match path with
      | [] => out
      | c :: rest =>
          if isSep c then
            cleanLoop fuel' rooted rest out dotdot
          else if Ascii.eqb c "." && endOrSep rest then
            cleanLoop fuel' rooted rest out dotdot
          else if Ascii.eqb c "." &&
                  match rest with
                  | c1 :: rest1 => Ascii.eqb c1 "." && endOrSep rest1
                  | [] => false
                  end then
            let rest2 := tl rest in
            if (dotdot <? length out)%nat then
              cleanLoop fuel' rooted rest2 (backtrack dotdot out) dotdot
            else if negb rooted then
              let out1 := if (0 <? length out)%nat then "/"%char :: out else out in
              let out2 := "."%char :: "."%char :: out1 in
              cleanLoop fuel' rooted rest2 out2 (length out2)
            else cleanLoop fuel' rooted rest2 out dotdot
          else
            let out1 :=
              if (rooted && negb (length out =? 1)%nat) || (negb rooted && negb (length out =? 0)%nat)
              then "/"%char :: out else out in
            let '(rest', out2) := copyElement path out1 in
            cleanLoop fuel' rooted rest' out2 dotdot
      end
  end.

Definition Clean (path : string) : string :=
  match list_ascii_of_string path with
  | [] => "."
  | c :: rest =>
      let out :=
        if isSep c
        then cleanLoop (String.length path) true rest ["/"%char] 1
        else cleanLoop (String.length path) false (c :: rest) [] 0 in
      match out with
      | [] => "."
      | _ => string_of_list_ascii (rev out)
      end
  end.

(** [Join] of two elements. *)
Definition Join (a b : string) : string :=
  match a, b with
  | EmptyString, EmptyString => EmptyString
  | EmptyString, _ => Clean b
  | _, _ => Clean (a ++ "/" ++ b)
  end.

(** [Abs]: an absolute path is cleaned; another is joined to the working
    directory, and the call fails when there is none. *)
Definition Abs (p : os.Process) (path : string) : option string :=
  if IsAbs path then Some (Clean path)
  else match os.Getwd p with
       | None => None
       | Some wd => Some (Join wd path)
       end.

End filepath.

(** ** The [vault] package

    The handlers import it; its source is not among the files at hand, so
    its types and operations follow the specification. *)

Module vault.

(** Modelled from the spec: [vault.TransactionType], whose declaration is
    in the missing package.  The spec names three kinds; a Go named type
    has further values, which no [case] of the handlers matches, and they
    are kept here with their raw value. *)
Inductive TransactionType :=
| PaymentTransaction
| TransferTransaction
| FeeTransaction
| UnknownTransaction (raw : string).

(** Modelled from the spec: [vault.Transaction]; [Type_] is the field
    [Type], and [Details] stands for the descriptive fields that are
    carried through unchanged. *)
Record Transaction := {
  TransactionID : string;
  Amount : string;
  Type_ : TransactionType;
  Details : list string }.

#[global] Instance TransactionType_eq_dec : EqDecision TransactionType.
Proof. solve_decision. Defined.

#[global] Instance TransactionType_countable : Countable TransactionType.
Proof.
  refine (inj_countable'
    (fun t => match t with
              | PaymentTransaction => inl 0%nat
              | TransferTransaction => inl 1%nat
              | FeeTransaction => inl 2%nat
              | UnknownTransaction raw => inr raw
              end)
    (fun x => match x with
              | inl 0%nat => PaymentTransaction
              | inl 1%nat => TransferTransaction
              | inl _ => FeeTransaction
              | inr raw => UnknownTransaction raw
              end) _).
  intros []; reflexivity.
Defined.

#[global] Instance Transaction_eq_dec : EqDecision Transaction.
Proof. solve_decision. Defined.

Definition recognized (t : TransactionType) : bool :=
  match t with
  | UnknownTransaction _ => false
  | _ => true
  end.

(** Reading a Go map at a key it may lack gives the nil slice. *)
Definition index (m : gmap TransactionType (list Transaction)) (k : TransactionType)
    : list Transaction :=
  default [] (m !! k).

(** Modelled from the spec: [CategorizeTransactions] (section 4.3), a map
    from each type to the transactions of that type, each appended to its
    type's list as the input is read. *)
Definition categorizeStep (m : gmap TransactionType (list Transaction)) (txn : Transaction)
    : gmap TransactionType (list Transaction) :=
  <[Type_ txn := (index m (Type_ txn) ++ [txn])%list]> m.

Definition CategorizeTransactions (transactions : list Transaction)
    : gmap TransactionType (list Transaction) :=
  fold_left categorizeStep transactions ∅.

(** The sub-lists in the order Payments, Transfers, Fees. *)
Definition flatten (m : gmap TransactionType (list Transaction)) : list Transaction :=
  (index m PaymentTransaction ++ index m TransferTransaction ++ index m FeeTransaction)%list.

(** *** The ledger writer *)

(** A file system as the writer sees it: each existing directory with
    its entries (name and content) in listing order. *)
Abbreviation Dir := (list (string * string)).
Abbreviation FileSystem := (gmap string (list (string * string))).

Inductive RunError :=
| ErrReadVault
| ErrParse (file : string)
| ErrWriteLedger.

(** What the spec leaves to the implementer: the record parser with its
    classifier ([None] for a file it refuses) and the text of the ledger
    document. *)
Record Policy := {
  parseFile : string -> string -> option (list Transaction);
  renderLedger : list Transaction -> string }.

Definition hasSuffix (s suffix : string) : bool :=
  let n := String.length s in
  let m := String.length suffix in
  (m <=? n)%nat && String.eqb (substring (n - m) m s) suffix.

Definition isCSV (entry : string * string) : bool := hasSuffix (fst entry) ".csv".

Fixpoint parseAll (p : Policy) (entries : Dir) : list Transaction + RunError :=
  match entries with
  | [] => inl []
  | (name, content) :: rest =>
      match parseFile p name content with
      | None => inr (ErrParse name)
      | Some txns =>
          match parseAll p rest with
          | inl more => inl (txns ++ more)%list
          | inr e => inr e
          end
      end
  end.

(** Modelled from the spec: [ReadCSVFiles] (section 4.1), every CSV file
    of the vault directory in file-then-row order; an error when the
    directory cannot be listed. *)
Definition ReadCSVFiles (p : Policy) (fs : FileSystem) (vaultDir : string)
    : list Transaction + RunError :=
  match fs !! vaultDir with
  | None => inr ErrReadVault
  | Some entries => parseAll p (filter (fun e => isCSV e = true) entries)
  end.

Definition ledgerFile : string := "FK_MASTER_LEDGER.md".

(** Writing a file: its content replaces the old one, or the file is new. *)
Fixpoint writeEntry (name content : string) (entries : Dir) : Dir :=
  match entries with
  | [] => [(name, content)]
  | (n, c) :: rest =>
      if String.eqb n name then (name, content) :: rest
      else (n, c) :: writeEntry name content rest
  end.

(** Modelled from the spec: [Run] (section 4.5), which reads the vault
    and writes the whole ledger document to [<ledgerDir>/FK_MASTER_LEDGER.md]. *)
Definition Run (p : Policy) (vaultDir ledgerDir : string) (fs : FileSystem)
    : FileSystem * option RunError :=
  match ReadCSVFiles p fs vaultDir with
  | inr e => (fs, Some e)
  | inl txns =>
      match fs !! ledgerDir with
      | None => (fs, Some ErrWriteLedger)
      | Some entries =>
          (<[ledgerDir := writeEntry ledgerFile (renderLedger p txns) entries]> fs, None)
      end
  end.

(** The snapshot a reader finds. *)
Definition snapshot (fs : FileSystem) (ledgerDir : string) : option string :=
  match fs !! ledgerDir with
  | None => None
  | Some entries => snd <$> List.find (fun e => String.eqb (fst e) ledgerFile) entries
  end.

End vault.

(** ** The handlers: [handlers/bookkeeping.go] and the ledger page *)

Module handlers.
Import vault.

Record SummaryStats := {
  TotalTransactions : Z;
  TotalPayments : Z;
  TotalTransfers : Z;
  TotalFees : Z;
  PaymentsSum : float64;
  TransfersSum : float64;
  FeesSum : float64;
  NetLiquidity : float64 }.

(** The [switch] of the loop: a count and a sum per type, and no
    [default]. *)
Definition account (stats : SummaryStats) (ty : TransactionType) (amount : float64)
    : SummaryStats :=
  match ty with
  | PaymentTransaction =>
      {| TotalTransactions := TotalTransactions stats;
         TotalPayments := int_add (TotalPayments stats) 1;
         TotalTransfers := TotalTransfers stats;
         TotalFees := TotalFees stats;
         PaymentsSum := f64_add (PaymentsSum stats) amount;
         TransfersSum := TransfersSum stats;
         FeesSum := FeesSum stats;
         NetLiquidity := NetLiquidity stats |}
  | TransferTransaction =>
      {| TotalTransactions := TotalTransactions stats;
         TotalPayments := TotalPayments stats;
         TotalTransfers := int_add (TotalTransfers stats) 1;
         TotalFees := TotalFees stats;
         PaymentsSum := PaymentsSum stats;
         TransfersSum := f64_add (TransfersSum stats) amount;
         FeesSum := FeesSum stats;
         NetLiquidity := NetLiquidity stats |}
  | FeeTransaction =>
      {| TotalTransactions := TotalTransactions stats;
         TotalPayments := TotalPayments stats;
         TotalTransfers := TotalTransfers stats;
         TotalFees := int_add (TotalFees stats) 1;
         PaymentsSum := PaymentsSum stats;
         TransfersSum := TransfersSum stats;
         FeesSum := f64_add (FeesSum stats) amount;
         NetLiquidity := NetLiquidity stats |}
  | UnknownTransaction _ => stats
  end.

Definition isErr {E} (err : option E) : bool :=
  match err with Some _ => true | None => false end.

Definition warning (txn : Transaction) : string :=
  "Warning: Failed to parse amount '" ++ Amount txn ++ "' for transaction "
    ++ TransactionID txn ++ ", treating as 0.0".

(** The amount of a transaction, and what is logged: [Sscanf] into a
    zero [amount], which is reset when the scan reports a failure. *)
Definition scanAmount (txn : Transaction) : float64 * list string :=
  let amount := f64_zero in
  let '(n, err, amount) := fmt.Sscanf_f (Amount txn) amount in
  if isErr err || negb (n =? 1) then (f64_zero, [warning txn]) else (amount, []).

Definition loopBody (st : SummaryStats * list string) (txn : Transaction)
    : SummaryStats * list string :=
  let '(amount, msgs) := scanAmount txn in
  (account (fst st) (Type_ txn) amount, app (snd st) msgs).

Definition setNetLiquidity (stats : SummaryStats) : SummaryStats :=
  {| TotalTransactions := TotalTransactions stats;
     TotalPayments := TotalPayments stats;
     TotalTransfers := TotalTransfers stats;
     TotalFees := TotalFees stats;
     PaymentsSum := PaymentsSum stats;
     TransfersSum := TransfersSum stats;
     FeesSum := FeesSum stats;
     NetLiquidity :=
       f64_add (f64_add (PaymentsSum stats) (TransfersSum stats)) (FeesSum stats) |}.

Definition initialStats (transactions : list Transaction) : SummaryStats :=
  {| TotalTransactions := len transactions;
     TotalPayments := 0; TotalTransfers := 0; TotalFees := 0;
     PaymentsSum := f64_zero; TransfersSum := f64_zero; FeesSum := f64_zero;
     NetLiquidity := f64_zero |}.

(** [calculateSummary], with the lines it logs. *)
Definition calculateSummaryLog (transactions : list Transaction)
    : SummaryStats * list string :=
  let st := fold_left loopBody transactions (initialStats transactions, []) in
  (setNetLiquidity (fst st), snd st).

Definition calculateSummary (transactions : list Transaction) : SummaryStats :=
  fst (calculateSummaryLog transactions).

(** [getEnvOrDefault]: the variable or the default, made absolute and
    clean; the value as it is when [filepath.Abs] fails. *)
Definition getEnvOrDefault (p : os.Process) (name defaultValue : string) : string :=
  let value := os.Getenv p name in
  match value with
  | EmptyString =>
      match filepath.Abs p (filepath.Clean defaultValue) with
      | None => defaultValue
      | Some absPath => absPath
      end
  | _ =>
      match filepath.Abs p (filepath.Clean value) with
      | None => value
      | Some absPath => absPath
      end
  end.

(** [markdownToHTML]: the escaped text in a [div]. *)
Definition markdownToHTML (md : string) : string :=
  let escaped := html.EscapeString md in
  ("<div class=" ++ dquote ++ "ledger-content" ++ dquote ++ ">") ++ escaped ++ "</div>".

(** A template writes a page from named values and may fail on the way. *)
Definition Template : Type := string -> list (string * string) -> string * option string.

(** What [LedgerHandler] has of its receiver and of the package: the
    template loader and the analytics key. *)
Record GRCHandler := {
  loadTemplate : string -> Template + string;
  googleAnalyticsKey : string }.

Record Response := { status : Z; body : string }.

Definition noLedger : string :=
  "# No Ledger Available" ++ fmt.newline ++ fmt.newline
    ++ "No ledger data has been generated yet.".

(** [LedgerHandler]: the response and the lines logged. *)
Definition LedgerHandler (gh : GRCHandler) (p : os.Process) : Response * list string :=
  let ledgerPath := filepath.Join "ledger" "FK_MASTER_LEDGER.md" in
  let '(content, log1) :=
    match os.ReadFile p ledgerPath with
    | inr err => (noLedger, ["ERROR: could not read ledger file:  " ++ os.Error err])
    | inl content => (content, [])
    end in
  match loadTemplate gh "templates/ledger.html" with
  | inr err =>
      ({| status := 500; body := err ++ fmt.newline |},
       app log1 ["ERROR: could not get ledger template:  " ++ err])
  | inl t =>
      let '(page, err) :=
        t "base" [("google_analytics_key", googleAnalyticsKey gh);
                  ("LedgerContent", markdownToHTML content)] in
      ({| status := 200; body := page |},
       match err with
       | Some e => app log1 ["ERROR: " ++ e]
       | None => log1
       end)
  end.

End handlers.

(** ** The second variant of [bookkeeping.go] (the source file without a name) *)

Module part_000.
Import vault.
Import handlers.

(** The scan's result is not looked at: [amount] is what [Sscanf] left
    in it. *)
Definition scanAmount (txn : Transaction) : float64 :=
  let amount := f64_zero in
  let '(_, _, amount) := fmt.Sscanf_f (Amount txn) amount in
  amount.

Definition loopBody (stats : SummaryStats) (txn : Transaction) : SummaryStats :=
  account stats (Type_ txn) (scanAmount txn).

Definition calculateSummary (transactions : list Transaction) : SummaryStats :=
  setNetLiquidity (fold_left loopBody transactions (initialStats transactions)).

(** [getEnvOrDefault]: only the default is made absolute. *)
Definition getEnvOrDefault (p : os.Process) (name defaultValue : string) : string :=
  let value := os.Getenv p name in
  match value with
  | EmptyString =>
      match filepath.Abs p defaultValue with
      | Some absPath => absPath
      | None => defaultValue
      end
  | _ => value
  end.

End part_000.

(** ** What the page and API handlers depend on

    The [vault] package, the template loader of the receiver and the clock
    are not among the sources; the handlers are modelled over any
    implementation of them.  An error is the text of its [Error()]. *)

Module deps.
Import vault handlers.

(** The operations of [vault] that the handlers call, over the state of
    the world they may read and change.  [encodes] says which transactions
    [encoding/json] can encode (the declaration of the struct is in the
    package). *)
Record Vault (World Processor : Type) := {
  NewTransactionProcessor : string -> string -> World -> (Processor + string) * World;
  ReadCSVFiles : Processor -> World -> (list Transaction + string) * World;
  Categorize : Processor -> list Transaction -> gmap TransactionType (list Transaction);
  Run : string -> string -> World -> option string * World;
  encodes : Transaction -> bool }.

Arguments NewTransactionProcessor {World Processor}.
Arguments ReadCSVFiles {World Processor}.
Arguments Categorize {World Processor}.
Arguments Run {World Processor}.
Arguments encodes {World Processor}.

(** The values the bookkeeping page is rendered from. *)
Record PageData := {
  Transactions : list (string * list Transaction);
  Summary : SummaryStats;
  Year : string;
  google_analytics_key : string }.

(** Executing a template: the pieces it writes, in order, and the error
    that stopped it, if any. *)
Definition PageTemplate : Type := string -> PageData -> list string * option string.

Record Site := {
  loadPage : string -> PageTemplate + string;
  analyticsKey : string;
  thisYear : Z }.

End deps.

(** ** [encoding/json]: what the handlers encode *)

Module json.
Import vault handlers.

Inductive Value :=
| Strings (fields : list (string * string))
| Report (transactions : list (string * list Transaction)) (summary : SummaryStats) (count : Z).

Definition finite (x : float64) : bool :=
  match x with
  | S754_nan | S754_infinity _ => false
  | _ => true
  end.

(** [Encode] refuses a value that holds a NaN or an infinity. *)
Definition supported (encodes : Transaction -> bool) (v : Value) : bool :=
  match v with
  | Strings _ => true
  | Report transactions summary _ =>
      forallb (fun kv => forallb encodes (snd kv)) transactions
      && finite (PaymentsSum summary) && finite (TransfersSum summary)
      && finite (FeesSum summary) && finite (NetLiquidity summary)
  end.

End json.

(** ** [net/http]: the response writer *)

Module http.

Definition MethodGet : string := "GET".
Definition MethodPost : string := "POST".
Definition StatusOK : Z := 200.
Definition StatusMethodNotAllowed : Z := 405.
Definition StatusInternalServerError : Z := 500.

Record Request := { Method : string }.

(** What is written to the body: text, or the encoding of a value. *)
Inductive Chunk :=
| Text (s : string)
| Encoded (v : json.Value).

(** The writer: the header map the handler sets, the status and the
    headers once they are sent, and the body so far. *)
Record ResponseWriter := {
  header : gmap string string;
  sent : option (Z * gmap string string);
  written : list Chunk }.

Definition newWriter : ResponseWriter :=
  {| header := ∅; sent := None; written := [] |}.

Definition HeaderSet (w : ResponseWriter) (key value : string) : ResponseWriter :=
  {| header := <[key := value]> (header w); sent := sent w; written := written w |}.

(** [WriteHeader]: the first call sends the status with the headers as
    they are; a later call changes nothing. *)
Definition WriteHeader (w : ResponseWriter) (code : Z) : ResponseWriter :=
  match sent w with
  | Some _ => w
  | None => {| header := header w; sent := Some (code, header w); written := written w |}
  end.

(** [Write]: sends the status 200 first if none was sent. *)
Definition Write (w : ResponseWriter) (c : Chunk) : ResponseWriter :=
  let w := WriteHeader w StatusOK in
  {| header := header w; sent := sent w; written := (written w ++ [c])%list |}.

Definition HeaderDel (w : ResponseWriter) (key : string) : ResponseWriter :=
  {| header := delete key (header w); sent := sent w; written := written w |}.

(** [http.Error]: a plain-text reply with the status [code] (the
    [Content-Length] is deleted since Go 1.23). *)
Definition Error (w : ResponseWriter) (error : string) (code : Z) : ResponseWriter :=
  let w := HeaderDel w "Content-Length" in
  let w := HeaderSet w "Content-Type" "text/plain; charset=utf-8" in
  let w := HeaderSet w "X-Content-Type-Options" "nosniff" in
  let w := WriteHeader w code in
  Write w (Text (error ++ fmt.newline)).

(** [json.NewEncoder(w).Encode(v)] with its error dropped: the encoding
    is written in one piece, or nothing is when the value is refused. *)
Definition Encode (encodes : vault.Transaction -> bool) (w : ResponseWriter) (v : json.Value)
    : ResponseWriter :=
  if json.supported encodes v then Write w (Encoded v) else w.

(** What the client gets: the status (200 when the handler sent none) and
    the headers that went with it. *)
Definition status (w : ResponseWriter) : Z :=
  match sent w with
  | Some (code, _) => code
  | None => StatusOK
  end.

Definition sentHeader (w : ResponseWriter) : gmap string string :=
  match sent w with
  | Some (_, h) => h
  | None => header w
  end.

End http.

(** ** The page and API handlers of [handlers/bookkeeping.go] *)

Module pages.
Import vault handlers deps http.

Section Handlers.
Context {World Processor : Type}.
Variable v : Vault World Processor.
Variable gh : Site.
Variable p : os.Process.

Definition transactionData (categorized : gmap TransactionType (list Transaction))
    : list (string * list Transaction) :=
  [("Payments", index categorized PaymentTransaction);
   ("Transfers", index categorized TransferTransaction);
   ("Fees", index categorized FeeTransaction)].

(** [fmt.Sprintf("%d", n)] *)
Definition itoa (n : Z) : string := DecimalString.NilZero.string_of_int (Z.to_int n).

(** [t.ExecuteTemplate(w, "base", data)]: the pieces are written as the
    template produces them. *)
Definition ExecuteTemplate (t : PageTemplate) (w : ResponseWriter) (name : string)
    (data : PageData) : ResponseWriter * option string :=
  let '(pieces, err) := t name data in
  (fold_left (fun w piece => Write w (Text piece)) pieces w, err).

(** Each handler gives the writer, the world and the lines logged. *)
Definition BookkeepingHandler (r : Request) (world : World) (w : ResponseWriter)
    : ResponseWriter * World * list string :=
  if negb (String.eqb (Method r) MethodGet) then
    (Error w "Method not allowed" StatusMethodNotAllowed, world, [])
  else
    match loadPage gh "/templates/bookkeeping.html" with
    | inr _ => (Error w "Failed to load template" StatusInternalServerError, world, [])
    | inl t =>
        let vaultDir := getEnvOrDefault p "VAULT_DIR" "vault" in
        let ledgerDir := getEnvOrDefault p "LEDGER_DIR" "ledger" in
        match NewTransactionProcessor v vaultDir ledgerDir world with
        | (inr _, world) =>
            (Error w "Failed to initialize transaction processor" StatusInternalServerError,
             world, [])
        | (inl processor, world) =>
            match ReadCSVFiles v processor world with
            | (inr _, world) =>
                (Error w "Failed to read transaction files" StatusInternalServerError, world, [])
            | (inl transactions, world) =>
                let categorized := Categorize v processor transactions in
                let '(summary, log) := calculateSummaryLog transactions in
                let data :=
                  {| Transactions := transactionData categorized;
                     Summary := summary;
                     Year := itoa (thisYear gh);
                     google_analytics_key := analyticsKey gh |} in
                match ExecuteTemplate t w "base" data with
                | (w, Some err) => (Error w err StatusInternalServerError, world, log)
                | (w, None) => (w, world, log)
                end
            end
        end
    end.

Definition BookkeepingAPIHandler (r : Request) (world : World) (w : ResponseWriter)
    : ResponseWriter * World * list string :=
  if negb (String.eqb (Method r) MethodGet) then
    (Error w "Method not allowed" StatusMethodNotAllowed, world, [])
  else
    let w := HeaderSet w "Content-Type" "application/json" in
    let vaultDir := getEnvOrDefault p "VAULT_DIR" "vault" in
    let ledgerDir := getEnvOrDefault p "LEDGER_DIR" "ledger" in
    match NewTransactionProcessor v vaultDir ledgerDir world with
    | (inr err, world) =>
        (Encode (encodes v) (WriteHeader w StatusInternalServerError)
           (json.Strings [("error", "Failed to initialize transaction processor")]),
         world, ["Error initializing processor: " ++ err])
    | (inl processor, world) =>
        match ReadCSVFiles v processor world with
        | (inr err, world) =>
            (Encode (encodes v) (WriteHeader w StatusInternalServerError)
               (json.Strings [("error", "Failed to read transaction files")]),
             world, ["Error reading CSV files: " ++ err])
        | (inl transactions, world) =>
            let categorized := Categorize v processor transactions in
            let '(summary, log) := calculateSummaryLog transactions in
            (Encode (encodes v) w
               (json.Report (transactionData categorized) summary (len transactions)),
             world, log)
        end
    end.

Definition ProcessTransactionsHandler (r : Request) (world : World) (w : ResponseWriter)
    : ResponseWriter * World * list string :=
  if negb (String.eqb (Method r) MethodPost) then
    (Error w "Method not allowed" StatusMethodNotAllowed, world, [])
  else
    let w := HeaderSet w "Content-Type" "application/json" in
    let vaultDir := getEnvOrDefault p "VAULT_DIR" "vault" in
    let ledgerDir := getEnvOrDefault p "LEDGER_DIR" "ledger" in
    match Run v vaultDir ledgerDir world with
    | (Some err, world) =>
        (Encode (encodes v) (WriteHeader w StatusInternalServerError)
           (json.Strings [("status", "error"); ("message", "Failed to process transactions")]),
         world, ["Error processing transactions: " ++ err])
    | (None, world) =>
        (Encode (encodes v) w
           (json.Strings [("status", "success");
                          ("message", "Transactions processed successfully")]),
         world, [])
    end.

End Handlers.

End pages.

(** ** The page and API handlers of the second variant *)

Module part_000_pages.
Import vault handlers deps http.

Section Handlers.
Context {World Processor : Type}.
Variable v : Vault World Processor.
Variable gh : Site.
Variable p : os.Process.

(** [renderError]: the status 500 and a page with the message and the
    error as they are. *)
Definition renderError (w : ResponseWriter) (message err : string) : ResponseWriter :=
  let w := WriteHeader w StatusInternalServerError in
  Write w (Text ("<html><body><h1>Error</h1><p>" ++ message ++ ": " ++ err
                 ++ "</p></body></html>")).

Definition BookkeepingHandler (r : Request) (world : World) (w : ResponseWriter)
    : ResponseWriter * World :=
  if negb (String.eqb (Method r) MethodGet) then
    (Error w "Method not allowed" StatusMethodNotAllowed, world)
  else
    match loadPage gh "/templates/bookkeeping.html" with
    | inr err =>
        (Error w ("Failed to load template: " ++ err) StatusInternalServerError, world)
    | inl t =>
        let vaultDir := part_000.getEnvOrDefault p "VAULT_DIR" "vault" in
        let ledgerDir := part_000.getEnvOrDefault p "LEDGER_DIR" "ledger" in
        match NewTransactionProcessor v vaultDir ledgerDir world with
        | (inr err, world) =>
            (renderError w "Failed to initialize transaction processor" err, world)
        | (inl processor, world) =>
            match ReadCSVFiles v processor world with
            | (inr err, world) => (renderError w "Failed to read transaction files" err, world)
            | (inl transactions, world) =>
                let categorized := Categorize v processor transactions in
                let summary := part_000.calculateSummary transactions in
                let data :=
                  {| Transactions := pages.transactionData categorized;
                     Summary := summary;
                     Year := "2026";
                     google_analytics_key := analyticsKey gh |} in
                match pages.ExecuteTemplate t w "base" data with
                | (w, Some err) => (Error w err StatusInternalServerError, world)
                | (w, None) => (w, world)
                end
            end
        end
    end.

Definition BookkeepingAPIHandler (r : Request) (world : World) (w : ResponseWriter)
    : ResponseWriter * World :=
  if negb (String.eqb (Method r) MethodGet) then
    (Error w "Method not allowed" StatusMethodNotAllowed, world)
  else
    let vaultDir := part_000.getEnvOrDefault p "VAULT_DIR" "vault" in
    let ledgerDir := part_000.getEnvOrDefault p "LEDGER_DIR" "ledger" in
    match NewTransactionProcessor v vaultDir ledgerDir world with
    | (inr err, world) =>
        (Encode (encodes v) (WriteHeader w StatusInternalServerError)
           (json.Strings [("error", err)]), world)
    | (inl processor, world) =>
        match ReadCSVFiles v processor world with
        | (inr err, world) =>
            (Encode (encodes v) (WriteHeader w StatusInternalServerError)
               (json.Strings [("error", err)]), world)
        | (inl transactions, world) =>
            let categorized := Categorize v processor transactions in
            let summary := part_000.calculateSummary transactions in
            let w := HeaderSet w "Content-Type" "application/json" in
            (Encode (encodes v) w
               (json.Report (pages.transactionData categorized) summary (len transactions)),
             world)
        end
    end.

Definition ProcessTransactionsHandler (r : Request) (world : World) (w : ResponseWriter)
    : ResponseWriter * World :=
  if negb (String.eqb (Method r) MethodPost) then
    (Error w "Method not allowed" StatusMethodNotAllowed, world)
  else
    let vaultDir := part_000.getEnvOrDefault p "VAULT_DIR" "vault" in
    let ledgerDir := part_000.getEnvOrDefault p "LEDGER_DIR" "ledger" in
    match Run v vaultDir ledgerDir world with
    | (Some err, world) =>
        (Encode (encodes v) (WriteHeader w StatusInternalServerError)
           (json.Strings [("status", "error"); ("message", err)]), world)
    | (None, world) =>
        let w := HeaderSet w "Content-Type" "application/json" in
        (Encode (encodes v) w
           (json.Strings [("status", "success");
                          ("message", "Transactions processed successfully")]),
         world)
    end.

End Handlers.

End part_000_pages.

(** ** Vocabulary of the statements *)

Module spec.
Import vault.
Import handlers.

(** The transactions of one type, in the order of the list. *)
Definition ofType (ty : TransactionType) (l : list Transaction) : list Transaction :=
  filter (fun t => Type_ t = ty) l.

(** The amount the aggregation adds for a transaction. *)
Definition amountOf (txn : Transaction) : float64 := fst (scanAmount txn).

(** The amounts of one type added from left to right, from [acc]. *)
Definition sumFrom (acc : float64) (ty : TransactionType) (l : list Transaction) : float64 :=
  fold_left f64_add (map amountOf (ofType ty l)) acc.

(** The loop of [calculateSummary] without its log. *)
Definition step (stats : SummaryStats) (txn : Transaction) : SummaryStats :=
  account stats (Type_ txn) (amountOf txn).

(** The scan of an amount fails: an error, or not one operand stored. *)
Definition scanFails (amount : string) : Prop :=
  let '(n, err, _) := fmt.Sscanf_f amount f64_zero in
  isErr err = true \/ n <> 1.

(** A finite [float64] has an exponent of at least [emin], as every
    result of a rounding has. *)
Definition wf64 (x : float64) : Prop :=
  match x with
  | S754_finite _ _ e => emin prec emax <= e
  | _ => True
  end.

(** What a running sum that started at [+0] is: never [-0]. *)
Definition sum_ok (x : float64) : Prop := wf64 x /\ x <> S754_zero true.

(** [1] for a transaction of the type, [0] for another. *)
Definition one (ty : TransactionType) (txn : Transaction) : Z :=
  if decide (Type_ txn = ty) then 1 else 0.

(** The scenario of the spec. *)
Definition T1 : Transaction :=
  {| TransactionID := "T1"; Amount := "100.50"; Type_ := PaymentTransaction; Details := [] |}.
Definition T2 : Transaction :=
  {| TransactionID := "T2"; Amount := "2.00"; Type_ := FeeTransaction; Details := [] |}.
Definition T3 : Transaction :=
  {| TransactionID := "T3"; Amount := "oops"; Type_ := TransferTransaction; Details := [] |}.

(** The bytes that open or close markup or an attribute value. *)
Definition isMarkup (c : ascii) : bool :=
  Ascii.eqb c "<" || Ascii.eqb c ">" || Ascii.eqb c (ascii_of_nat 34) || Ascii.eqb c "'".

Definition entities : list string := ["&amp;"; "&#39;"; "&lt;"; "&gt;"; "&#34;"].

(** A text in which no markup byte stands and every ampersand opens one
    of the five entities. *)
Inductive escaped : string -> Prop :=
| escaped_empty : escaped EmptyString
| escaped_plain (c : ascii) (s : string) :
    isMarkup c = false -> c <> "&"%char -> escaped s -> escaped (String c s)
| escaped_entity (e s : string) : In e entities -> escaped s -> escaped (e ++ s).

Definition hasMarkup (s : string) : bool := existsb isMarkup (list_ascii_of_string s).

(** A process in which the ledger file exists and cannot be read, and one
    in which there is no such file. *)
Definition deniedProcess : os.Process :=
  {| os.Getenv := fun _ => EmptyString;
     os.Getwd := Some "/srv/goreportcard";
     os.ReadFile := fun _ => inr os.ErrPermission |}.

Definition freshProcess : os.Process :=
  {| os.Getenv := fun _ => EmptyString;
     os.Getwd := Some "/srv/goreportcard";
     os.ReadFile := fun _ => inr os.ErrNotExist |}.

(** A handler whose ledger template writes the ledger content. *)
Definition plainHandler : GRCHandler :=
  {| loadTemplate := fun _ =>
       inl (fun _ data =>
              (match List.find (fun kv => String.eqb (fst kv) "LedgerContent") data with
               | Some kv => snd kv
               | None => EmptyString
               end, None));
     googleAnalyticsKey := EmptyString |}.

(** *** Cleaned paths *)

Definition notSep (c : ascii) : Prop := filepath.isSep c = false.

(** A path element that [Clean] keeps: not empty, without a separator,
    and neither [.] nor [..]. *)
Definition real (e : list ascii) : Prop :=
  e <> [] /\ Forall notSep e /\ e <> ["."%char] /\ e <> ["."%char; "."%char].

(** The buffer of [Clean] (last byte first) that holds the root and the
    elements [es], the last one first. *)
Definition flat (es : list (list ascii)) : list ascii :=
  flat_map (fun e => (rev e ++ ["/"%char])%list) es.

Definition buf (es : list (list ascii)) : list ascii :=
  match es with
  | [] => ["/"%char]
  | _ => flat es
  end.

(** Elements in reading order, a separator before each. *)
Definition tailChars (els : list (list ascii)) : list ascii :=
  flat_map (fun e => "/"%char :: e) els.

(** The rooted path of the elements [es] (the last one first): the root
    alone, or a separator before each element and none at the end. *)
Definition normalForm (es : list (list ascii)) : string :=
  string_of_list_ascii (rev (buf es)).

(** The value [getEnvOrDefault] works on: the variable, or the default
    when the variable is empty or unset. *)
Definition chosen (p : os.Process) (name defaultValue : string) : string :=
  match os.Getenv p name with
  | EmptyString => defaultValue
  | value => value
  end.

(** A process whose working directory cannot be determined, and one whose
    environment sets a relative vault directory. *)
Definition lostProcess : os.Process :=
  {| os.Getenv := fun _ => EmptyString;
     os.Getwd := None;
     os.ReadFile := fun _ => inr os.ErrNotExist |}.

Definition relativeEnvProcess : os.Process :=
  {| os.Getenv := fun name => if String.eqb name "VAULT_DIR" then "../vault/" else EmptyString;
     os.Getwd := Some "/srv/goreportcard";
     os.ReadFile := fun _ => inr os.ErrNotExist |}.

(** A vault with one CSV file and a ledger directory that holds an old
    snapshot; a policy that reads one payment per file. *)
Definition samplePolicy : Policy :=
  {| parseFile := fun name content =>
       Some [{| TransactionID := name; Amount := content;
                Type_ := PaymentTransaction; Details := [] |}];
     renderLedger := fun txns => String.concat fmt.newline (map Amount txns) |}.

Definition sampleFS : FileSystem :=
  <["vault" := [("a.csv", "100.50"); ("notes.txt", "n/a")]]>
    (<["ledger" := [(ledgerFile, "stale")]]> ∅).

End spec.

(** ** Vocabulary of the further properties *)

Module terms.
Import golang vault handlers deps http spec filepath.

(** *** The aggregation *)

(** The scan of the amount fails, as [calculateSummary] tests it. *)
Definition scanFailed (txn : Transaction) : bool :=
  let '(n, err, _) := fmt.Sscanf_f (Amount txn) f64_zero in
  isErr err || negb (n =? 1).

(** The transactions of a type the [switch] has no case for. *)
Definition unrecognized (l : list Transaction) : list Transaction :=
  filter (fun t => recognized (Type_ t) = false) l.

(** The sum of the type of a transaction, [None] for a type without one. *)
Definition sumOfType (ty : TransactionType) (s : SummaryStats) : option float64 :=
  match ty with
  | PaymentTransaction => Some (PaymentsSum s)
  | TransferTransaction => Some (TransfersSum s)
  | FeeTransaction => Some (FeesSum s)
  | UnknownTransaction _ => None
  end.

(** A transaction of a type the aggregation does not know, and one whose
    amount reads as a NaN. *)
Definition TX : Transaction :=
  {| TransactionID := "T0"; Amount := "7.25"; Type_ := UnknownTransaction "refund";
     Details := [] |}.

Definition TNaN : Transaction :=
  {| TransactionID := "T4"; Amount := "NaN"; Type_ := FeeTransaction; Details := [] |}.

(** *** Paths *)

(** The rooted path of the elements [els], in reading order. *)
Definition rootedPath (els : list (list ascii)) : string :=
  match els with
  | [] => "/"
  | _ => string_of_list_ascii (tailChars els)
  end.

(** The element [..]. *)
Definition dotdotElem : list ascii := ["."%char; "."%char].

(** The buffer of [Clean] on a path that is not rooted (last byte first):
    the elements [items], the last one first, a separator between two. *)
Fixpoint relBuf (items : list (list ascii)) : list ascii :=
  match items with
  | [] => []
  | e :: rest =>
      (rev e ++ match rest with [] => [] | _ => "/"%char :: relBuf rest end)%list
  end.

(** The rooted loop with fuel for the whole path. *)
Definition cleanRooted (path out : list ascii) : list ascii :=
  cleanLoop (length path) true path out 1.

(** An element of a cleaned path: not empty and without a separator. *)
Definition elem (e : list ascii) : Prop := e <> [] /\ Forall notSep e.

(** *** The ledger text *)

(** One of the five bytes that [html.EscapeString] replaces. *)
Definition isSpecial (c : ascii) : bool := isMarkup c || Ascii.eqb c "&".

Definition hasSpecial (s : string) : bool := existsb isSpecial (list_ascii_of_string s).

(** *** Replies *)

(** The vault with the text of every error blanked. *)
Definition redact {World Processor} (v : Vault World Processor) : Vault World Processor :=
  {| NewTransactionProcessor := fun vaultDir ledgerDir world =>
       match NewTransactionProcessor v vaultDir ledgerDir world with
       | (inr _, world') => (inr EmptyString, world')
       | ok => ok
       end;
     ReadCSVFiles := fun processor world =>
       match ReadCSVFiles v processor world with
       | (inr _, world') => (inr EmptyString, world')
       | ok => ok
       end;
     Categorize := Categorize v;
     Run := fun vaultDir ledgerDir world =>
       match Run v vaultDir ledgerDir world with
       | (Some _, world') => (Some EmptyString, world')
       | ok => ok
       end;
     encodes := encodes v |}.

(** A vault that reads [outcome] and never fails otherwise. *)
Definition readingVault (outcome : list Transaction + string) : Vault unit unit :=
  {| NewTransactionProcessor := fun _ _ world => (inl tt, world);
     ReadCSVFiles := fun _ world => (outcome, world);
     Categorize := fun _ => CategorizeTransactions;
     Run := fun _ _ world => (None, world);
     encodes := fun _ => true |}.

(** A vault that cannot be opened. *)
Definition closedVault (err : string) : Vault unit unit :=
  {| NewTransactionProcessor := fun _ _ world => (inr err, world);
     ReadCSVFiles := fun _ world => (inr err, world);
     Categorize := fun _ => CategorizeTransactions;
     Run := fun _ _ world => (Some err, world);
     encodes := fun _ => true |}.

(** A site whose page template writes [pieces] and then fails with [err]. *)
Definition failingSite (pieces : list string) (err : string) : Site :=
  {| loadPage := fun _ => inl (fun _ _ => (pieces, Some err));
     analyticsKey := EmptyString;
     thisYear := 2026 |}.

Definition jsonType : string := "application/json".

(** A report whose count is the total of its summary, under the three
    keys of the handler; any other chunk. *)
Definition reportOK (c : Chunk) : Prop :=
  match c with
  | Encoded (json.Report ts s n) =>
      n = TotalTransactions s /\ map fst ts = ["Payments"; "Transfers"; "Fees"]
  | _ => True
  end.

End terms.

(** * Properties *)

Import vault handlers spec.

(** Case analysis on the tests a goal branches on. *)
Ltac case_tests :=
  repeat match goal with
         | |- context [if ?b then _ else _] => destruct b
         | |- context [match ?x with EmptyString => _ | String _ _ => _ end] => destruct x
         end.

(** Both sides take the same branch. *)
Ltac same_branch :=
  repeat match goal with
         | |- (if ?b then _ else _) = (if ?b then _ else _) => destruct b
         end.

(** ** The library models at work *)

Example ParseFloat_tenth :
  strconv.ParseFloat "0.1" = (S754_finite false 7205759403792794 (-56), None).
Proof. vm_compute. reflexivity. Qed.

Example ParseFloat_overflow :
  strconv.ParseFloat "1e400" = (S754_infinity false, Some strconv.ErrRange).
Proof. vm_compute. reflexivity. Qed.

Example ParseFloat_negative_underflow :
  strconv.ParseFloat "-1e-400" = (S754_zero true, None).
Proof. vm_compute. reflexivity. Qed.

Example ParseFloat_underscores :
  strconv.ParseFloat "1_000.5" = (f64_of_binary 2001 (-1), None)
  /\ snd (strconv.ParseFloat "1__000.5") = Some strconv.ErrSyntax.
Proof. split; vm_compute; reflexivity. Qed.

Example Sscanf_amount :
  fmt.Sscanf_f "100.50" f64_zero = (1, None, f64_of_binary 201 (-1)).
Proof. vm_compute. reflexivity. Qed.

Example Sscanf_prefix :
  fmt.Sscanf_f "  12abc" f64_zero = (1, None, f64_of_binary 12 0).
Proof. vm_compute. reflexivity. Qed.

Example Sscanf_word :
  fmt.Sscanf_f "oops" f64_zero = (0, Some (fmt.ErrNum strconv.ErrSyntax), f64_zero).
Proof. vm_compute. reflexivity. Qed.

Example Sscanf_empty : fmt.Sscanf_f "  " f64_zero = (0, Some fmt.ErrEOF, f64_zero).
Proof. vm_compute. reflexivity. Qed.

Example Sscanf_out_of_range :
  fmt.Sscanf_f "1e999" f64_zero = (0, Some (fmt.ErrNum strconv.ErrRange), f64_zero).
Proof. vm_compute. reflexivity. Qed.

Example Sscanf_binary_exponent :
  fmt.Sscanf_f "1.5p-1" f64_zero = (1, None, f64_of_binary 3 (-2)).
Proof. vm_compute. reflexivity. Qed.

Example Sscanf_nan : fmt.Sscanf_f "NaN" f64_zero = (1, None, S754_nan).
Proof. vm_compute. reflexivity. Qed.

Example Clean_table :
  map filepath.Clean
    ["abc"; "abc/def"; "."; ".."; "../../abc"; "/abc"; "/"; ""; "abc/"; "abc//def//ghi";
     "//abc"; "abc/./def"; "abc/def/ghi/../jkl"; "abc/def/../.."; "/abc/def/../../..";
     "abc/def/../../../ghi/jkl/../../../mno"; "/../abc"; "abc/../../././../def"]
  = ["abc"; "abc/def"; "."; ".."; "../../abc"; "/abc"; "/"; "."; "abc"; "abc/def/ghi";
     "/abc"; "abc/def"; "abc/def/jkl"; "."; "/";
     "../../mno"; "/abc"; "../../def"].
Proof. vm_compute. reflexivity. Qed.

Example EscapeString_script :
  html.EscapeString "<b onclick='x'>&" = "&lt;b onclick=&#39;x&#39;&gt;&amp;".
Proof. vm_compute. reflexivity. Qed.

(** ** The loops of the scanner end before their fuel *)

Section ScannerLoops.
Import fmt.

Lemma DecodeRune_length s r rest :
  DecodeRune s = Some (r, rest) -> (String.length rest < String.length s)%nat.
Proof.
  unfold DecodeRune. destruct s as [|c0 s1]; [discriminate|].
  case_tests; intros H; inversion H; subst; simpl; lia.
Qed.

Lemma getRune_length s r s' :
  getRune s = Some (r, s') -> (String.length (input s') < String.length (input s))%nat.
Proof.
  unfold getRune. destruct (hugeWid <=? count s)%Z; [discriminate|].
  destruct (DecodeRune (input s)) as [[r0 rest]|] eqn:E; [|discriminate].
  intros H; inversion H; subst. simpl. eapply DecodeRune_length; eassumption.
Qed.

Lemma SkipSpace_fuel f1 : forall f2 s,
  (String.length (input s) < f1)%nat -> (String.length (input s) < f2)%nat ->
  SkipSpace f1 s = SkipSpace f2 s.
Proof.
  induction f1 as [|f1 IH]; intros f2 s H1 H2; [lia|].
  destruct f2 as [|f2]; [lia|]. simpl.
  destruct (getRune s) as [[r s']|] eqn:E; [|reflexivity].
  apply getRune_length in E.
  same_branch; try reflexivity; apply IH; lia.
Qed.

Lemma accept_length ok s s' : accept ok s = (true, s') ->
  (String.length (input s') < String.length (input s))%nat.
Proof.
  unfold accept. destruct (getRune s) as [[r s1]|] eqn:E; [|discriminate].
  apply getRune_length in E. destruct (indexRune ok r); intros H; inversion H; subst. simpl. lia.
Qed.

Lemma acceptAll_fuel f1 : forall f2 ok s,
  (String.length (input s) < f1)%nat -> (String.length (input s) < f2)%nat ->
  acceptAll f1 ok s = acceptAll f2 ok s.
Proof.
  induction f1 as [|f1 IH]; intros f2 ok s H1 H2; [lia|].
  destruct f2 as [|f2]; [lia|]. simpl.
  destruct (accept ok s) as [[|] s'] eqn:E; [|reflexivity].
  apply accept_length in E. apply IH; lia.
Qed.

Lemma skipSpaces_fuel fuel s :
  (String.length (input s) < fuel)%nat -> SkipSpace fuel s = skipSpaces s.
Proof. intros H. apply SkipSpace_fuel; [assumption | lia]. Qed.

Lemma acceptRun_fuel fuel ok s :
  (String.length (input s) < fuel)%nat -> acceptAll fuel ok s = acceptRun ok s.
Proof. intros H. apply acceptAll_fuel; [assumption | lia]. Qed.

End ScannerLoops.

(** ** The aggregation, field by field *)

Lemma loopBody_fst st txn : fst (loopBody st txn) = step (fst st) txn.
Proof.
  unfold loopBody, step, amountOf. destruct (scanAmount txn); reflexivity.
Qed.

Lemma fold_loopBody_fst l : forall st,
  fst (fold_left loopBody l st) = fold_left step l (fst st).
Proof.
  induction l as [|txn l IH]; intros st; simpl; [reflexivity|].
  rewrite IH, loopBody_fst. reflexivity.
Qed.

Lemma calculateSummary_fold l :
  calculateSummary l = setNetLiquidity (fold_left step l (initialStats l)).
Proof.
  unfold calculateSummary, calculateSummaryLog. simpl.
  rewrite fold_loopBody_fst. reflexivity.
Qed.

Lemma wrap_int_small x : MinInt <= x <= MaxInt -> wrap_int x = x.
Proof.
  unfold wrap_int, MinInt, MaxInt. intros H.
  rewrite Z.mod_small; lia.
Qed.

Lemma int_add_wrap x y : int_add (wrap_int x) y = wrap_int (x + y).
Proof.
  unfold int_add, wrap_int. f_equal.
  replace ((x + 2 ^ 63) mod 2 ^ 64 - 2 ^ 63 + y + 2 ^ 63)
    with ((x + 2 ^ 63) mod 2 ^ 64 + y) by ring.
  rewrite Zplus_mod_idemp_l. f_equal. ring.
Qed.

Lemma ofType_cons ty txn l :
  ofType ty (txn :: l) = if decide (Type_ txn = ty) then txn :: ofType ty l else ofType ty l.
Proof. unfold ofType. rewrite filter_cons. reflexivity. Qed.

Lemma len_ofType_cons ty txn l : len (ofType ty (txn :: l)) = one ty txn + len (ofType ty l).
Proof.
  rewrite ofType_cons. unfold one, len.
  destruct (decide (Type_ txn = ty)); simpl length; lia.
Qed.

(** Each count is the number of transactions of its type, as an [int]. *)
Lemma fold_counts l : forall s p t f,
  TotalPayments s = wrap_int p -> TotalTransfers s = wrap_int t -> TotalFees s = wrap_int f ->
  let s' := fold_left step l s in
  TotalTransactions s' = TotalTransactions s /\
  TotalPayments s' = wrap_int (p + len (ofType PaymentTransaction l)) /\
  TotalTransfers s' = wrap_int (t + len (ofType TransferTransaction l)) /\
  TotalFees s' = wrap_int (f + len (ofType FeeTransaction l)).
Proof.
  induction l as [|txn l IH]; intros s p t f Hp Ht Hf; simpl.
  - unfold len. simpl. rewrite !Z.add_0_r. auto.
  - rewrite !len_ofType_cons.
    specialize (IH (step s txn) (p + one PaymentTransaction txn)
                   (t + one TransferTransaction txn) (f + one FeeTransaction txn)).
    simpl in IH. rewrite !Z.add_assoc.
    destruct IH as (H0 & H1 & H2 & H3).
    + unfold step, one. destruct (Type_ txn); simpl; rewrite ?Hp, ?int_add_wrap;
        repeat case_decide; try congruence; f_equal; lia.
    + unfold step, one. destruct (Type_ txn); simpl; rewrite ?Ht, ?int_add_wrap;
        repeat case_decide; try congruence; f_equal; lia.
    + unfold step, one. destruct (Type_ txn); simpl; rewrite ?Hf, ?int_add_wrap;
        repeat case_decide; try congruence; f_equal; lia.
    + rewrite H0, H1, H2, H3. repeat split; try reflexivity.
      unfold step. destruct (Type_ txn); reflexivity.
Qed.

(** Each sum is the sum of the amounts of its type, from left to right. *)
Lemma fold_sums l : forall s,
  let s' := fold_left step l s in
  PaymentsSum s' = sumFrom (PaymentsSum s) PaymentTransaction l /\
  TransfersSum s' = sumFrom (TransfersSum s) TransferTransaction l /\
  FeesSum s' = sumFrom (FeesSum s) FeeTransaction l.
Proof.
  induction l as [|txn l IH]; intros s; simpl; [auto|].
  destruct (IH (step s txn)) as (H1 & H2 & H3).
  rewrite H1, H2, H3. unfold sumFrom. rewrite !ofType_cons.
  unfold step. destruct (Type_ txn); repeat case_decide; try congruence; simpl; auto.
Qed.

(** ** Counts *)

Lemma len_ofType_le ty l : 0 <= len (ofType ty l) <= len l.
Proof.
  unfold len, ofType. pose proof (length_filter (fun t => Type_ t = ty) l). lia.
Qed.

Lemma len_partition l :
  len (ofType PaymentTransaction l) + len (ofType TransferTransaction l)
    + len (ofType FeeTransaction l)
    + len (filter (fun t => recognized (Type_ t) = false) l) = len l.
Proof.
  induction l as [|txn l IH]; [reflexivity|].
  rewrite !len_ofType_cons, filter_cons. unfold one, len in *.
  destruct (Type_ txn); repeat case_decide; try congruence;
    simpl in *; try discriminate; lia.
Qed.

Lemma unrecognized_none l :
  len (filter (fun t => recognized (Type_ t) = false) l) = 0
  <-> Forall (fun t => recognized (Type_ t) = true) l.
Proof.
  induction l as [|txn l IH]; [split; [constructor | reflexivity]|].
  rewrite filter_cons, Forall_cons. unfold len in *.
  destruct (recognized (Type_ txn)) eqn:E; case_decide; try congruence; simpl length.
  - rewrite IH. tauto.
  - split; [lia | intros [? _]; discriminate].
Qed.

Lemma counts_exact l :
  len l <= MaxInt ->
  TotalTransactions (calculateSummary l) = len l /\
  TotalPayments (calculateSummary l) = len (ofType PaymentTransaction l) /\
  TotalTransfers (calculateSummary l) = len (ofType TransferTransaction l) /\
  TotalFees (calculateSummary l) = len (ofType FeeTransaction l).
Proof.
  intros Hlen. rewrite calculateSummary_fold.
  destruct (fold_counts l (initialStats l) 0 0 0) as (H0 & H1 & H2 & H3);
    try reflexivity.
  simpl in *. rewrite H0, H1, H2, H3.
  pose proof (len_ofType_le PaymentTransaction l).
  pose proof (len_ofType_le TransferTransaction l).
  pose proof (len_ofType_le FeeTransaction l).
  unfold MaxInt in Hlen.
  rewrite !wrap_int_small by (unfold MinInt, MaxInt; lia). auto.
Qed.

(** C1: for a transaction list (a Go slice, so its length is an [int]),
    the counts of payments, transfers and fees of [calculateSummary] add up
    to [TotalTransactions] exactly when every transaction of the list has
    one of the three recognized types. *)
Theorem counts_sum_iff_recognized (l : list Transaction) :
  len l <= MaxInt ->
  TotalPayments (calculateSummary l) + TotalTransfers (calculateSummary l)
    + TotalFees (calculateSummary l) = TotalTransactions (calculateSummary l)
  <-> Forall (fun t => recognized (Type_ t) = true) l.
Proof.
  intros Hlen. destruct (counts_exact l Hlen) as (H0 & H1 & H2 & H3).
  rewrite H0, H1, H2, H3, <- unrecognized_none.
  pose proof (len_partition l). lia.
Qed.

Lemma counts_sum_iff_recognized_witness :
  TotalPayments (calculateSummary [T1; T2; T3]) + TotalTransfers (calculateSummary [T1; T2; T3])
    + TotalFees (calculateSummary [T1; T2; T3]) = TotalTransactions (calculateSummary [T1; T2; T3])
  <-> Forall (fun t => recognized (Type_ t) = true) [T1; T2; T3].
Proof.
  apply (counts_sum_iff_recognized [T1; T2; T3]). vm_compute. discriminate.
Defined.

(** ** Net liquidity *)

Lemma sums_of_summary (l : list Transaction) :
  PaymentsSum (calculateSummary l) = sumFrom f64_zero PaymentTransaction l
  /\ TransfersSum (calculateSummary l) = sumFrom f64_zero TransferTransaction l
  /\ FeesSum (calculateSummary l) = sumFrom f64_zero FeeTransaction l.
Proof.
  rewrite calculateSummary_fold. exact (fold_sums l (initialStats l)).
Qed.

(** C3: the net liquidity that [calculateSummary] returns is the sum of
    the payments, transfers and fees sums, added in this order as they are;
    and each of the three is the sum of the amounts of its type, added from
    zero in the order of the list. *)
Theorem net_liquidity_is_plain_sum (l : list Transaction) :
  NetLiquidity (calculateSummary l)
    = f64_add (f64_add (PaymentsSum (calculateSummary l)) (TransfersSum (calculateSummary l)))
              (FeesSum (calculateSummary l))
  /\ PaymentsSum (calculateSummary l) = sumFrom f64_zero PaymentTransaction l
  /\ TransfersSum (calculateSummary l) = sumFrom f64_zero TransferTransaction l
  /\ FeesSum (calculateSummary l) = sumFrom f64_zero FeeTransaction l.
Proof.
  rewrite calculateSummary_fold.
  destruct (fold_sums l (initialStats l)) as (H1 & H2 & H3).
  cbn [NetLiquidity PaymentsSum TransfersSum FeesSum setNetLiquidity] in *.
  rewrite H1, H2, H3. auto.
Qed.

(** ** The scenario *)

(** C4: on the payment of 100.50, the fee of 2.00 and the transfer with
    the amount [oops], [calculateSummary] counts three transactions, one of
    each type, and returns the sums 100.5 (201/2), 2 and 0, and the net
    liquidity 102.5 (205/2). *)
Theorem scenario_summary :
  calculateSummary [T1; T2; T3] =
    {| TotalTransactions := 3;
       TotalPayments := 1; TotalTransfers := 1; TotalFees := 1;
       PaymentsSum := f64_of_binary 201 (-1);
       TransfersSum := f64_zero;
       FeesSum := f64_of_binary 2 0;
       NetLiquidity := f64_of_binary 205 (-1) |}.
Proof. vm_compute. reflexivity. Qed.

(** ** The two variants of the aggregation *)

(** A scan either fails, stores nothing and leaves the operand as it was,
    or succeeds and stores one operand. *)
Lemma Sscanf_f_cases str dst :
  (exists e, fmt.Sscanf_f str dst = (0, Some e, dst)) \/
  (exists f, fmt.Sscanf_f str dst = (1, None, f)).
Proof.
  unfold fmt.Sscanf_f.
  destruct (fmt.skipSpaces _) as [s1|e]; [|left; eauto].
  destruct (fmt.skipSpaces s1) as [s2|e]; [|left; eauto].
  destruct (fmt.getRune s2); [|left; eauto].
  destruct (fmt.convertFloat _) as [f|e]; [right|left]; eauto.
Qed.

Lemma amountOf_unchecked txn : amountOf txn = part_000.scanAmount txn.
Proof.
  unfold amountOf, handlers.scanAmount, part_000.scanAmount.
  destruct (Sscanf_f_cases (Amount txn) f64_zero) as [[e H]|[f H]]; rewrite H; reflexivity.
Qed.

(** C10: the aggregation that checks the result of [Sscanf] and the one
    that does not return the same [SummaryStats] on every list. *)
Theorem calculateSummary_variants_agree (l : list Transaction) :
  handlers.calculateSummary l = part_000.calculateSummary l.
Proof.
  rewrite calculateSummary_fold. unfold part_000.calculateSummary. f_equal.
  generalize (initialStats l). induction l as [|txn l IH]; intros s; simpl; [reflexivity|].
  rewrite IH. unfold step, part_000.loopBody. rewrite amountOf_unchecked. reflexivity.
Qed.

(** ** Rounding: exponents and zeros *)

Lemma shr_fexp_emin m e l : emin prec emax <= snd (shr_fexp prec emax m e l).
Proof.
  unfold shr_fexp, shr, fexp.
  destruct (Z.max (Zdigits2 m + e - prec) (emin prec emax) - e) eqn:E; simpl; lia.
Qed.

Lemma binary_round_aux_wf s m e l : wf64 (binary_round_aux prec emax s m e l).
Proof.
  unfold binary_round_aux.
  destruct (shr_fexp prec emax m e l) as [mrs' e'].
  pose proof (shr_fexp_emin (round_nearest_even (shr_m mrs') (loc_of_shr_record mrs')) e' loc_Exact) as H.
  destruct (shr_fexp prec emax _ e' loc_Exact) as [mrs'' e'']. simpl in H.
  destruct (shr_m mrs''); simpl; auto.
  destruct (e'' <=? emax - prec); simpl; auto.
Qed.

Lemma binary_round_wf s m e : wf64 (binary_round prec emax s m e).
Proof.
  unfold binary_round. destruct (shl_align _ _ _). apply binary_round_aux_wf.
Qed.

Lemma shr_1_m mrs : 0 <= shr_m mrs -> shr_m (shr_1 mrs) = shr_m mrs / 2.
Proof.
  destruct mrs as [m r s]. unfold shr_1. cbn [shr_m]. intros H.
  destruct m as [|[p|p|]|p]; cbn [shr_m]; try lia; try reflexivity.
  - apply Z.div_unique with 1; lia.
  - apply Z.div_unique with 0; lia.
Qed.

Lemma iter_shr_1_m p : forall mrs, 0 <= shr_m mrs ->
  shr_m (SpecFloat.iter_pos shr_1 p mrs) = shr_m mrs / 2 ^ Zpos p.
Proof.
  induction p as [p IH|p IH|]; intros mrs H; simpl SpecFloat.iter_pos.
  - assert (H1 : 0 <= shr_m (shr_1 mrs)) by (rewrite shr_1_m by lia; apply Z.div_pos; lia).
    assert (H2 : 0 <= shr_m (SpecFloat.iter_pos shr_1 p (shr_1 mrs)))
      by (rewrite IH by lia; apply Z.div_pos; lia).
    rewrite IH, IH, shr_1_m by lia.
    rewrite !Z.div_div by lia. f_equal.
    replace (Z.pos p~1) with (1 + Z.pos p + Z.pos p) by lia.
    rewrite !Z.pow_add_r, Z.pow_1_r by lia. ring.
  - assert (H2 : 0 <= shr_m (SpecFloat.iter_pos shr_1 p mrs))
      by (rewrite IH by lia; apply Z.div_pos; lia).
    rewrite IH, IH by lia.
    rewrite !Z.div_div by lia. f_equal.
    replace (Z.pos p~0) with (Z.pos p + Z.pos p) by lia.
    rewrite Z.pow_add_r by lia. ring.
  - rewrite shr_1_m by lia. reflexivity.
Qed.

Lemma digits2_pos_bound p : 2 ^ (Zpos (digits2_pos p) - 1) <= Zpos p.
Proof.
  induction p as [p IH|p IH|]; simpl digits2_pos; rewrite ?Pos2Z.inj_succ.
  - replace (Z.succ (Zpos (digits2_pos p)) - 1) with (Z.succ (Zpos (digits2_pos p) - 1)) by lia.
    rewrite Z.pow_succ_r by lia. lia.
  - replace (Z.succ (Zpos (digits2_pos p)) - 1) with (Z.succ (Zpos (digits2_pos p) - 1)) by lia.
    rewrite Z.pow_succ_r by lia. lia.
  - simpl. lia.
Qed.

Lemma shr_record_of_loc_m m l : shr_m (shr_record_of_loc m l) = m.
Proof. destruct l as [|[]]; reflexivity. Qed.

Lemma shr_fexp_pos m e l :
  0 < m -> emin prec emax <= e -> 0 < shr_m (fst (shr_fexp prec emax m e l)).
Proof.
  intros Hm He. unfold shr_fexp, shr, fexp.
  destruct m as [|p|p]; try lia. simpl Zdigits2.
  destruct (Z.max (Zpos (digits2_pos p) + e - prec) (emin prec emax) - e) as [|k|k] eqn:E;
    simpl fst; rewrite ?shr_record_of_loc_m; try lia.
  rewrite iter_shr_1_m by (rewrite shr_record_of_loc_m; lia).
  rewrite shr_record_of_loc_m.
  pose proof (digits2_pos_bound p) as Hd.
  assert (Hk : Zpos k <= Zpos (digits2_pos p) - 1) by (unfold prec in *; lia).
  assert (2 ^ Zpos k <= 2 ^ (Zpos (digits2_pos p) - 1)) by (apply Z.pow_le_mono_r; lia).
  apply Z.div_str_pos. lia.
Qed.

Lemma round_nearest_even_ge m l : m <= round_nearest_even m l.
Proof. destruct l as [|[]]; simpl; try lia. destruct (Z.even m); lia. Qed.

Lemma binary_round_aux_nonzero s m e l b :
  0 < m -> emin prec emax <= e -> binary_round_aux prec emax s m e l <> S754_zero b.
Proof.
  intros Hm He. unfold binary_round_aux.
  pose proof (shr_fexp_pos m e l Hm He) as H1.
  pose proof (shr_fexp_emin m e l) as H2.
  destruct (shr_fexp prec emax m e l) as [mrs' e']. simpl in H1, H2.
  pose proof (round_nearest_even_ge (shr_m mrs') (loc_of_shr_record mrs')) as H3.
  pose proof (shr_fexp_pos (round_nearest_even (shr_m mrs') (loc_of_shr_record mrs')) e' loc_Exact) as H4.
  destruct (shr_fexp prec emax _ e' loc_Exact) as [mrs'' e'']. simpl in H4.
  specialize (H4 ltac:(lia) H2).
  destruct (shr_m mrs''); try lia.
  destruct (e'' <=? emax - prec); discriminate.
Qed.

Lemma binary_round_nonzero s m e b :
  emin prec emax <= e -> binary_round prec emax s m e <> S754_zero b.
Proof.
  intros He. unfold binary_round.
  destruct (shl_align m e _) as [mz ez] eqn:E.
  apply binary_round_aux_nonzero; [lia|].
  unfold shl_align, fexp in E.
  destruct (Z.max _ _ - e) eqn:E1; inversion E; subst; lia.
Qed.

Lemma binary_normalize_ok m e : emin prec emax <= e -> sum_ok (binary_normalize prec emax m e false).
Proof.
  intros He. split.
  - destruct m; simpl; auto using binary_round_wf.
  - destruct m; simpl; try discriminate; apply binary_round_nonzero; assumption.
Qed.

Lemma f64_add_ok x y : sum_ok x -> wf64 y -> sum_ok (f64_add x y).
Proof.
  intros [Hx Hx0] Hy. unfold f64_add, SFadd.
  destruct x as [[]|[]| |sx mx ex], y as [[]|[]| |sy my ey];
    try congruence; try (split; [exact I || assumption | discriminate]).
  apply binary_normalize_ok. simpl in Hx, Hy. lia.
Qed.


Lemma special_wf s v n : strconv.special s = Some (v, n) -> wf64 v.
Proof.
  unfold strconv.special. destruct s as [|c0 rest]; [discriminate|].
  case_tests; intros H; inversion H; exact I.
Qed.

Lemma decimalToFloat_wf neg m e : wf64 (strconv.decimalToFloat neg m e).
Proof.
  unfold strconv.decimalToFloat. destruct m; try exact I.
  destruct (0 <=? e); [apply binary_round_wf|].
  unfold SFdiv. destruct (SFdiv_core_binary _ _ _ _ _ _) as [[mz ez] lz].
  apply binary_round_aux_wf.
Qed.

Lemma hexToFloat_wf neg m e : wf64 (strconv.hexToFloat neg m e).
Proof. unfold strconv.hexToFloat. destruct m; try exact I. apply binary_round_wf. Qed.

Lemma ParseFloat_wf s : wf64 (fst (strconv.ParseFloat s)).
Proof.
  unfold strconv.ParseFloat.
  destruct (strconv.special s) as [[v n]|] eqn:E.
  - destruct (n =? _); simpl; [eapply special_wf; eassumption | exact I].
  - destruct (strconv.readFloat s) as [r|]; [|exact I].
    destruct (strconv.fp_rest r); [|exact I].
    destruct (strconv.fp_hex r); simpl; auto using hexToFloat_wf, decimalToFloat_wf.
Qed.

Lemma Ldexp_wf f m : wf64 f -> wf64 (math.Ldexp f m).
Proof.
  intros H. unfold math.Ldexp. destruct f; auto.
  destruct (_ <? -1075); [exact I|]. destruct (1023 <? _); [exact I|].
  apply binary_round_wf.
Qed.

Lemma convertFloat_wf str f : fmt.convertFloat str = inl f -> wf64 f.
Proof.
  unfold fmt.convertFloat.
  assert (Hplain : match strconv.ParseFloat str with
                   | (f0, None) => inl f0
                   | (_, Some e) => inr (fmt.ErrNum e)
                   end = inl f -> wf64 f).
  { pose proof (ParseFloat_wf str) as H. destruct (strconv.ParseFloat str) as [f0 [e|]];
      intros E; inversion E; subst; exact H. }
  destruct (String.index _ _ str) as [p|]; [|exact Hplain].
  destruct (fmt.hasX str); [exact Hplain|].
  pose proof (ParseFloat_wf (substring 0 p str)) as H.
  destruct (strconv.ParseFloat (substring 0 p str)) as [f0 [e|]]; [discriminate|].
  destruct (strconv.Atoi _) as [m|e]; [|discriminate].
  intros E; inversion E; subst. apply Ldexp_wf. exact H.
Qed.

Lemma amountOf_wf txn : wf64 (amountOf txn).
Proof.
  unfold amountOf, scanAmount, fmt.Sscanf_f.
  destruct (fmt.skipSpaces _) as [s1|e]; [|exact I].
  destruct (fmt.skipSpaces s1) as [s2|e]; [|exact I].
  destruct (fmt.getRune s2); [|exact I].
  destruct (fmt.convertFloat _) as [f|e] eqn:E; [|exact I].
  simpl. eapply convertFloat_wf; eassumption.
Qed.

Lemma amountOf_fails txn : scanFails (Amount txn) -> amountOf txn = f64_zero.
Proof.
  unfold scanFails, amountOf, scanAmount.
  destruct (fmt.Sscanf_f (Amount txn) f64_zero) as [[n err] f].
  intros [H|H].
  - rewrite H. reflexivity.
  - destruct (isErr err); [reflexivity|].
    destruct (n =? 1) eqn:E; [apply Z.eqb_eq in E; contradiction | reflexivity].
Qed.

Lemma fold_add_ok l : forall acc,
  sum_ok acc -> Forall wf64 l -> sum_ok (fold_left f64_add l acc).
Proof.
  induction l as [|a l IH]; intros acc Hacc Hl; simpl; [assumption|].
  inversion Hl; subst. apply IH; [apply f64_add_ok|]; assumption.
Qed.

Lemma sumFrom_ok acc ty l : sum_ok acc -> sum_ok (sumFrom acc ty l).
Proof.
  intros H. apply fold_add_ok; [assumption|].
  apply Forall_forall. intros x Hx. apply list_elem_of_In, in_map_iff in Hx as (t & <- & _).
  apply amountOf_wf.
Qed.

Lemma f64_zero_ok : sum_ok f64_zero.
Proof. split; [exact I | discriminate]. Qed.

Lemma ofType_app ty l1 l2 : ofType ty (l1 ++ l2)%list = (ofType ty l1 ++ ofType ty l2)%list.
Proof. unfold ofType. apply filter_app. Qed.



(** ** Amounts that do not scan *)

Lemma fold_loopBody_snd l : forall st,
  snd (fold_left loopBody l st) = (snd st ++ flat_map (fun t => snd (scanAmount t)) l)%list.
Proof.
  induction l as [|txn l IH]; intros st; simpl.
  - rewrite app_nil_r. reflexivity.
  - rewrite IH. unfold loopBody. destruct (scanAmount txn) as [a msgs]. simpl.
    rewrite <- app_assoc. reflexivity.
Qed.

(** The failure is logged, with the amount and the identifier. *)
Lemma failed_scan_is_logged l1 txn l2 :
  scanFails (Amount txn) -> In (warning txn) (snd (calculateSummaryLog (l1 ++ txn :: l2)%list)).
Proof.
  intros Hfail. unfold calculateSummaryLog. cbn [snd].
  rewrite fold_loopBody_snd. cbn [snd app]. rewrite flat_map_app.
  apply in_or_app. right. simpl. apply in_or_app. left.
  unfold scanFails, scanAmount in *.
  destruct (fmt.Sscanf_f (Amount txn) f64_zero) as [[n err] f].
  destruct Hfail as [H|H].
  - rewrite H. simpl. auto.
  - destruct (isErr err); simpl; [auto|].
    destruct (n =? 1) eqn:E; [apply Z.eqb_eq in E; contradiction | simpl; auto].
Qed.



(** ** The ledger page *)

Lemma escapeByte_cases c :
  (isMarkup c = false /\ c <> "&"%char /\ html.escapeByte c = String c EmptyString)
  \/ In (html.escapeByte c) entities.
Proof.
  unfold html.escapeByte, isMarkup, entities.
  destruct (Ascii.eqb c "&") eqn:E1; [right; simpl; auto|].
  destruct (Ascii.eqb c "'") eqn:E2; [right; simpl; auto|].
  destruct (Ascii.eqb c "<") eqn:E3; [right; simpl; auto|].
  destruct (Ascii.eqb c ">") eqn:E4; [right; simpl; auto|].
  destruct (Ascii.eqb c (ascii_of_nat 34)) eqn:E5; [right; simpl; auto 6|].
  left. split; [reflexivity|]. split; [|reflexivity].
  intros ->. discriminate.
Qed.

Lemma EscapeString_escaped md : escaped (html.EscapeString md).
Proof.
  induction md as [|c md IH]; simpl; [constructor|].
  destruct (escapeByte_cases c) as [(H1 & H2 & ->)|H].
  - simpl. constructor; assumption.
  - constructor; assumption.
Qed.

Lemma hasMarkup_app s t : hasMarkup (s ++ t) = hasMarkup s || hasMarkup t.
Proof.
  unfold hasMarkup. induction s as [|c s IH]; simpl; [reflexivity|].
  rewrite IH, orb_assoc. reflexivity.
Qed.

Lemma escaped_no_markup s : escaped s -> hasMarkup s = false.
Proof.
  induction 1 as [|c s Hc _ _ IH|e s He _ IH].
  - reflexivity.
  - unfold hasMarkup in *. simpl. rewrite Hc, IH. reflexivity.
  - rewrite hasMarkup_app, IH, orb_false_r.
    unfold entities in He. simpl in He.
    destruct He as [<-|[<-|[<-|[<-|[<-|[]]]]]]; reflexivity.
Qed.

(** C8: [markdownToHTML] returns the opening [div] tag, the HTML-escaped
    ledger text and the closing tag; in the escaped text no byte is [<],
    [>], a double or a single quote, and every ampersand opens one of the
    five entities. *)
Theorem markdownToHTML_escapes (md : string) :
  markdownToHTML md
    = ("<div class=" ++ dquote ++ "ledger-content" ++ dquote ++ ">")
        ++ html.EscapeString md ++ "</div>"
  /\ escaped (html.EscapeString md)
  /\ hasMarkup (html.EscapeString md) = false.
Proof.
  split; [reflexivity|]. split.
  - apply EscapeString_escaped.
  - apply escaped_no_markup, EscapeString_escaped.
Qed.

(** C7, on the code: when the ledger file exists and cannot be read,
    [LedgerHandler] answers as it does when there is no file, with status
    200 and the page of the placeholder text; no failure is shown. *)
Theorem LedgerHandler_read_error_shows_placeholder :
  fst (LedgerHandler plainHandler deniedProcess)
    = {| status := 200; body := markdownToHTML noLedger |}
  /\ fst (LedgerHandler plainHandler deniedProcess)
      = fst (LedgerHandler plainHandler freshProcess).
Proof. split; vm_compute; reflexivity. Qed.

(** Whatever the error of the read and whatever the template, the page is
    that of the placeholder. *)
Lemma LedgerHandler_any_read_error gh p t err :
  os.ReadFile p (filepath.Join "ledger" "FK_MASTER_LEDGER.md") = inr err ->
  loadTemplate gh "templates/ledger.html" = inl t ->
  fst (LedgerHandler gh p)
    = {| status := 200;
         body := fst (t "base" [("google_analytics_key", googleAnalyticsKey gh);
                                ("LedgerContent", markdownToHTML noLedger)]) |}.
Proof.
  intros Hread Hload. unfold LedgerHandler. rewrite Hread, Hload.
  destruct (t "base" _) as [page e]. reflexivity.
Qed.

(** ** The categorizer *)

Lemma index_categorizeStep m txn ty :
  index (categorizeStep m txn) ty
    = if decide (Type_ txn = ty) then (index m ty ++ [txn])%list else index m ty.
Proof.
  unfold categorizeStep, index. case_decide as E.
  - subst ty. rewrite lookup_insert_eq. reflexivity.
  - rewrite lookup_insert_ne by assumption. reflexivity.
Qed.

Lemma index_fold_categorize l : forall m ty,
  index (fold_left categorizeStep l m) ty = (index m ty ++ ofType ty l)%list.
Proof.
  induction l as [|txn l IH]; intros m ty; simpl.
  - rewrite app_nil_r. reflexivity.
  - rewrite IH, index_categorizeStep, ofType_cons.
    case_decide; [rewrite <- app_assoc|]; reflexivity.
Qed.

Lemma lookup_fold_categorize l : forall m ty,
  m !! ty = None -> ofType ty l = [] -> fold_left categorizeStep l m !! ty = None.
Proof.
  induction l as [|txn l IH]; intros m ty Hm Hl; simpl; [assumption|].
  rewrite ofType_cons in Hl. case_decide as E; [discriminate|].
  apply IH; [|assumption].
  unfold categorizeStep. rewrite lookup_insert_ne by assumption. assumption.
Qed.

Lemma index_CategorizeTransactions l ty : index (CategorizeTransactions l) ty = ofType ty l.
Proof.
  unfold CategorizeTransactions.
  rewrite index_fold_categorize. unfold index. rewrite lookup_empty. reflexivity.
Qed.

Lemma recognized_partition l :
  Forall (fun t => recognized (Type_ t) = true) l ->
  Permutation
    (ofType PaymentTransaction l ++ ofType TransferTransaction l ++ ofType FeeTransaction l)%list
    l.
Proof.
  induction 1 as [|txn l Ht _ IH]; [constructor|].
  rewrite !ofType_cons.
  destruct (Type_ txn); try discriminate; repeat case_decide; try congruence.
  - simpl. constructor. exact IH.
  - simpl. rewrite <- Permutation_middle. constructor. exact IH.
  - rewrite app_assoc, <- Permutation_middle, <- app_assoc. constructor. exact IH.
Qed.

(** C6: on a list whose transactions all have one of the three types,
    [CategorizeTransactions] gives a partition: the sub-lists of payments,
    transfers and fees, one after the other, are a rearrangement of the
    input (nothing lost, nothing twice); the sub-list of each type is the
    input's transactions of that type in the input's order; and a type that
    no transaction has is absent from the map (and reads as the empty
    list). *)
Theorem CategorizeTransactions_partition (l : list Transaction) :
  Forall (fun t => recognized (Type_ t) = true) l ->
  Permutation (flatten (CategorizeTransactions l)) l
  /\ (forall ty, index (CategorizeTransactions l) ty = ofType ty l)
  /\ (forall ty, ofType ty l = [] ->
        CategorizeTransactions l !! ty = None /\ index (CategorizeTransactions l) ty = []).
Proof.
  intros Hl. split; [|split].
  - unfold flatten. rewrite !index_CategorizeTransactions. apply recognized_partition, Hl.
  - apply index_CategorizeTransactions.
  - intros ty Hty. split.
    + apply lookup_fold_categorize; [apply lookup_empty | exact Hty].
    + rewrite index_CategorizeTransactions. exact Hty.
Qed.

Lemma CategorizeTransactions_partition_witness :
  Permutation (flatten (CategorizeTransactions [T1; T2; T3])) [T1; T2; T3]
  /\ (forall ty, index (CategorizeTransactions [T1; T2; T3]) ty = ofType ty [T1; T2; T3])
  /\ (forall ty, ofType ty [T1; T2; T3] = [] ->
        CategorizeTransactions [T1; T2; T3] !! ty = None
        /\ index (CategorizeTransactions [T1; T2; T3]) ty = []).
Proof.
  apply (CategorizeTransactions_partition [T1; T2; T3]).
  repeat constructor.
Defined.

(** ** The ledger writer *)

Lemma isCSV_ledgerFile content : isCSV (ledgerFile, content) = false.
Proof. reflexivity. Qed.

Lemma filter_isCSV_writeEntry content entries :
  filter (fun e => isCSV e = true) (writeEntry ledgerFile content entries)
    = filter (fun e => isCSV e = true) entries.
Proof.
  induction entries as [|[n c] entries IH]; cbn [writeEntry].
  - rewrite filter_cons. case_decide as E; [|reflexivity].
    rewrite isCSV_ledgerFile in E. discriminate.
  - destruct (String.eqb n ledgerFile) eqn:En.
    + apply String.eqb_eq in En. subst n.
      rewrite !filter_cons. repeat case_decide; try reflexivity;
        rewrite isCSV_ledgerFile in *; discriminate.
    + rewrite !filter_cons, IH. reflexivity.
Qed.

Lemma writeEntry_twice name content entries :
  writeEntry name content (writeEntry name content entries) = writeEntry name content entries.
Proof.
  induction entries as [|[n c] entries IH]; simpl.
  - rewrite String.eqb_refl. reflexivity.
  - destruct (String.eqb n name) eqn:En; simpl.
    + rewrite String.eqb_refl. reflexivity.
    + rewrite En, IH. reflexivity.
Qed.

Lemma find_writeEntry name content entries :
  List.find (fun e => String.eqb (fst e) name) (writeEntry name content entries)
    = Some (name, content).
Proof.
  induction entries as [|[n c] entries IH]; simpl.
  - rewrite String.eqb_refl. reflexivity.
  - destruct (String.eqb n name) eqn:En; simpl.
    + rewrite String.eqb_refl. reflexivity.
    + rewrite En. exact IH.
Qed.

Lemma ReadCSVFiles_after_write p fs vaultDir ledgerDir content entries :
  fs !! ledgerDir = Some entries ->
  ReadCSVFiles p (<[ledgerDir := writeEntry ledgerFile content entries]> fs) vaultDir
    = ReadCSVFiles p fs vaultDir.
Proof.
  intros Hdir. unfold ReadCSVFiles.
  destruct (decide (ledgerDir = vaultDir)) as [<-|Hne].
  - rewrite lookup_insert_eq, Hdir, filter_isCSV_writeEntry. reflexivity.
  - rewrite lookup_insert_ne by assumption. reflexivity.
Qed.

(** C5: when [Run] succeeds, a second [Run] on the file system it leaves
    succeeds and leaves it as it is, every byte of the snapshot included;
    and the snapshot a run leaves is the document of the transactions just
    read, whatever the ledger directory held before. *)
Theorem Run_idempotent_and_replacing (p : Policy) (vaultDir ledgerDir : string)
    (fs fs1 : FileSystem) :
  Run p vaultDir ledgerDir fs = (fs1, None) ->
  Run p vaultDir ledgerDir fs1 = (fs1, None)
  /\ exists txns,
       ReadCSVFiles p fs vaultDir = inl txns
       /\ snapshot fs1 ledgerDir = Some (renderLedger p txns).
Proof.
  unfold Run. intros H.
  destruct (ReadCSVFiles p fs vaultDir) as [txns|e] eqn:Hread; [|discriminate].
  destruct (fs !! ledgerDir) as [entries|] eqn:Hdir; [|discriminate].
  inversion H; subst fs1; clear H. split.
  - rewrite (ReadCSVFiles_after_write p fs vaultDir ledgerDir _ entries Hdir), Hread.
    rewrite lookup_insert_eq, writeEntry_twice, insert_insert_eq. reflexivity.
  - exists txns. split; [reflexivity|].
    unfold snapshot. rewrite lookup_insert_eq.
    unfold ledgerFile at 1. rewrite (find_writeEntry ledgerFile). reflexivity.
Qed.

Lemma Run_idempotent_and_replacing_witness :
  Run samplePolicy "vault" "ledger" (fst (Run samplePolicy "vault" "ledger" sampleFS))
    = (fst (Run samplePolicy "vault" "ledger" sampleFS), None)
  /\ exists txns,
       ReadCSVFiles samplePolicy sampleFS "vault" = inl txns
       /\ snapshot (fst (Run samplePolicy "vault" "ledger" sampleFS)) "ledger"
            = Some (renderLedger samplePolicy txns).
Proof.
  apply (Run_idempotent_and_replacing samplePolicy "vault" "ledger" sampleFS).
  vm_compute. reflexivity.
Defined.

(** ** Directory settings *)

Import filepath.

Lemma buf_cons e es : buf (e :: es) = (rev e ++ "/"%char :: flat es)%list.
Proof. unfold buf, flat. simpl. rewrite <- app_assoc. reflexivity. Qed.

Lemma buf_flat es : buf es = match flat es with [] => ["/"%char] | _ => flat es end.
Proof.
  destruct es as [|e es]; [reflexivity|].
  rewrite buf_cons. unfold flat at 2 3. simpl. fold (flat es).
  rewrite <- app_assoc. destruct (rev e); reflexivity.
Qed.

Lemma unwind_element re : forall c0 tail,
  notSep c0 -> Forall notSep re ->
  unwind 1 (re ++ "/"%char :: tail)%list c0 = match tail with [] => ["/"%char] | _ => tail end.
Proof.
  induction re as [|c1 re IH]; intros c0 tail Hc0 Hre; simpl.
  - rewrite Hc0. destruct tail as [|t tail]; [reflexivity|]. simpl.
    destruct tail; reflexivity.
  - inversion Hre; subst. rewrite Hc0.
    replace (1 <? S (length (re ++ "/"%char :: tail)%list))%nat with true.
    + simpl. apply IH; assumption.
    + symmetry. apply Nat.ltb_lt. rewrite length_app. simpl. lia.
Qed.

Lemma real_rev e : real e -> rev e <> [] /\ Forall notSep (rev e).
Proof.
  intros (Hne & Hsep & _). split; [|apply Forall_rev; assumption].
  intros H. apply Hne. rewrite <- (rev_involutive e), H. reflexivity.
Qed.

Lemma backtrack_buf e es : real e -> backtrack 1 (buf (e :: es)) = buf es.
Proof.
  intros He. destruct (real_rev e He) as (Hne & Hsep). rewrite buf_cons, (buf_flat es).
  destruct (rev e) as [|c0 re]; [contradiction|].
  inversion Hsep; subst. simpl. apply unwind_element; assumption.
Qed.

Lemma length_buf es : Forall real es -> (length (buf es) =? 1)%nat = match es with [] => true | _ => false end.
Proof.
  destruct es as [|e es]; [reflexivity|]. intros H. inversion H as [|? ? He _]; subst.
  destruct (real_rev e He) as (Hne & _).
  rewrite buf_cons. destruct (rev e) as [|c re]; [contradiction|].
  simpl. rewrite length_app. simpl. apply Nat.eqb_neq. lia.
Qed.

Lemma length_buf_lt es : Forall real es -> (1 <? length (buf es))%nat = match es with [] => false | _ => true end.
Proof.
  destruct es as [|e es]; [reflexivity|]. intros H. inversion H as [|? ? He _]; subst.
  destruct (real_rev e He) as (Hne & _).
  rewrite buf_cons. destruct (rev e) as [|c re]; [contradiction|].
  simpl. rewrite length_app. simpl. apply Nat.ltb_lt. lia.
Qed.

Lemma copyElement_spec path : forall out,
  exists elem rest,
    path = (elem ++ rest)%list /\ Forall notSep elem /\ endOrSep rest = true
    /\ copyElement path out = (rest, (rev elem ++ out)%list).
Proof.
  induction path as [|c path IH]; intros out; simpl.
  - exists [], []. repeat split; constructor.
  - destruct (isSep c) eqn:Ec.
    + exists [], (c :: path). repeat split; [constructor | exact Ec].
    + destruct (IH (c :: out)) as (elem & rest & -> & Hsep & Hend & Hcopy).
      exists (c :: elem), rest. repeat split; [constructor; assumption | assumption |].
      rewrite Hcopy. simpl. rewrite <- app_assoc. reflexivity.
Qed.

Lemma push_buf e es : Forall real es ->
  (rev e ++ (if (true && negb (length (buf es) =? 1)%nat) || (negb true && negb (length (buf es) =? 0)%nat)
          then "/"%char :: buf es else buf es))%list
  = buf (e :: es).
Proof.
  intros H. rewrite (length_buf es H). rewrite buf_cons.
  destruct es; simpl; reflexivity.
Qed.

Lemma cleanLoop_step fuel rooted c rest out dotdot :
  cleanLoop (S fuel) rooted (c :: rest) out dotdot =
    if isSep c then cleanLoop fuel rooted rest out dotdot
    else if Ascii.eqb c "." && endOrSep rest then cleanLoop fuel rooted rest out dotdot
    else if Ascii.eqb c "." &&
            match rest with
            | c1 :: rest1 => Ascii.eqb c1 "." && endOrSep rest1
            | [] => false
            end then
      if (dotdot <? length out)%nat then
        cleanLoop fuel rooted (tl rest) (backtrack dotdot out) dotdot
      else if negb rooted then
        cleanLoop fuel rooted (tl rest)
          ("."%char :: "."%char :: (if (0 <? length out)%nat then "/"%char :: out else out))
          (length ("."%char :: "."%char :: (if (0 <? length out)%nat then "/"%char :: out else out)))
      else cleanLoop fuel rooted (tl rest) out dotdot
    else
      cleanLoop fuel rooted
        (fst (copyElement (c :: rest)
               (if (rooted && negb (length out =? 1)%nat) || (negb rooted && negb (length out =? 0)%nat)
                then "/"%char :: out else out)))
        (snd (copyElement (c :: rest)
               (if (rooted && negb (length out =? 1)%nat) || (negb rooted && negb (length out =? 0)%nat)
                then "/"%char :: out else out)))
        dotdot.
Proof.
  cbn [cleanLoop].
  destruct (copyElement (c :: rest) _) as [rest' out2]. reflexivity.
Qed.

(** On a rooted path the loop keeps the buffer a root and real elements. *)
Lemma cleanLoop_rooted fuel : forall path es,
  Forall real es ->
  exists es', Forall real es' /\ cleanLoop fuel true path (buf es) 1 = buf es'.
Proof.
  induction fuel as [|fuel IH]; intros path es Hes; [simpl; eauto|].
  destruct path as [|c rest]; [simpl; eauto|].
  rewrite cleanLoop_step.
  destruct (isSep c) eqn:Ec; [apply IH; assumption|].
  destruct (Ascii.eqb c "." && endOrSep rest) eqn:Edot; [apply IH; assumption|].
  destruct (Ascii.eqb c "." && match rest with
                               | c1 :: rest1 => Ascii.eqb c1 "." && endOrSep rest1
                               | [] => false
                               end) eqn:Edd.
  - rewrite (length_buf_lt es Hes). destruct es as [|re es]; simpl negb; cbv iota.
    + apply IH. assumption.
    + inversion Hes; subst. rewrite backtrack_buf by assumption. apply IH. assumption.
  - destruct (copyElement_spec (c :: rest)
               (if (true && negb (length (buf es) =? 1)%nat) || (negb true && negb (length (buf es) =? 0)%nat)
                then "/"%char :: buf es else buf es)) as (elem & rest' & Hpath & Hsep & Hend & Hcopy).
    rewrite Hcopy. cbn [fst snd]. rewrite push_buf by assumption.
    apply IH. constructor; [|assumption].
    destruct elem as [|c' elem].
    { simpl in Hpath. subst rest'. simpl in Hend. congruence. }
    simpl in Hpath. inversion Hpath; subst c' rest.
    repeat split.
    + discriminate.
    + assumption.
    + intros Hr. inversion Hr; subst. simpl in Edot. rewrite Hend in Edot. discriminate.
    + intros Hr. inversion Hr; subst. simpl in Edd. rewrite Hend in Edd. discriminate.
Qed.

Lemma rev_flat es : rev (flat es) = tailChars (rev es).
Proof.
  induction es as [|e es IH]; [reflexivity|].
  unfold flat, tailChars in *. simpl. rewrite rev_app_distr, IH, flat_map_app.
  simpl. rewrite rev_app_distr, rev_involutive, app_nil_r. reflexivity.
Qed.

Lemma copyElement_app e : forall rest out,
  Forall notSep e -> endOrSep rest = true ->
  copyElement (e ++ rest)%list out = (rest, (rev e ++ out)%list).
Proof.
  induction e as [|c e IH]; intros rest out He Hrest.
  - destruct rest as [|c rest]; [reflexivity|]. simpl in *. rewrite Hrest. reflexivity.
  - inversion He as [|? ? Hc He']; subst. simpl. rewrite Hc, IH by assumption.
    rewrite <- app_assoc. reflexivity.
Qed.

Lemma endOrSep_tailChars els : endOrSep (tailChars els) = true.
Proof. destruct els; reflexivity. Qed.

Lemma cleanLoop_nil fuel rooted out dotdot : cleanLoop fuel rooted [] out dotdot = out.
Proof. destruct fuel; reflexivity. Qed.

(** More fuel than the bytes of the path changes nothing. *)
Lemma copyElement_length path : forall out,
  (length (fst (copyElement path out)) <= length path)%nat.
Proof.
  induction path as [|c path IH]; intros out; simpl; [lia|].
  destruct (isSep c); simpl; [lia|]. specialize (IH (c :: out)). lia.
Qed.

Lemma cleanLoop_fuel f1 : forall f2 rooted path out dotdot,
  (length path <= f1)%nat -> (length path <= f2)%nat ->
  cleanLoop f1 rooted path out dotdot = cleanLoop f2 rooted path out dotdot.
Proof.
  induction f1 as [|f1 IH]; intros f2 rooted path out dotdot H1 H2.
  - destruct path; [|simpl in H1; lia]. rewrite !cleanLoop_nil. reflexivity.
  - destruct path as [|c rest]; [rewrite !cleanLoop_nil; reflexivity|].
    destruct f2 as [|f2]; [simpl in H2; lia|].
    simpl in H1, H2. rewrite !cleanLoop_step.
    pose proof (copyElement_length (c :: rest)
      (if (rooted && negb (length out =? 1)%nat) || (negb rooted && negb (length out =? 0)%nat)
       then "/"%char :: out else out)) as Hc.
    assert (Hc' : isSep c = false ->
      (length (fst (copyElement (c :: rest)
        (if (rooted && negb (length out =? 1)%nat) || (negb rooted && negb (length out =? 0)%nat)
         then "/"%char :: out else out))) <= length rest)%nat).
    { intros E. simpl. rewrite E. apply copyElement_length. }
    assert (Htl : (length (tl rest) <= length rest)%nat) by (destruct rest; simpl; lia).
    destruct (isSep c); [apply IH; lia|].
    same_branch; apply IH; try lia; specialize (Hc' eq_refl); lia.
Qed.

(** On a path in normal form the loop copies each element. *)
Lemma cleanLoop_normal els : forall done fuel,
  Forall real els -> Forall real done ->
  (length (tailChars els) <= fuel)%nat ->
  cleanLoop fuel true (tailChars els) (buf done) 1 = buf (rev els ++ done)%list.
Proof.
  induction els as [|e els IH]; intros done fuel Hels Hdone Hfuel.
  - apply cleanLoop_nil.
  - inversion Hels as [|? ? He Hels']; subst.
    destruct He as (Hne & Hsep & Hdot & Hdd).
    destruct e as [|c e]; [contradiction|].
    inversion Hsep as [|? ? Hc Hsep']; subst.
    change (tailChars ((c :: e) :: els)) with ("/"%char :: c :: (e ++ tailChars els)%list) in *.
    simpl in Hfuel. rewrite length_app in Hfuel.
    destruct fuel as [|[|fuel]]; try lia.
    rewrite cleanLoop_step. cbn [isSep Ascii.eqb]. simpl (Ascii.eqb "/" "/").
    cbv iota. rewrite cleanLoop_step, Hc.
    assert (E1 : Ascii.eqb c "." && endOrSep (e ++ tailChars els)%list = false).
    { destruct (Ascii.eqb c ".") eqn:Ec; [|reflexivity]. apply Ascii.eqb_eq in Ec. subst c.
      destruct e as [|c1 e]; [contradiction Hdot; reflexivity|].
      inversion Hsep'; subst. simpl. assumption. }
    assert (E2 : Ascii.eqb c "." && match (e ++ tailChars els)%list with
                                    | c1 :: rest1 => Ascii.eqb c1 "." && endOrSep rest1
                                    | [] => false
                                    end = false).
    { destruct (Ascii.eqb c ".") eqn:Ec; [|reflexivity]. apply Ascii.eqb_eq in Ec. subst c.
      destruct e as [|c1 e].
      - simpl. destruct els; reflexivity.
      - simpl. destruct (Ascii.eqb c1 ".") eqn:Ec1; [|reflexivity].
        apply Ascii.eqb_eq in Ec1. subst c1.
        destruct e as [|c2 e]; [contradiction Hdd; reflexivity|].
        inversion Hsep' as [|? ? _ Hsep'']; subst. inversion Hsep''; subst. simpl. assumption. }
    rewrite E1, E2.
    change (c :: (e ++ tailChars els)%list) with ((c :: e) ++ tailChars els)%list.
    rewrite copyElement_app by (assumption || apply endOrSep_tailChars).
    cbn [fst snd]. rewrite push_buf by assumption.
    rewrite IH; [| assumption | constructor; [repeat split|]; assumption | lia].
    simpl rev. rewrite <- app_assoc. reflexivity.
Qed.

Lemma buf_not_nil es : buf es <> [].
Proof.
  destruct es as [|e es]; [discriminate|]. rewrite buf_cons.
  destruct (rev e); discriminate.
Qed.

Lemma rev_buf_rooted es : exists rest, rev (buf es) = "/"%char :: rest.
Proof.
  rewrite buf_flat. destruct (flat es) eqn:E; [exists []; reflexivity|].
  rewrite <- E, rev_flat. destruct (rev es) as [|e els] eqn:Er.
  - apply (f_equal (@rev _)) in Er. rewrite rev_involutive in Er. subst es. discriminate.
  - simpl. eauto.
Qed.

Lemma Clean_rooted path :
  IsAbs path = true -> exists es, Forall real es /\ Clean path = normalForm es.
Proof.
  destruct path as [|c path]; [discriminate|]. simpl. intros Hc.
  unfold Clean. cbn [list_ascii_of_string]. rewrite Hc.
  destruct (cleanLoop_rooted (String.length (String c path)) (list_ascii_of_string path) [])
    as (es & Hes & Hloop); [constructor|].
  change (buf []) with ["/"%char] in Hloop. rewrite Hloop.
  exists es. split; [assumption|].
  pose proof (buf_not_nil es). unfold normalForm.
  destruct (buf es); [contradiction|reflexivity].
Qed.

Lemma Clean_normalForm es : Forall real es -> Clean (normalForm es) = normalForm es.
Proof.
  intros Hes. unfold Clean, normalForm.
  rewrite list_ascii_of_string_of_list_ascii.
  destruct (rev_buf_rooted es) as (rest & Hrest). rewrite Hrest.
  cbn [isSep]. simpl (Ascii.eqb "/" "/"). cbv iota.
  assert (Hloop : cleanLoop (String.length (string_of_list_ascii ("/"%char :: rest))) true rest ["/"%char] 1
                  = buf es).
  { destruct es as [|e0 es0].
    - simpl in Hrest. inversion Hrest; subst. reflexivity.
    - assert (Hflat : rev (buf (e0 :: es0)) = tailChars (rev (e0 :: es0))).
      { change (buf (e0 :: es0)) with (flat (e0 :: es0)). apply rev_flat. }
      remember (e0 :: es0) as es eqn:Ees. clear Ees e0 es0.
      cbn [String.length string_of_list_ascii].
      pose proof (cleanLoop_normal (rev es) [] (S (S (length rest)))) as H.
      rewrite <- Hflat, Hrest in H. rewrite cleanLoop_step in H.
      simpl (isSep "/") in H. cbv iota in H.
      rewrite rev_involutive, app_nil_r in H.
      replace (String.length (string_of_list_ascii rest)) with (length rest).
      + apply H; [apply Forall_rev; assumption | constructor | simpl; lia].
      + clear. induction rest; simpl; congruence. }
  rewrite Hloop. rewrite <- Hrest.
  pose proof (buf_not_nil es). destruct (buf es); [contradiction|reflexivity].
Qed.

Lemma IsAbs_normalForm es : IsAbs (normalForm es) = true.
Proof.
  unfold normalForm. destruct (rev_buf_rooted es) as (rest & ->). reflexivity.
Qed.

Lemma Clean_absolute path :
  IsAbs path = true -> IsAbs (Clean path) = true /\ Clean (Clean path) = Clean path.
Proof.
  intros H. destruct (Clean_rooted path H) as (es & Hes & ->).
  split; [apply IsAbs_normalForm | apply Clean_normalForm; assumption].
Qed.

Lemma IsAbs_app a b : IsAbs a = true -> IsAbs (a ++ b) = true.
Proof. destruct a; [discriminate|]. simpl. auto. Qed.

Lemma Abs_absolute p path r :
  (forall wd, os.Getwd p = Some wd -> IsAbs wd = true) ->
  Abs p path = Some r -> IsAbs r = true /\ Clean r = r.
Proof.
  intros Hwd. unfold Abs. destruct (IsAbs path) eqn:Hp.
  - intros H; inversion H; subst. apply Clean_absolute. assumption.
  - destruct (os.Getwd p) as [wd|] eqn:Ewd; [|discriminate].
    intros H; inversion H; subst. specialize (Hwd wd eq_refl).
    unfold Join. destruct wd as [|c wd]; [discriminate|].
    apply Clean_absolute. exact Hwd.
Qed.

Lemma part_000_getEnvOrDefault_cases (p : os.Process) (name defaultValue : string) :
  (forall wd, os.Getwd p = Some wd -> IsAbs wd = true) ->
  match os.Getenv p name with
  | EmptyString =>
      match Abs p defaultValue with
      | Some r =>
          part_000.getEnvOrDefault p name defaultValue = r /\ IsAbs r = true /\ Clean r = r
      | None => part_000.getEnvOrDefault p name defaultValue = defaultValue
      end
  | value => part_000.getEnvOrDefault p name defaultValue = value
  end.
Proof.
  intros Hwd. unfold part_000.getEnvOrDefault.
  destruct (os.Getenv p name) as [|c v]; [|reflexivity].
  destruct (Abs p defaultValue) as [r|] eqn:E; [|reflexivity].
  split; [reflexivity|]. eapply Abs_absolute; eassumption.
Qed.

(** C9, as the code has it: [getEnvOrDefault] of [bookkeeping.go] takes
    the variable, or the default when the variable is empty, cleans it and
    makes it absolute.  When [filepath.Abs] succeeds the result is an
    absolute path that [Clean] leaves as it is; when it fails (a relative
    value and no working directory) the result is the value as it was
    given.  The second variant does this for the default only, and
    returns a variable that is set as it is.  The working directory, when
    there is one, is an absolute path. *)
Theorem getEnvOrDefault_normalizes (p : os.Process) (name defaultValue : string) :
  (forall wd, os.Getwd p = Some wd -> IsAbs wd = true) ->
  match Abs p (Clean (chosen p name defaultValue)) with
  | Some r =>
      getEnvOrDefault p name defaultValue = r /\ IsAbs r = true /\ Clean r = r
  | None => getEnvOrDefault p name defaultValue = chosen p name defaultValue
  end
  /\
  match os.Getenv p name with
  | EmptyString =>
      match Abs p defaultValue with
      | Some r =>
          part_000.getEnvOrDefault p name defaultValue = r /\ IsAbs r = true /\ Clean r = r
      | None => part_000.getEnvOrDefault p name defaultValue = defaultValue
      end
  | value => part_000.getEnvOrDefault p name defaultValue = value
  end.
Proof.
  intros Hwd. split; [|apply part_000_getEnvOrDefault_cases; assumption].
  unfold getEnvOrDefault, chosen.
  destruct (os.Getenv p name) as [|c v].
  - destruct (Abs p (Clean defaultValue)) as [r|] eqn:E; [|reflexivity].
    split; [reflexivity|]. eapply Abs_absolute; eassumption.
  - destruct (Abs p (Clean (String c v))) as [r|] eqn:E; [|reflexivity].
    split; [reflexivity|]. eapply Abs_absolute; eassumption.
Qed.

Lemma getEnvOrDefault_normalizes_witness :
  (getEnvOrDefault deniedProcess "LEDGER_DIR" "ledger/../ledger/." = "/srv/goreportcard/ledger"
   /\ IsAbs "/srv/goreportcard/ledger" = true
   /\ Clean "/srv/goreportcard/ledger" = "/srv/goreportcard/ledger")
  /\
  (part_000.getEnvOrDefault deniedProcess "LEDGER_DIR" "ledger/../ledger/."
     = "/srv/goreportcard/ledger"
   /\ IsAbs "/srv/goreportcard/ledger" = true
   /\ Clean "/srv/goreportcard/ledger" = "/srv/goreportcard/ledger").
Proof.
  apply (getEnvOrDefault_normalizes deniedProcess "LEDGER_DIR" "ledger/../ledger/.").
  intros wd H. inversion H. reflexivity.
Defined.

(** C9 as stated fails: without a working directory the default comes
    back as it is, and it is not absolute; and the second variant returns
    a relative path set in the environment as it is. *)
Lemma getEnvOrDefault_not_always_absolute :
  (getEnvOrDefault lostProcess "VAULT_DIR" "vault" = "vault"
   /\ IsAbs (getEnvOrDefault lostProcess "VAULT_DIR" "vault") = false)
  /\
  (part_000.getEnvOrDefault relativeEnvProcess "VAULT_DIR" "vault" = "../vault/"
   /\ IsAbs (part_000.getEnvOrDefault relativeEnvProcess "VAULT_DIR" "vault") = false
   /\ Clean (part_000.getEnvOrDefault relativeEnvProcess "VAULT_DIR" "vault")
        <> part_000.getEnvOrDefault relativeEnvProcess "VAULT_DIR" "vault").
Proof. vm_compute. repeat split. discriminate. Qed.

(** * Further properties *)

Import terms.

(** ** The aggregation on any list *)

Lemma counts_wrapped l :
  TotalTransactions (calculateSummary l) = len l /\
  TotalPayments (calculateSummary l) = wrap_int (len (ofType PaymentTransaction l)) /\
  TotalTransfers (calculateSummary l) = wrap_int (len (ofType TransferTransaction l)) /\
  TotalFees (calculateSummary l) = wrap_int (len (ofType FeeTransaction l)).
Proof.
  rewrite calculateSummary_fold.
  destruct (fold_counts l (initialStats l) 0 0 0) as (H0 & H1 & H2 & H3); try reflexivity.
  cbn [TotalTransactions TotalPayments TotalTransfers TotalFees setNetLiquidity] in *.
  rewrite H0, H1, H2, H3. auto.
Qed.

Lemma NetLiquidity_of_summary l :
  NetLiquidity (calculateSummary l)
  = f64_add (f64_add (PaymentsSum (calculateSummary l)) (TransfersSum (calculateSummary l)))
            (FeesSum (calculateSummary l)).
Proof. rewrite calculateSummary_fold. reflexivity. Qed.

(** X1: for a list of at most [MaxInt] transactions the total is the
    length of the list, the three counts and the number of transactions
    of an unrecognised type add up to it, and each count lies between
    zero and the total. *)
Theorem counts_fall_short_by_unrecognized (l : list Transaction) :
  len l <= MaxInt ->
  TotalTransactions (calculateSummary l) = len l
  /\ TotalPayments (calculateSummary l) + TotalTransfers (calculateSummary l)
       + TotalFees (calculateSummary l) + len (unrecognized l)
     = TotalTransactions (calculateSummary l)
  /\ 0 <= TotalPayments (calculateSummary l) <= TotalTransactions (calculateSummary l)
  /\ 0 <= TotalTransfers (calculateSummary l) <= TotalTransactions (calculateSummary l)
  /\ 0 <= TotalFees (calculateSummary l) <= TotalTransactions (calculateSummary l).
Proof.
  intros Hlen. destruct (counts_exact l Hlen) as (H0 & H1 & H2 & H3).
  rewrite H0, H1, H2, H3. pose proof (len_partition l) as Hp. fold (unrecognized l) in Hp.
  pose proof (len_ofType_le PaymentTransaction l).
  pose proof (len_ofType_le TransferTransaction l).
  pose proof (len_ofType_le FeeTransaction l).
  repeat split; lia.
Qed.

Lemma counts_fall_short_by_unrecognized_witness :
  TotalTransactions (calculateSummary [T1; TX; T2; T3]) = len [T1; TX; T2; T3]
  /\ TotalPayments (calculateSummary [T1; TX; T2; T3])
       + TotalTransfers (calculateSummary [T1; TX; T2; T3])
       + TotalFees (calculateSummary [T1; TX; T2; T3]) + len (unrecognized [T1; TX; T2; T3])
     = TotalTransactions (calculateSummary [T1; TX; T2; T3])
  /\ 0 <= TotalPayments (calculateSummary [T1; TX; T2; T3])
       <= TotalTransactions (calculateSummary [T1; TX; T2; T3])
  /\ 0 <= TotalTransfers (calculateSummary [T1; TX; T2; T3])
       <= TotalTransactions (calculateSummary [T1; TX; T2; T3])
  /\ 0 <= TotalFees (calculateSummary [T1; TX; T2; T3])
       <= TotalTransactions (calculateSummary [T1; TX; T2; T3]).
Proof.
  apply (counts_fall_short_by_unrecognized [T1; TX; T2; T3]).
  vm_compute. discriminate.
Defined.

Lemma ofType_skip_other ty l1 txn l2 :
  Type_ txn <> ty -> ofType ty (l1 ++ txn :: l2)%list = ofType ty (l1 ++ l2)%list.
Proof.
  intros H. rewrite !ofType_app, ofType_cons. case_decide; [contradiction | reflexivity].
Qed.

(** X2: a transaction of an unrecognised type adds one to the total and
    changes no other field of the summary, wherever it stands in the
    list and whatever its amount. *)
Theorem unrecognized_type_only_counts_in_total (l1 l2 : list Transaction) (txn : Transaction) :
  recognized (Type_ txn) = false ->
  TotalTransactions (calculateSummary (l1 ++ txn :: l2)%list)
    = TotalTransactions (calculateSummary (l1 ++ l2)%list) + 1
  /\ TotalPayments (calculateSummary (l1 ++ txn :: l2)%list)
     = TotalPayments (calculateSummary (l1 ++ l2)%list)
  /\ TotalTransfers (calculateSummary (l1 ++ txn :: l2)%list)
     = TotalTransfers (calculateSummary (l1 ++ l2)%list)
  /\ TotalFees (calculateSummary (l1 ++ txn :: l2)%list)
     = TotalFees (calculateSummary (l1 ++ l2)%list)
  /\ PaymentsSum (calculateSummary (l1 ++ txn :: l2)%list)
     = PaymentsSum (calculateSummary (l1 ++ l2)%list)
  /\ TransfersSum (calculateSummary (l1 ++ txn :: l2)%list)
     = TransfersSum (calculateSummary (l1 ++ l2)%list)
  /\ FeesSum (calculateSummary (l1 ++ txn :: l2)%list)
     = FeesSum (calculateSummary (l1 ++ l2)%list)
  /\ NetLiquidity (calculateSummary (l1 ++ txn :: l2)%list)
     = NetLiquidity (calculateSummary (l1 ++ l2)%list).
Proof.
  intros Hun.
  assert (Hne : forall ty, recognized ty = true -> Type_ txn <> ty).
  { intros ty Hty E. rewrite E in Hun. congruence. }
  destruct (counts_wrapped (l1 ++ txn :: l2)%list) as (A0 & A1 & A2 & A3).
  destruct (counts_wrapped (l1 ++ l2)%list) as (B0 & B1 & B2 & B3).
  destruct (sums_of_summary (l1 ++ txn :: l2)%list) as (C1 & C2 & C3).
  destruct (sums_of_summary (l1 ++ l2)%list) as (D1 & D2 & D3).
  rewrite !NetLiquidity_of_summary, A0, A1, A2, A3, B0, B1, B2, B3, C1, C2, C3, D1, D2, D3.
  unfold sumFrom. rewrite !ofType_skip_other by (apply Hne; reflexivity).
  repeat split; try reflexivity.
  unfold len. rewrite !length_app. simpl. lia.
Qed.

Lemma unrecognized_type_only_counts_in_total_witness :
  TotalTransactions (calculateSummary ([T1] ++ TX :: [T2])%list)
    = TotalTransactions (calculateSummary ([T1] ++ [T2])%list) + 1
  /\ TotalPayments (calculateSummary ([T1] ++ TX :: [T2])%list)
     = TotalPayments (calculateSummary ([T1] ++ [T2])%list)
  /\ TotalTransfers (calculateSummary ([T1] ++ TX :: [T2])%list)
     = TotalTransfers (calculateSummary ([T1] ++ [T2])%list)
  /\ TotalFees (calculateSummary ([T1] ++ TX :: [T2])%list)
     = TotalFees (calculateSummary ([T1] ++ [T2])%list)
  /\ PaymentsSum (calculateSummary ([T1] ++ TX :: [T2])%list)
     = PaymentsSum (calculateSummary ([T1] ++ [T2])%list)
  /\ TransfersSum (calculateSummary ([T1] ++ TX :: [T2])%list)
     = TransfersSum (calculateSummary ([T1] ++ [T2])%list)
  /\ FeesSum (calculateSummary ([T1] ++ TX :: [T2])%list)
     = FeesSum (calculateSummary ([T1] ++ [T2])%list)
  /\ NetLiquidity (calculateSummary ([T1] ++ TX :: [T2])%list)
     = NetLiquidity (calculateSummary ([T1] ++ [T2])%list).
Proof.
  apply (unrecognized_type_only_counts_in_total [T1] [T2] TX). reflexivity.
Defined.

(** X3: the total and the three counts of a list and of a rearrangement
    of it are the same. *)
Theorem counts_do_not_depend_on_order (l l' : list Transaction) :
  Permutation l l' ->
  TotalTransactions (calculateSummary l) = TotalTransactions (calculateSummary l')
  /\ TotalPayments (calculateSummary l) = TotalPayments (calculateSummary l')
  /\ TotalTransfers (calculateSummary l) = TotalTransfers (calculateSummary l')
  /\ TotalFees (calculateSummary l) = TotalFees (calculateSummary l').
Proof.
  intros HP.
  assert (Hlen : forall ty, len (ofType ty l) = len (ofType ty l')).
  { intros ty. unfold len, ofType. f_equal. apply Permutation_length.
    apply filter_Permutation. exact HP. }
  destruct (counts_wrapped l) as (A0 & A1 & A2 & A3).
  destruct (counts_wrapped l') as (B0 & B1 & B2 & B3).
  rewrite A0, A1, A2, A3, B0, B1, B2, B3, !Hlen.
  repeat split. unfold len. f_equal. apply Permutation_length. exact HP.
Qed.

Lemma counts_do_not_depend_on_order_witness :
  TotalTransactions (calculateSummary [T1; T2]) = TotalTransactions (calculateSummary [T2; T1])
  /\ TotalPayments (calculateSummary [T1; T2]) = TotalPayments (calculateSummary [T2; T1])
  /\ TotalTransfers (calculateSummary [T1; T2]) = TotalTransfers (calculateSummary [T2; T1])
  /\ TotalFees (calculateSummary [T1; T2]) = TotalFees (calculateSummary [T2; T1]).
Proof.
  apply (counts_do_not_depend_on_order [T1; T2] [T2; T1]). apply perm_swap.
Defined.

Lemma scanAmount_log txn :
  snd (scanAmount txn) = if scanFailed txn then [warning txn] else [].
Proof.
  unfold scanAmount, scanFailed.
  destruct (fmt.Sscanf_f (Amount txn) f64_zero) as [[n err] f].
  destruct (isErr err || negb (n =? 1)); reflexivity.
Qed.

(** X4: the lines [calculateSummary] logs are the warnings of the
    transactions whose amount fails to scan, in the order of the list,
    one each, of any type; a scan fails as the loop tests it exactly when
    it gives an error or not one operand, and then the amount is zero. *)
Theorem one_warning_per_failed_amount (l : list Transaction) :
  snd (calculateSummaryLog l) = map warning (filter (fun t => scanFailed t = true) l)
  /\ (forall t, scanFailed t = true <-> scanFails (Amount t))
  /\ (forall t, scanFailed t = true -> amountOf t = f64_zero).
Proof.
  split; [|split].
  - unfold calculateSummaryLog. cbn [snd]. rewrite fold_loopBody_snd. cbn [snd app].
    induction l as [|t l IH]; [reflexivity|].
    cbn [flat_map]. rewrite filter_cons, scanAmount_log, IH.
    destruct (scanFailed t); case_decide; try congruence; reflexivity.
  - intros t. unfold scanFailed, scanFails.
    destruct (fmt.Sscanf_f (Amount t) f64_zero) as [[n err] f].
    rewrite orb_true_iff, negb_true_iff, Z.eqb_neq. reflexivity.
  - intros t H. apply amountOf_fails. unfold scanFailed, scanFails in *.
    destruct (fmt.Sscanf_f (Amount t) f64_zero) as [[n err] f].
    apply orb_true_iff in H. rewrite negb_true_iff, Z.eqb_neq in H. exact H.
Qed.

Lemma sumFrom_app acc ty l1 l2 :
  sumFrom acc ty (l1 ++ l2)%list = sumFrom (sumFrom acc ty l1) ty l2.
Proof. unfold sumFrom. rewrite ofType_app, map_app, fold_left_app. reflexivity. Qed.

(** X5: for two lists of at most [MaxInt] transactions together, the
    total and the counts of the concatenation are the sums of those of
    the parts, and each sum goes on from the sum of the first part over
    the amounts of the second. *)
Theorem summary_of_two_batches (l1 l2 : list Transaction) :
  len (l1 ++ l2)%list <= MaxInt ->
  TotalTransactions (calculateSummary (l1 ++ l2)%list)
    = TotalTransactions (calculateSummary l1) + TotalTransactions (calculateSummary l2)
  /\ TotalPayments (calculateSummary (l1 ++ l2)%list)
     = TotalPayments (calculateSummary l1) + TotalPayments (calculateSummary l2)
  /\ TotalTransfers (calculateSummary (l1 ++ l2)%list)
     = TotalTransfers (calculateSummary l1) + TotalTransfers (calculateSummary l2)
  /\ TotalFees (calculateSummary (l1 ++ l2)%list)
     = TotalFees (calculateSummary l1) + TotalFees (calculateSummary l2)
  /\ PaymentsSum (calculateSummary (l1 ++ l2)%list)
     = sumFrom (PaymentsSum (calculateSummary l1)) PaymentTransaction l2
  /\ TransfersSum (calculateSummary (l1 ++ l2)%list)
     = sumFrom (TransfersSum (calculateSummary l1)) TransferTransaction l2
  /\ FeesSum (calculateSummary (l1 ++ l2)%list)
     = sumFrom (FeesSum (calculateSummary l1)) FeeTransaction l2.
Proof.
  intros Hlen.
  assert (H1 : len l1 <= MaxInt) by (unfold len in *; rewrite length_app in Hlen; lia).
  assert (H2 : len l2 <= MaxInt) by (unfold len in *; rewrite length_app in Hlen; lia).
  destruct (counts_exact _ Hlen) as (A0 & A1 & A2 & A3).
  destruct (counts_exact _ H1) as (B0 & B1 & B2 & B3).
  destruct (counts_exact _ H2) as (C0 & C1 & C2 & C3).
  destruct (sums_of_summary (l1 ++ l2)%list) as (D1 & D2 & D3).
  destruct (sums_of_summary l1) as (E1 & E2 & E3).
  rewrite A0, A1, A2, A3, B0, B1, B2, B3, C0, C1, C2, C3, D1, D2, D3, E1, E2, E3.
  rewrite !sumFrom_app, !ofType_app. unfold len. rewrite !length_app.
  repeat split; lia.
Qed.

Lemma summary_of_two_batches_witness :
  TotalTransactions (calculateSummary ([T1] ++ [T2; T3])%list)
    = TotalTransactions (calculateSummary [T1]) + TotalTransactions (calculateSummary [T2; T3])
  /\ TotalPayments (calculateSummary ([T1] ++ [T2; T3])%list)
     = TotalPayments (calculateSummary [T1]) + TotalPayments (calculateSummary [T2; T3])
  /\ TotalTransfers (calculateSummary ([T1] ++ [T2; T3])%list)
     = TotalTransfers (calculateSummary [T1]) + TotalTransfers (calculateSummary [T2; T3])
  /\ TotalFees (calculateSummary ([T1] ++ [T2; T3])%list)
     = TotalFees (calculateSummary [T1]) + TotalFees (calculateSummary [T2; T3])
  /\ PaymentsSum (calculateSummary ([T1] ++ [T2; T3])%list)
     = sumFrom (PaymentsSum (calculateSummary [T1])) PaymentTransaction [T2; T3]
  /\ TransfersSum (calculateSummary ([T1] ++ [T2; T3])%list)
     = sumFrom (TransfersSum (calculateSummary [T1])) TransferTransaction [T2; T3]
  /\ FeesSum (calculateSummary ([T1] ++ [T2; T3])%list)
     = sumFrom (FeesSum (calculateSummary [T1])) FeeTransaction [T2; T3].
Proof.
  apply (summary_of_two_batches [T1] [T2; T3]). vm_compute. discriminate.
Defined.

(** X6: none of the three sums nor the net liquidity is ever the
    negative zero, whatever the amounts (negative zeros among them). *)
Theorem sums_are_never_negative_zero (l : list Transaction) :
  PaymentsSum (calculateSummary l) <> S754_zero true
  /\ TransfersSum (calculateSummary l) <> S754_zero true
  /\ FeesSum (calculateSummary l) <> S754_zero true
  /\ NetLiquidity (calculateSummary l) <> S754_zero true.
Proof.
  destruct (sums_of_summary l) as (H1 & H2 & H3).
  pose proof (sumFrom_ok f64_zero PaymentTransaction l f64_zero_ok) as [P1 P2].
  pose proof (sumFrom_ok f64_zero TransferTransaction l f64_zero_ok) as [T1 T2].
  pose proof (sumFrom_ok f64_zero FeeTransaction l f64_zero_ok) as [F1 F2].
  rewrite NetLiquidity_of_summary, H1, H2, H3.
  repeat split; try assumption.
  apply f64_add_ok; [apply f64_add_ok; [split|]|]; assumption.
Qed.

Lemma f64_add_nan_l x : f64_add S754_nan x = S754_nan.
Proof. destruct x; reflexivity. Qed.

Lemma f64_add_nan_r x : f64_add x S754_nan = S754_nan.
Proof. destruct x as [[]|[]| |]; reflexivity. Qed.

Lemma fold_add_nan l : fold_left f64_add l S754_nan = S754_nan.
Proof.
  induction l as [|a l IH]; [reflexivity|].
  cbn [fold_left]. rewrite f64_add_nan_l. exact IH.
Qed.

Lemma fold_add_In_nan l : forall acc, In S754_nan l -> fold_left f64_add l acc = S754_nan.
Proof.
  induction l as [|a l IH]; intros acc H; [contradiction|]. cbn [fold_left].
  destruct H as [->|H]; [rewrite f64_add_nan_r; apply fold_add_nan | apply IH; exact H].
Qed.

Lemma sumFrom_nan acc ty l txn :
  In txn l -> Type_ txn = ty -> amountOf txn = S754_nan -> sumFrom acc ty l = S754_nan.
Proof.
  intros Hin Hty Hnan. unfold sumFrom. apply fold_add_In_nan.
  rewrite <- Hnan. apply in_map. unfold ofType.
  apply list_elem_of_In, list_elem_of_filter. split; [exact Hty|]. apply list_elem_of_In. exact Hin.
Qed.

(** X7: when the amount of a transaction of a recognised type scans as
    a NaN, the sum of that type and the net liquidity are NaN, whatever
    else is in the list. *)
Theorem nan_amount_poisons_the_sums (l : list Transaction) (txn : Transaction) :
  In txn l -> amountOf txn = S754_nan -> recognized (Type_ txn) = true ->
  sumOfType (Type_ txn) (calculateSummary l) = Some S754_nan
  /\ NetLiquidity (calculateSummary l) = S754_nan.
Proof.
  intros Hin Hnan Hrec.
  destruct (sums_of_summary l) as (H1 & H2 & H3).
  rewrite NetLiquidity_of_summary.
  destruct (Type_ txn) eqn:Hty; try discriminate; cbn [sumOfType].
  - rewrite H1, (sumFrom_nan _ _ _ _ Hin Hty Hnan), ?f64_add_nan_r, ?f64_add_nan_l. auto.
  - rewrite H2, (sumFrom_nan _ _ _ _ Hin Hty Hnan), ?f64_add_nan_r, ?f64_add_nan_l. auto.
  - rewrite H3, (sumFrom_nan _ _ _ _ Hin Hty Hnan), ?f64_add_nan_r, ?f64_add_nan_l. auto.
Qed.

Lemma nan_amount_poisons_the_sums_witness :
  sumOfType (Type_ TNaN) (calculateSummary [T1; TNaN; T2]) = Some S754_nan
  /\ NetLiquidity (calculateSummary [T1; TNaN; T2]) = S754_nan.
Proof.
  apply (nan_amount_poisons_the_sums [T1; TNaN; T2] TNaN).
  - simpl. auto.
  - vm_compute. reflexivity.
  - reflexivity.
Defined.

(** ** The shape of a directory setting *)

Lemma normalForm_rootedPath es : normalForm es = rootedPath (rev es).
Proof.
  unfold normalForm, rootedPath. destruct es as [|e es]; [reflexivity|].
  change (buf (e :: es)) with (flat (e :: es)). rewrite rev_flat.
  destruct (rev (e :: es)) eqn:E; [|reflexivity].
  apply (f_equal (@rev _)) in E. rewrite rev_involutive in E. discriminate.
Qed.

Lemma Abs_rooted p path r :
  (forall wd, os.Getwd p = Some wd -> IsAbs wd = true) ->
  Abs p path = Some r -> exists els, Forall real els /\ r = rootedPath els.
Proof.
  intros Hwd. unfold Abs.
  assert (Hc : forall x, IsAbs x = true -> exists els, Forall real els /\ Clean x = rootedPath els).
  { intros x Hx. destruct (Clean_rooted x Hx) as (es & Hes & ->).
    exists (rev es). split; [apply Forall_rev; assumption | apply normalForm_rootedPath]. }
  destruct (IsAbs path) eqn:Hp.
  - intros H; inversion H; subst. apply Hc. assumption.
  - destruct (os.Getwd p) as [wd|] eqn:Ewd; [|discriminate].
    intros H; inversion H; subst. specialize (Hwd wd eq_refl).
    unfold Join. destruct wd as [|c wd]; [discriminate|]. apply Hc. exact Hwd.
Qed.

Lemma Abs_of_absolute p path : IsAbs path = true -> Abs p path = Some (Clean path).
Proof. intros H. unfold Abs. rewrite H. reflexivity. Qed.

(** X8: when the working directory is known (and absolute) or the
    setting is absolute, [getEnvOrDefault] returns a rooted path of real
    elements: the root alone, or a separator before each element, no
    element empty, [.] or [..], and no separator at the end. *)
Theorem getEnvOrDefault_path_shape (p : os.Process) (name defaultValue : string) :
  (forall wd, os.Getwd p = Some wd -> IsAbs wd = true) ->
  os.Getwd p <> None \/ IsAbs (chosen p name defaultValue) = true ->
  exists els, Forall real els /\ getEnvOrDefault p name defaultValue = rootedPath els.
Proof.
  intros Hwd Hok.
  assert (Habs : exists r, Abs p (Clean (chosen p name defaultValue)) = Some r).
  { destruct Hok as [Hg|Ha].
    - unfold Abs. destruct (IsAbs _); [eauto|]. destruct (os.Getwd p); [eauto|contradiction].
    - rewrite Abs_of_absolute by (apply Clean_absolute; assumption). eauto. }
  destruct Habs as (r & Hr). pose proof (Abs_rooted p _ r Hwd Hr) as Hshape.
  unfold getEnvOrDefault, chosen in *.
  destruct (os.Getenv p name) as [|c v]; rewrite Hr; exact Hshape.
Qed.

Lemma getEnvOrDefault_path_shape_witness :
  exists els, Forall real els /\ getEnvOrDefault relativeEnvProcess "VAULT_DIR" "vault" = rootedPath els.
Proof.
  apply (getEnvOrDefault_path_shape relativeEnvProcess "VAULT_DIR" "vault").
  - intros wd H. inversion H. reflexivity.
  - left. discriminate.
Defined.

Lemma Abs_fixed p r : IsAbs r = true -> Clean r = r -> Abs p (Clean r) = Some r /\ Abs p r = Some r.
Proof.
  intros Ha Hc. rewrite Hc, Abs_of_absolute by assumption. rewrite Hc. auto.
Qed.

(** X9: with an absolute working directory, giving the result of
    [getEnvOrDefault] back as the default changes nothing, in both
    variants. *)
Theorem getEnvOrDefault_idempotent (p : os.Process) (name defaultValue : string) :
  (forall wd, os.Getwd p = Some wd -> IsAbs wd = true) ->
  getEnvOrDefault p name (getEnvOrDefault p name defaultValue)
    = getEnvOrDefault p name defaultValue
  /\ part_000.getEnvOrDefault p name (part_000.getEnvOrDefault p name defaultValue)
     = part_000.getEnvOrDefault p name defaultValue.
Proof.
  intros Hwd. split.
  - unfold getEnvOrDefault. destruct (os.Getenv p name) as [|c v]; [|reflexivity].
    destruct (Abs p (Clean defaultValue)) as [r|] eqn:E.
    + destruct (Abs_absolute p _ r Hwd E) as (Ha & Hc).
      destruct (Abs_fixed p r Ha Hc) as (-> & _). reflexivity.
    + rewrite E. reflexivity.
  - unfold part_000.getEnvOrDefault. destruct (os.Getenv p name) as [|c v]; [|reflexivity].
    destruct (Abs p defaultValue) as [r|] eqn:E.
    + destruct (Abs_absolute p _ r Hwd E) as (Ha & Hc).
      destruct (Abs_fixed p r Ha Hc) as (_ & ->). reflexivity.
    + rewrite E. reflexivity.
Qed.

Lemma getEnvOrDefault_idempotent_witness :
  getEnvOrDefault deniedProcess "LEDGER_DIR" (getEnvOrDefault deniedProcess "LEDGER_DIR" "ledger")
    = getEnvOrDefault deniedProcess "LEDGER_DIR" "ledger"
  /\ part_000.getEnvOrDefault deniedProcess "LEDGER_DIR"
       (part_000.getEnvOrDefault deniedProcess "LEDGER_DIR" "ledger")
     = part_000.getEnvOrDefault deniedProcess "LEDGER_DIR" "ledger".
Proof.
  apply (getEnvOrDefault_idempotent deniedProcess "LEDGER_DIR" "ledger").
  intros wd H. inversion H. reflexivity.
Defined.

(** X10: an absolute setting (the variable, or the default when the
    variable is empty) is returned cleaned, whatever the working directory
    is and also when it cannot be determined. *)
Theorem absolute_setting_ignores_working_directory (p : os.Process) (name defaultValue : string) :
  IsAbs (chosen p name defaultValue) = true ->
  getEnvOrDefault p name defaultValue = Clean (chosen p name defaultValue).
Proof.
  intros Ha. destruct (Clean_absolute _ Ha) as (Hca & Hcc).
  unfold getEnvOrDefault, chosen in *.
  destruct (os.Getenv p name) as [|c v]; rewrite (Abs_of_absolute p _ Hca), Hcc; reflexivity.
Qed.

Lemma absolute_setting_ignores_working_directory_witness :
  getEnvOrDefault lostProcess "VAULT_DIR" "/var//data/../vault/"
    = Clean (chosen lostProcess "VAULT_DIR" "/var//data/../vault/").
Proof.
  apply (absolute_setting_ignores_working_directory lostProcess "VAULT_DIR" "/var//data/../vault/").
  reflexivity.
Defined.

(** ** Cleaning a path that is not rooted *)

Lemma cleanRooted_fuel fuel path out :
  (length path <= fuel)%nat -> cleanLoop fuel true path out 1 = cleanRooted path out.
Proof. intros H. apply cleanLoop_fuel; [assumption|lia]. Qed.

Lemma endOrSep_app_sep a b : endOrSep (a ++ "/"%char :: b)%list = endOrSep a.
Proof. destruct a; reflexivity. Qed.

Lemma copyElement_app_sep a : forall b out,
  copyElement (a ++ "/"%char :: b)%list out
    = ((fst (copyElement a out) ++ "/"%char :: b)%list, snd (copyElement a out)).
Proof.
  induction a as [|c a IH]; intros b out; [reflexivity|].
  simpl. destruct (isSep c); [reflexivity|]. apply IH.
Qed.

(** Reading [a], a separator and [b] is reading [a], then [b]. *)
Lemma cleanLoop_app_sep fuel : forall a b out,
  (length (a ++ "/"%char :: b)%list <= fuel)%nat ->
  cleanLoop fuel true (a ++ "/"%char :: b)%list out 1
    = cleanLoop fuel true b (cleanLoop fuel true a out 1) 1.
Proof.
  induction fuel as [|fuel IH]; intros a b out Hlen.
  { destruct a; simpl in Hlen; lia. }
  rewrite length_app in Hlen. simpl in Hlen.
  assert (Hb : forall o, cleanLoop fuel true b o 1 = cleanLoop (S fuel) true b o 1).
  { intros o. apply cleanLoop_fuel; lia. }
  destruct a as [|c a].
  - simpl app. rewrite cleanLoop_step. simpl (isSep "/"). cbv iota.
    rewrite cleanLoop_nil. apply Hb.
  - simpl app. simpl in Hlen. rewrite !cleanLoop_step.
    rewrite endOrSep_app_sep.
    assert (Hdd : match (a ++ "/"%char :: b)%list with
                  | c1 :: rest1 => Ascii.eqb c1 "." && endOrSep rest1
                  | [] => false
                  end
                  = match a with
                    | c1 :: rest1 => Ascii.eqb c1 "." && endOrSep rest1
                    | [] => false
                    end \/ a = []).
    { destruct a as [|c1 a]; [right; reflexivity|left]. simpl. rewrite endOrSep_app_sep. reflexivity. }
    destruct (isSep c) eqn:Ec.
    { rewrite IH by (rewrite length_app; simpl; lia). apply Hb. }
    destruct (Ascii.eqb c "." && endOrSep a) eqn:Edot.
    { rewrite IH by (rewrite length_app; simpl; lia). apply Hb. }
    destruct Hdd as [Hdd | ->].
    + rewrite Hdd.
      destruct (Ascii.eqb c "." && match a with
                                   | c1 :: rest1 => Ascii.eqb c1 "." && endOrSep rest1
                                   | [] => false
                                   end) eqn:Edd.
      * assert (Htl : tl (a ++ "/"%char :: b)%list = (tl a ++ "/"%char :: b)%list).
        { destruct a; [|reflexivity]. rewrite andb_false_r in Edd. discriminate. }
        assert (Hl : (length (tl a ++ "/"%char :: b)%list <= fuel)%nat).
        { rewrite length_app. simpl. destruct a; simpl in *; lia. }
        rewrite Htl. simpl negb. cbv iota.
        destruct (1 <? length out)%nat; rewrite IH by exact Hl; apply Hb.
      * change (c :: (a ++ "/"%char :: b)%list) with ((c :: a) ++ "/"%char :: b)%list.
        rewrite copyElement_app_sep. cbn [fst snd].
        rewrite IH; [apply Hb|].
        rewrite length_app. cbn [copyElement]. rewrite Ec. cbn [length].
        match goal with |- context [copyElement a ?o] =>
          pose proof (copyElement_length a o) end. lia.
    + simpl in Edot. rewrite andb_true_r in Edot. simpl app.
      rewrite Edot. simpl andb.
      change (c :: "/"%char :: b) with ((c :: []) ++ "/"%char :: b)%list.
      rewrite copyElement_app_sep. simpl copyElement. rewrite Ec. cbn [fst snd].
      simpl app. destruct fuel as [|fuel]; [simpl in Hlen; lia|].
      rewrite (cleanLoop_step fuel true "/"). simpl (isSep "/"). cbv iota.
      rewrite cleanLoop_nil.
      rewrite <- (Hb _). apply cleanLoop_fuel; lia.
Qed.

Lemma cleanRooted_app_sep a b out :
  cleanRooted (a ++ "/"%char :: b)%list out = cleanRooted b (cleanRooted a out).
Proof.
  unfold cleanRooted at 1. rewrite cleanLoop_app_sep by lia.
  rewrite (cleanRooted_fuel _ a) by (rewrite length_app; lia).
  apply cleanRooted_fuel. rewrite length_app. simpl. lia.
Qed.

Lemma real_elem e : real e -> elem e.
Proof. intros (H1 & H2 & _). split; assumption. Qed.

Lemma dotdot_elem : elem dotdotElem.
Proof. split; [discriminate|]. repeat constructor. Qed.

Lemma relBuf_cons e rest :
  relBuf (e :: rest)
    = (rev e ++ match rest with [] => [] | _ => "/"%char :: relBuf rest end)%list.
Proof. reflexivity. Qed.

Lemma relBuf_nil items : Forall elem items -> relBuf items = [] -> items = [].
Proof.
  destruct items as [|e rest]; [reflexivity|]. intros H. inversion H as [|? ? (Hne & _) _]; subst.
  rewrite relBuf_cons. intros E. apply app_eq_nil in E as (E & _).
  exfalso. apply Hne. rewrite <- (rev_involutive e), E. reflexivity.
Qed.

Lemma length_relBuf_app a : forall b,
  (length (relBuf b) <= length (relBuf (a ++ b)%list))%nat.
Proof.
  induction a as [|e a IH]; intros b; [simpl; lia|].
  change ((e :: a) ++ b)%list with (e :: (a ++ b)%list). rewrite relBuf_cons, length_app.
  specialize (IH b). destruct (a ++ b)%list eqn:E.
  - simpl in IH. simpl. lia.
  - simpl length. simpl length in IH. lia.
Qed.

Lemma length_relBuf_cons e a b :
  elem e -> (length (relBuf b) < length (relBuf (e :: a ++ b)%list))%nat.
Proof.
  intros (Hne & _). rewrite relBuf_cons, length_app.
  pose proof (length_relBuf_app a b) as H.
  assert (0 < length (rev e))%nat.
  { rewrite length_rev. destruct e; [contradiction|simpl; lia]. }
  destruct (a ++ b)%list eqn:E.
  - simpl in H. simpl. lia.
  - remember (relBuf (l :: l0)) as R. simpl length. lia.
Qed.

Lemma unwind_relative n X re : forall c0,
  Forall notSep re -> notSep c0 -> (n <= length (relBuf X))%nat ->
  unwind n (re ++ match X with [] => [] | _ => "/"%char :: relBuf X end)%list c0 = relBuf X.
Proof.
  induction re as [|c1 re IH]; intros c0 Hre Hc0 Hn.
  - simpl app. destruct X as [|x X]; [reflexivity|].
    remember (relBuf (x :: X)) as R eqn:ER. simpl.
    replace (n <? S (length R))%nat with true by (symmetry; apply Nat.ltb_lt; lia).
    rewrite Hc0. simpl. destruct R as [|r R]; [reflexivity|].
    simpl. rewrite andb_false_r. reflexivity.
  - inversion Hre as [|? ? Hc1 Hre']; subst. simpl app. cbn [unwind].
    replace (n <? length (c1 :: (re ++ match X with [] => [] | _ => "/"%char :: relBuf X end)%list))%nat
      with true.
    + rewrite Hc0. simpl. apply IH; assumption.
    + symmetry. apply Nat.ltb_lt. simpl. rewrite length_app.
      destruct X; simpl in *; lia.
Qed.

Lemma backtrack_relBuf n e X :
  elem e -> (n <= length (relBuf X))%nat -> backtrack n (relBuf (e :: X)) = relBuf X.
Proof.
  intros (Hne & Hsep) Hn. rewrite relBuf_cons.
  assert (Hr : Forall notSep (rev e)) by (apply Forall_rev; assumption).
  destruct (rev e) as [|c0 re] eqn:E.
  { exfalso. apply Hne. rewrite <- (rev_involutive e), E. reflexivity. }
  inversion Hr; subst. simpl. apply unwind_relative; assumption.
Qed.

Lemma Forall_elem_items els k : Forall real els -> Forall elem (els ++ repeat dotdotElem k)%list.
Proof.
  intros H. apply Forall_app. split.
  - eapply Forall_impl; [exact H|]. apply real_elem.
  - apply Forall_forall. intros x Hx. apply list_elem_of_In in Hx.
    apply repeat_spec in Hx. subst. apply dotdot_elem.
Qed.

Lemma skipn_S_cons {A} k : forall (es : list A) e rest,
  skipn k es = e :: rest -> skipn (S k) es = rest.
Proof.
  induction k as [|k IH]; intros es e rest H.
  - change (skipn 0 es) with es in H. subst. reflexivity.
  - destruct es as [|x es]; [discriminate|].
    change (skipn (S k) (x :: es)) with (skipn k es) in H.
    change (skipn (S (S k)) (x :: es)) with (skipn (S k) es). apply (IH _ _ _ H).
Qed.

Lemma skipn_S_nil {A} k : forall (es : list A), skipn k es = [] -> skipn (S k) es = [].
Proof.
  induction k as [|k IH]; intros es H.
  - change (skipn 0 es) with es in H. subst. reflexivity.
  - destruct es as [|x es]; [reflexivity|].
    change (skipn (S k) (x :: es)) with (skipn k es) in H.
    change (skipn (S (S k)) (x :: es)) with (skipn (S k) es). apply IH. exact H.
Qed.

Lemma Forall_skipn {A} (P : A -> Prop) k : forall l, Forall P l -> Forall P (skipn k l).
Proof.
  induction k as [|k IH]; intros l H; [exact H|].
  destruct l as [|x l]; [constructor|]. inversion H; subst.
  change (skipn (S k) (x :: l)) with (skipn k l). apply IH. assumption.
Qed.

(** The loop on a path that is not rooted, beside the rooted loop on the
    same path: where the first keeps [k] elements [..] and then [els], the
    second has dropped [k] elements of its own and added [els]. *)
Lemma cleanLoop_relative fuel : forall path k els,
  Forall real els ->
  exists k' els',
    Forall real els'
    /\ cleanLoop fuel false path (relBuf (els ++ repeat dotdotElem k)%list)
         (length (relBuf (repeat dotdotElem k)))
       = relBuf (els' ++ repeat dotdotElem k')%list
    /\ forall es, Forall real es ->
         cleanLoop fuel true path (buf (els ++ skipn k es)%list) 1
         = buf (els' ++ skipn k' es)%list.
Proof.
  induction fuel as [|fuel IH]; intros path k els Hels; [exists k, els; simpl; auto|].
  destruct path as [|c rest]; [exists k, els; simpl; auto|].
  assert (Hstack : forall es, Forall real es -> Forall real (els ++ skipn k es)%list).
  { intros es Hes. apply Forall_app. split; [assumption|apply Forall_skipn; assumption]. }
  destruct (isSep c) eqn:Ec.
  { destruct (IH rest k els Hels) as (k' & els' & H1 & H2 & H3).
    exists k', els'. split; [assumption|]. split.
    - rewrite cleanLoop_step, Ec. exact H2.
    - intros es Hes. rewrite cleanLoop_step, Ec. apply H3. assumption. }
  destruct (Ascii.eqb c "." && endOrSep rest) eqn:Edot.
  { destruct (IH rest k els Hels) as (k' & els' & H1 & H2 & H3).
    exists k', els'. split; [assumption|]. split.
    - rewrite cleanLoop_step, Ec, Edot. exact H2.
    - intros es Hes. rewrite cleanLoop_step, Ec, Edot. apply H3. assumption. }
  destruct (Ascii.eqb c "." && match rest with
                               | c1 :: rest1 => Ascii.eqb c1 "." && endOrSep rest1
                               | [] => false
                               end) eqn:Edd.
  - destruct els as [|e els].
    + destruct (IH (tl rest) (S k) [] Hels) as (k' & els' & H1 & H2 & H3).
      exists k', els'. split; [assumption|]. split.
      * rewrite cleanLoop_step, Ec, Edot, Edd. simpl app.
        rewrite Nat.ltb_irrefl. simpl negb. cbv iota.
        simpl app in H2.
        replace ("."%char :: "."%char ::
                 (if (0 <? length (relBuf (repeat dotdotElem k)))%nat
                  then "/"%char :: relBuf (repeat dotdotElem k)
                  else relBuf (repeat dotdotElem k)))
          with (relBuf (repeat dotdotElem (S k))); [exact H2|].
        simpl repeat. rewrite relBuf_cons. simpl rev. simpl app.
        destruct k; reflexivity.
      * intros es Hes. rewrite cleanLoop_step, Ec, Edot, Edd. simpl app.
        specialize (H3 es Hes). simpl app in H3.
        assert (Hk : Forall real (skipn k es)) by (apply Forall_skipn; assumption).
        rewrite (length_buf_lt _ Hk). simpl negb. cbv iota.
        destruct (skipn k es) as [|e0 rest0] eqn:Esk.
        -- rewrite (skipn_S_nil _ _ Esk) in H3. exact H3.
        -- inversion Hk; subst. rewrite backtrack_buf by assumption.
           rewrite (skipn_S_cons _ _ _ _ Esk) in H3. exact H3.
    + inversion Hels as [|? ? He Hels']; subst.
      destruct (IH (tl rest) k els Hels') as (k' & els' & H1 & H2 & H3).
      exists k', els'. split; [assumption|]. split.
      * rewrite cleanLoop_step, Ec, Edot, Edd.
        change ((e :: els) ++ repeat dotdotElem k)%list with (e :: els ++ repeat dotdotElem k)%list.
        pose proof (length_relBuf_cons e els (repeat dotdotElem k) (real_elem e He)) as Hlt.
        apply Nat.ltb_lt in Hlt. rewrite Hlt.
        rewrite backtrack_relBuf; [exact H2 | apply real_elem; assumption | apply length_relBuf_app].
      * intros es Hes. rewrite cleanLoop_step, Ec, Edot, Edd.
        rewrite (length_buf_lt _ (Hstack es Hes)).
        change ((e :: els) ++ skipn k es)%list with (e :: els ++ skipn k es)%list.
        cbv iota. rewrite backtrack_buf by assumption. apply H3. assumption.
  - destruct (copyElement_spec (c :: rest) []) as (el & rest' & Hpath & Hsep & Hend & _).
    assert (Hel : real el).
    { destruct el as [|c' el].
      { simpl in Hpath. subst rest'. simpl in Hend. congruence. }
      simpl in Hpath. inversion Hpath; subst c' rest.
      repeat split.
      + discriminate.
      + assumption.
      + intros Hr. inversion Hr; subst. simpl in Edot. rewrite Hend in Edot. discriminate.
      + intros Hr. inversion Hr; subst. simpl in Edd. rewrite Hend in Edd. discriminate. }
    assert (Hcopy : forall out, copyElement (c :: rest) out = (rest', (rev el ++ out)%list)).
    { intros out. rewrite Hpath. apply copyElement_app; assumption. }
    destruct (IH rest' k (el :: els)) as (k' & els' & H1 & H2 & H3); [constructor; assumption|].
    exists k', els'. split; [assumption|]. split.
    + rewrite cleanLoop_step, Ec, Edot, Edd, Hcopy. cbn [fst snd].
      replace (rev el ++ _)%list with (relBuf ((el :: els) ++ repeat dotdotElem k)%list); [exact H2|].
      change ((el :: els) ++ repeat dotdotElem k)%list with (el :: els ++ repeat dotdotElem k)%list.
      rewrite relBuf_cons. f_equal. simpl andb.
      pose proof (relBuf_nil _ (Forall_elem_items els k Hels)) as Hnil.
      destruct (els ++ repeat dotdotElem k)%list eqn:E.
      * reflexivity.
      * rewrite <- E. destruct (relBuf (els ++ repeat dotdotElem k)%list) eqn:ER; [|reflexivity].
        rewrite E in ER. specialize (Hnil ER). discriminate.
    + intros es Hes. rewrite cleanLoop_step, Ec, Edot, Edd, Hcopy. cbn [fst snd].
      rewrite push_buf by (apply Hstack; assumption). apply H3. assumption.
Qed.

Lemma tailChars_app a b : tailChars (a ++ b)%list = (tailChars a ++ tailChars b)%list.
Proof. apply flat_map_app. Qed.

Lemma rev_relBuf items :
  items <> [] -> "/"%char :: rev (relBuf items) = tailChars (rev items).
Proof.
  induction items as [|e rest IH]; [contradiction|]. intros _.
  rewrite relBuf_cons. destruct rest as [|e' rest].
  - rewrite app_nil_r, rev_involutive. simpl. rewrite app_nil_r. reflexivity.
  - remember (e' :: rest) as X eqn:EX.
    rewrite rev_app_distr. cbn [rev]. rewrite rev_involutive, tailChars_app.
    rewrite <- IH by (subst X; discriminate).
    simpl. rewrite app_nil_r, <- app_assoc. reflexivity.
Qed.

Lemma rev_repeat_same {A} (x : A) k : rev (repeat x k) = repeat x k.
Proof.
  induction k as [|k IH]; [reflexivity|].
  simpl. rewrite IH. symmetry. apply repeat_cons.
Qed.

Lemma cleanRooted_sep x out : cleanRooted ("/"%char :: x) out = cleanRooted x out.
Proof. apply (cleanRooted_app_sep [] x out). Qed.

Lemma cleanRooted_buf path es :
  Forall real es -> exists es', Forall real es' /\ cleanRooted path (buf es) = buf es'.
Proof. apply cleanLoop_rooted. Qed.

Lemma cleanRooted_dotdot rest es :
  endOrSep rest = true -> Forall real es ->
  cleanRooted ("/"%char :: "."%char :: "."%char :: rest) (buf es) = cleanRooted rest (buf (skipn 1 es)).
Proof.
  intros Hend Hes. rewrite cleanRooted_sep. unfold cleanRooted at 1. cbn [length].
  rewrite cleanLoop_step. simpl (isSep "."). cbv iota.
  simpl (Ascii.eqb "." "."). cbn [andb endOrSep]. simpl (isSep "."). cbv iota.
  rewrite Hend. cbv iota. cbn [tl]. rewrite (length_buf_lt es Hes).
  destruct es as [|e es]; simpl negb; cbv iota.
  - apply cleanRooted_fuel. lia.
  - inversion Hes; subst. rewrite backtrack_buf by assumption. apply cleanRooted_fuel. lia.
Qed.

Lemma cleanRooted_dotdots k : forall rest es,
  endOrSep rest = true -> Forall real es ->
  cleanRooted (tailChars (repeat dotdotElem k) ++ rest)%list (buf es)
    = cleanRooted rest (buf (skipn k es)).
Proof.
  induction k as [|k IH]; intros rest es Hend Hes; [reflexivity|].
  change (tailChars (repeat dotdotElem (S k)) ++ rest)%list
    with ("/"%char :: "."%char :: "."%char :: (tailChars (repeat dotdotElem k) ++ rest)%list).
  rewrite cleanRooted_dotdot; [| |assumption].
  - rewrite IH; [|assumption|apply Forall_skipn; assumption].
    rewrite skipn_skipn. replace (k + 1)%nat with (S k) by lia. reflexivity.
  - destruct k; [exact Hend|reflexivity].
Qed.

Lemma cleanRooted_normal els es :
  Forall real els -> Forall real es ->
  cleanRooted (tailChars els) (buf es) = buf (rev els ++ es)%list.
Proof. intros H1 H2. apply cleanLoop_normal; auto. Qed.

Lemma list_ascii_of_string_app a b :
  list_ascii_of_string (a ++ b) = (list_ascii_of_string a ++ list_ascii_of_string b)%list.
Proof.
  induction a as [|c a IH]; [reflexivity|].
  change (String c a ++ b) with (String c (a ++ b)). simpl. rewrite IH. reflexivity.
Qed.

Lemma length_list_ascii s : length (list_ascii_of_string s) = String.length s.
Proof. induction s; simpl; congruence. Qed.

(** [Join] on an absolute first element runs the rooted loop over the
    second element, from where the first has left the buffer. *)
Lemma Join_rooted wd :
  IsAbs wd = true ->
  exists es0, Forall real es0 /\
    forall x, Join wd x = string_of_list_ascii (rev (cleanRooted (list_ascii_of_string x) (buf es0))).
Proof.
  destruct wd as [|c wd]; [discriminate|]. simpl. intros Hc.
  destruct (cleanRooted_buf (list_ascii_of_string wd) []) as (es0 & Hes0 & Hwd); [constructor|].
  exists es0. split; [assumption|]. intros x.
  unfold Join, Clean.
  change (String c wd ++ "/" ++ x) with (String c (wd ++ String "/" x)).
  cbn [list_ascii_of_string]. rewrite Hc, list_ascii_of_string_app. cbn [list_ascii_of_string].
  rewrite cleanRooted_fuel.
  - rewrite cleanRooted_app_sep. change ["/"%char] with (buf []). rewrite Hwd.
    destruct (cleanRooted_buf (list_ascii_of_string x) es0 Hes0) as (es' & _ & ->).
    pose proof (buf_not_nil es'). destruct (buf es'); [contradiction|reflexivity].
  - cbn [String.length]. rewrite <- length_list_ascii, list_ascii_of_string_app.
    cbn [list_ascii_of_string]. lia.
Qed.

(** What [Clean] makes of a path that is not rooted, and what the rooted
    loop does on the path and on its cleaned form. *)
Lemma Clean_relative d :
  IsAbs d = false ->
  IsAbs (Clean d) = false
  /\ forall es, Forall real es ->
       cleanRooted (list_ascii_of_string (Clean d)) (buf es)
       = cleanRooted (list_ascii_of_string d) (buf es).
Proof.
  intros Hrel.
  destruct (cleanLoop_relative (String.length d) (list_ascii_of_string d) 0 [])
    as (k & els & Hels & Hloop & Hrooted); [constructor|].
  cbn [app repeat relBuf length] in Hloop.
  assert (Hrun : forall es, Forall real es ->
            cleanRooted (list_ascii_of_string d) (buf es) = buf (els ++ skipn k es)%list).
  { intros es Hes. rewrite <- (Hrooted es Hes). symmetry.
    apply cleanRooted_fuel. rewrite length_list_ascii. lia. }
  assert (Hdot : forall es, cleanRooted ["."%char] (buf es) = buf es) by reflexivity.
  assert (Hitems : Forall elem (els ++ repeat dotdotElem k)%list) by (apply Forall_elem_items; assumption).
  assert (Hempty : (els ++ repeat dotdotElem k)%list = [] ->
            forall es, buf es = buf (els ++ skipn k es)%list).
  { intros E es. apply app_eq_nil in E as (-> & E). destruct k; [reflexivity|discriminate]. }
  assert (Hclean : Clean d = match relBuf (els ++ repeat dotdotElem k)%list with
                             | [] => "."
                             | out => string_of_list_ascii (rev out)
                             end).
  { unfold Clean. destruct (list_ascii_of_string d) as [|c rest] eqn:Ed.
    - rewrite cleanLoop_nil in Hloop. rewrite <- Hloop. reflexivity.
    - assert (Hc : isSep c = false).
      { destruct d as [|c' d]; [discriminate|]. simpl in Ed. inversion Ed; subst. exact Hrel. }
      rewrite Hc, Hloop. destruct (relBuf (els ++ repeat dotdotElem k)%list); reflexivity. }
  rewrite Hclean.
  destruct (relBuf (els ++ repeat dotdotElem k)%list) as [|b out] eqn:ER.
  - split; [reflexivity|]. intros es Hes. rewrite Hrun by assumption.
    change (list_ascii_of_string ".") with ["."%char]. rewrite Hdot.
    apply Hempty. apply relBuf_nil; assumption.
  - assert (Hne : (els ++ repeat dotdotElem k)%list <> []).
    { intros E. rewrite E in ER. discriminate. }
    pose proof (rev_relBuf _ Hne) as Hrev. rewrite ER in Hrev.
    rewrite rev_app_distr, rev_repeat_same, tailChars_app in Hrev.
    rewrite list_ascii_of_string_of_list_ascii. split.
    + assert (Hfirst : exists c t, rev (b :: out) = c :: t /\ isSep c = false).
      { apply Forall_rev in Hitems. rewrite rev_app_distr, rev_repeat_same in Hitems.
        rewrite <- tailChars_app in Hrev.
        destruct (repeat dotdotElem k ++ rev els)%list as [|e1 X].
        - discriminate.
        - inversion Hitems as [|? ? (Hne1 & Hsep1) _]; subst.
          destruct e1 as [|c1 e1]; [contradiction|]. inversion Hsep1; subst.
          change (tailChars ((c1 :: e1) :: X))
            with ("/"%char :: c1 :: (e1 ++ tailChars X)%list) in Hrev.
          remember (rev (b :: out)) as R eqn:ER'.
          inversion Hrev as [Hr]. eauto. }
      destruct Hfirst as (c & t & -> & Hc). exact Hc.
    + intros es Hes. rewrite Hrun by assumption.
      rewrite <- cleanRooted_sep, Hrev.
      rewrite cleanRooted_dotdots; [|apply endOrSep_tailChars|assumption].
      rewrite cleanRooted_normal; [|apply Forall_rev; assumption|apply Forall_skipn; assumption].
      rewrite rev_involutive. reflexivity.
Qed.

Lemma Join_Clean wd d :
  IsAbs wd = true -> IsAbs d = false -> Join wd (Clean d) = Join wd d.
Proof.
  intros Hwd Hd. destruct (Join_rooted wd Hwd) as (es0 & Hes0 & HJ).
  destruct (Clean_relative d Hd) as (_ & Hrun).
  rewrite !HJ, Hrun by assumption. reflexivity.
Qed.

(** Cleaning a path before [Abs] changes nothing. *)
Lemma Abs_Clean p path :
  (forall wd, os.Getwd p = Some wd -> IsAbs wd = true) ->
  Abs p (Clean path) = Abs p path.
Proof.
  intros Hwd. unfold Abs. destruct (IsAbs path) eqn:Hp.
  - destruct (Clean_absolute path Hp) as (-> & ->). reflexivity.
  - destruct (Clean_relative path Hp) as (-> & _).
    destruct (os.Getwd p) as [wd|] eqn:Ewd; [|reflexivity].
    rewrite Join_Clean; auto.
Qed.

(** X11: with an absolute working directory, the [Clean] before [Abs]
    changes nothing: [getEnvOrDefault] returns [Abs] of the setting, or
    the setting when [Abs] fails; so when the variable is empty the
    second variant returns the same path. *)
Theorem getEnvOrDefault_is_Abs_of_the_setting (p : os.Process) (name defaultValue : string) :
  (forall wd, os.Getwd p = Some wd -> IsAbs wd = true) ->
  getEnvOrDefault p name defaultValue
    = match Abs p (chosen p name defaultValue) with
      | Some absPath => absPath
      | None => chosen p name defaultValue
      end
  /\ (os.Getenv p name = EmptyString ->
      part_000.getEnvOrDefault p name defaultValue = getEnvOrDefault p name defaultValue).
Proof.
  intros Hwd. unfold getEnvOrDefault, part_000.getEnvOrDefault, chosen.
  destruct (os.Getenv p name) as [|c v]; rewrite (Abs_Clean p _ Hwd).
  - split; [|intros _]; destruct (Abs p defaultValue); reflexivity.
  - split; [|discriminate]. destruct (Abs p (String c v)); reflexivity.
Qed.

Lemma getEnvOrDefault_is_Abs_of_the_setting_witness :
  getEnvOrDefault deniedProcess "VAULT_DIR" "../data/./vault"
    = match Abs deniedProcess (chosen deniedProcess "VAULT_DIR" "../data/./vault") with
      | Some absPath => absPath
      | None => chosen deniedProcess "VAULT_DIR" "../data/./vault"
      end
  /\ (os.Getenv deniedProcess "VAULT_DIR" = EmptyString ->
      part_000.getEnvOrDefault deniedProcess "VAULT_DIR" "../data/./vault"
        = getEnvOrDefault deniedProcess "VAULT_DIR" "../data/./vault").
Proof.
  apply (getEnvOrDefault_is_Abs_of_the_setting deniedProcess "VAULT_DIR" "../data/./vault").
  intros wd H. inversion H. reflexivity.
Defined.

(** ** The ledger page *)

Lemma escapeByte_shape c :
  (isSpecial c = false /\ html.escapeByte c = String c EmptyString)
  \/ (c = "&"%char /\ html.escapeByte c = "&amp;")
  \/ (c = "'"%char /\ html.escapeByte c = "&#39;")
  \/ (c = "<"%char /\ html.escapeByte c = "&lt;")
  \/ (c = ">"%char /\ html.escapeByte c = "&gt;")
  \/ (c = ascii_of_nat 34 /\ html.escapeByte c = "&#34;").
Proof.
  unfold html.escapeByte, isSpecial, isMarkup.
  destruct (Ascii.eqb c "&") eqn:E1; [apply Ascii.eqb_eq in E1; auto|].
  destruct (Ascii.eqb c "'") eqn:E2; [apply Ascii.eqb_eq in E2; auto|].
  destruct (Ascii.eqb c "<") eqn:E3; [apply Ascii.eqb_eq in E3; auto 6|].
  destruct (Ascii.eqb c ">") eqn:E4; [apply Ascii.eqb_eq in E4; auto 7|].
  destruct (Ascii.eqb c (ascii_of_nat 34)) eqn:E5; [apply Ascii.eqb_eq in E5; auto 8|].
  left. split; reflexivity.
Qed.

Lemma isSpecial_amp_false c : isSpecial c = false -> c <> "&"%char /\ c <> "<"%char.
Proof.
  unfold isSpecial, isMarkup. intros H. split; intros ->; discriminate.
Qed.

Lemma escapeByte_inj c c' x y :
  html.escapeByte c ++ x = html.escapeByte c' ++ y -> c = c' /\ x = y.
Proof.
  destruct (escapeByte_shape c) as [(Hs & ->)|[(-> & ->)|[(-> & ->)|[(-> & ->)|[(-> & ->)|(-> & ->)]]]]];
  destruct (escapeByte_shape c') as [(Hs' & ->)|[(-> & ->)|[(-> & ->)|[(-> & ->)|[(-> & ->)|(-> & ->)]]]]];
  simpl; intros H; inversion H; subst; auto;
  try (apply isSpecial_amp_false in Hs; destruct Hs; congruence);
  try (apply isSpecial_amp_false in Hs'; destruct Hs'; congruence).
Qed.

Lemma string_append_assoc (a b c : string) : (a ++ b) ++ c = a ++ (b ++ c).
Proof.
  induction a as [|x a IH]; [reflexivity|].
  change (String x ((a ++ b) ++ c) = String x (a ++ (b ++ c))). f_equal. exact IH.
Qed.

Lemma escapeByte_head c x : exists h t, html.escapeByte c ++ x = String h t /\ h <> "<"%char.
Proof.
  destruct (escapeByte_shape c) as [(Hs & ->)|[(-> & ->)|[(-> & ->)|[(-> & ->)|[(-> & ->)|(-> & ->)]]]]];
    simpl; eexists _, _; split; try reflexivity; try discriminate.
  apply isSpecial_amp_false in Hs. tauto.
Qed.

Lemma EscapeString_closed_inj a : forall b,
  html.EscapeString a ++ "</div>" = html.EscapeString b ++ "</div>" -> a = b.
Proof.
  induction a as [|c a IH]; intros [|c' b] H; simpl in H.
  - reflexivity.
  - exfalso. rewrite string_append_assoc in H.
    destruct (escapeByte_head c' (html.EscapeString b ++ "</div>")) as (h & t & E & Hh).
    rewrite E in H. inversion H. congruence.
  - exfalso. rewrite string_append_assoc in H.
    destruct (escapeByte_head c (html.EscapeString a ++ "</div>")) as (h & t & E & Hh).
    rewrite E in H. inversion H. congruence.
  - rewrite !string_append_assoc in H. apply escapeByte_inj in H as (-> & H).
    f_equal. apply IH. exact H.
Qed.

(** X12: [markdownToHTML] loses nothing: two texts with the same HTML
    are the same text. *)
Theorem markdownToHTML_injective (a b : string) :
  markdownToHTML a = markdownToHTML b -> a = b.
Proof.
  unfold markdownToHTML. intros H. apply EscapeString_closed_inj.
  vm_compute ("<div class=" ++ dquote ++ "ledger-content" ++ dquote ++ ">") in H.
  simpl in H. inversion H as [H1]. exact H1.
Qed.

Lemma markdownToHTML_injective_witness : "a < b" = "a < b".
Proof.
  apply (markdownToHTML_injective "a < b" "a < b"). reflexivity.
Defined.

(** X13: a text without any of the five bytes that [html.EscapeString]
    replaces is put into the [div] as it is: line breaks, [#] and [*]
    stay what they are. *)
Theorem plain_text_is_embedded_as_it_is (md : string) :
  hasSpecial md = false ->
  markdownToHTML md
    = ("<div class=" ++ dquote ++ "ledger-content" ++ dquote ++ ">") ++ md ++ "</div>".
Proof.
  intros H. unfold markdownToHTML. do 2 f_equal.
  induction md as [|c md IH]; [reflexivity|].
  unfold hasSpecial in *. simpl in H. apply orb_false_iff in H as (Hc & Hmd).
  simpl. rewrite IH by exact Hmd.
  destruct (escapeByte_shape c) as [(_ & ->)|[(-> & _)|[(-> & _)|[(-> & _)|[(-> & _)|(-> & _)]]]]];
    try discriminate. reflexivity.
Qed.

Lemma plain_text_is_embedded_as_it_is_witness :
  markdownToHTML "# Ledger *2026*"
    = ("<div class=" ++ dquote ++ "ledger-content" ++ dquote ++ ">") ++ "# Ledger *2026*" ++ "</div>".
Proof.
  apply (plain_text_is_embedded_as_it_is "# Ledger *2026*"). reflexivity.
Defined.

(** X14: [LedgerHandler] answers 500 exactly when the template cannot
    be loaded and 200 otherwise: neither an unreadable ledger file nor a
    template that fails while it executes changes the status. *)
Theorem LedgerHandler_fails_only_on_the_template (gh : GRCHandler) (p : os.Process) :
  (handlers.status (fst (LedgerHandler gh p)) = 500
   <-> exists err, loadTemplate gh "templates/ledger.html" = inr err)
  /\ (handlers.status (fst (LedgerHandler gh p)) = 200
      <-> exists t, loadTemplate gh "templates/ledger.html" = inl t).
Proof.
  unfold LedgerHandler.
  destruct (os.ReadFile p _) as [content|err];
    destruct (loadTemplate gh "templates/ledger.html") as [t|e];
    try destruct (t "base" _) as [page e'];
    cbn [fst handlers.status]; split; split;
    try (intros [x Hx]; discriminate); try discriminate; eauto.
Qed.

(** ** The replies of the page and API handlers *)

Import deps http.

Lemma written_WriteHeader w code : written (WriteHeader w code) = written w.
Proof. unfold WriteHeader. destruct (sent w); reflexivity. Qed.

Lemma written_Write w c : written (Write w c) = (written w ++ [c])%list.
Proof. unfold Write. cbn [written]. rewrite written_WriteHeader. reflexivity. Qed.

Lemma written_Error w e code : written (Error w e code) = (written w ++ [Text (e ++ fmt.newline)])%list.
Proof. unfold Error. rewrite written_Write, written_WriteHeader. reflexivity. Qed.

Lemma Encode_cases enc w v :
  (json.supported enc v = true /\ Encode enc w v = Write w (Encoded v))
  \/ (json.supported enc v = false /\ Encode enc w v = w).
Proof. unfold Encode. destruct (json.supported enc v); auto. Qed.

Lemma sent_Write w c :
  sent (Write w c) = match sent w with Some s => Some s | None => Some (StatusOK, header w) end.
Proof. unfold Write, WriteHeader. destruct (sent w) eqn:E; simpl; rewrite ?E; reflexivity. Qed.

Lemma header_Write w c : header (Write w c) = header w.
Proof. unfold Write, WriteHeader. destruct (sent w); reflexivity. Qed.

Lemma fold_Write pieces : forall w,
  written (fold_left (fun w piece => Write w (Text piece)) pieces w)
    = (written w ++ map Text pieces)%list
  /\ header (fold_left (fun w piece => Write w (Text piece)) pieces w) = header w
  /\ sent (fold_left (fun w piece => Write w (Text piece)) pieces w)
     = match pieces, sent w with
       | [], s => s
       | _, Some s => Some s
       | _, None => Some (StatusOK, header w)
       end.
Proof.
  induction pieces as [|x pieces IH]; intros w.
  - simpl. rewrite app_nil_r. destruct (sent w); auto.
  - cbn [fold_left]. destruct (IH (Write w (Text x))) as (H1 & H2 & H3).
    rewrite H1, H2, H3, written_Write, header_Write, sent_Write.
    split; [simpl; rewrite <- app_assoc; reflexivity|]. split; [reflexivity|].
    destruct pieces; destruct (sent w); reflexivity.
Qed.

Lemma summary_unchecked l : part_000.calculateSummary l = fst (calculateSummaryLog l).
Proof.
  change (fst (calculateSummaryLog l)) with (calculateSummary l).
  rewrite calculateSummary_fold. unfold part_000.calculateSummary. f_equal.
  generalize (initialStats l). induction l as [|txn l IH]; intros s; simpl; [reflexivity|].
  rewrite IH. unfold step, part_000.loopBody. rewrite amountOf_unchecked. reflexivity.
Qed.

Lemma total_is_len l : TotalTransactions (fst (calculateSummaryLog l)) = len l.
Proof. apply (counts_wrapped l). Qed.

Lemma Encode_one {World Processor : Type} (v : Vault World Processor) w val :
  reportOK (Encoded val) ->
  exists extra, written (Encode (encodes v) w val) = (written w ++ extra)%list
                /\ (length extra <= 1)%nat /\ Forall reportOK extra.
Proof.
  intros Hok. destruct (Encode_cases (encodes v) w val) as [(_ & ->)|(_ & ->)].
  - exists [Encoded val]. rewrite written_Write. repeat split; [simpl; lia|]. repeat constructor. exact Hok.
  - exists []. rewrite app_nil_r. repeat split; [simpl; lia|constructor].
Qed.

Lemma Error_one w e code :
  exists extra, written (Error w e code) = (written w ++ extra)%list
                /\ (length extra <= 1)%nat /\ Forall reportOK extra.
Proof.
  exists [Text (e ++ fmt.newline)]. rewrite written_Error.
  repeat split; [simpl; lia|]. repeat constructor.
Qed.

(** X15: [BookkeepingAPIHandler], in both variants, adds at most one
    chunk to the body, and when that is a report its count is the total
    of its summary and its transactions stand under the keys Payments,
    Transfers and Fees. *)
Theorem api_report_count_is_total {World Processor : Type} (v : Vault World Processor) (p : os.Process)
    (r : Request) (world : World) (w : ResponseWriter) :
  (exists extra,
      written (fst (fst (pages.BookkeepingAPIHandler v p r world w))) = (written w ++ extra)%list
      /\ (length extra <= 1)%nat /\ Forall reportOK extra)
  /\ (exists extra,
      written (fst (part_000_pages.BookkeepingAPIHandler v p r world w)) = (written w ++ extra)%list
      /\ (length extra <= 1)%nat /\ Forall reportOK extra).
Proof.
  split.
  - unfold pages.BookkeepingAPIHandler.
    destruct (negb (String.eqb (Method r) MethodGet)); [apply Error_one|].
    destruct (NewTransactionProcessor v _ _ world) as [[proc|err] world1].
    + destruct (ReadCSVFiles v proc world1) as [[l|err] world2].
      * destruct (calculateSummaryLog l) as [summary log] eqn:E. cbn [fst].
        apply (Encode_one v (HeaderSet w "Content-Type" "application/json")). split; [|reflexivity].
        rewrite <- (total_is_len l), E. reflexivity.
      * cbn [fst].
        destruct (Encode_one v (WriteHeader (HeaderSet w "Content-Type" "application/json") StatusInternalServerError)
                    (json.Strings [("error", "Failed to read transaction files")]) I)
          as (extra & H1 & H2). rewrite written_WriteHeader in H1. eauto.
    + cbn [fst].
      destruct (Encode_one v (WriteHeader (HeaderSet w "Content-Type" "application/json") StatusInternalServerError)
                  (json.Strings [("error", "Failed to initialize transaction processor")]) I)
        as (extra & H1 & H2). rewrite written_WriteHeader in H1. eauto.
  - unfold part_000_pages.BookkeepingAPIHandler.
    destruct (negb (String.eqb (Method r) MethodGet)); [apply Error_one|].
    destruct (NewTransactionProcessor v _ _ world) as [[proc|err] world1].
    + destruct (ReadCSVFiles v proc world1) as [[l|err] world2].
      * cbn [fst].
        apply (Encode_one v (HeaderSet w "Content-Type" "application/json")). split; [|reflexivity].
        rewrite summary_unchecked. symmetry. apply total_is_len.
      * cbn [fst].
        destruct (Encode_one v (WriteHeader w StatusInternalServerError)
                    (json.Strings [("error", err)]) I)
          as (extra & H1 & H2). rewrite written_WriteHeader in H1. eauto.
    + cbn [fst].
      destruct (Encode_one v (WriteHeader w StatusInternalServerError)
                  (json.Strings [("error", err)]) I)
        as (extra & H1 & H2). rewrite written_WriteHeader in H1. eauto.
Qed.


Lemma f64_add_nonfinite x y :
  json.finite x = false \/ json.finite y = false -> json.finite (f64_add x y) = false.
Proof.
  unfold f64_add, SFadd.
  destruct x as [sx| sx| |sx mx ex], y as [sy| sy| |sy my ey]; simpl; intros [H|H];
    try discriminate; try reflexivity; destruct sx, sy; reflexivity.
Qed.

Lemma fold_add_nonfinite l : forall acc,
  json.finite acc = false -> json.finite (fold_left f64_add l acc) = false.
Proof.
  induction l as [|x l IH]; intros acc H; [exact H|].
  simpl. apply IH. apply f64_add_nonfinite. auto.
Qed.

Lemma fold_add_In_nonfinite l : forall acc x,
  In x l -> json.finite x = false -> json.finite (fold_left f64_add l acc) = false.
Proof.
  induction l as [|y l IH]; intros acc x Hin Hx; [contradiction|].
  simpl. destruct Hin as [->|Hin].
  - apply fold_add_nonfinite. apply f64_add_nonfinite. auto.
  - apply (IH _ x); assumption.
Qed.

Lemma sumFrom_nonfinite acc ty l txn :
  In txn l -> Type_ txn = ty -> json.finite (amountOf txn) = false ->
  json.finite (sumFrom acc ty l) = false.
Proof.
  intros Hin Hty Hx. unfold sumFrom. apply (fold_add_In_nonfinite _ _ (amountOf txn)); [|exact Hx].
  apply in_map. unfold ofType. apply list_elem_of_In. apply list_elem_of_filter.
  split; [exact Hty|apply list_elem_of_In; exact Hin].
Qed.

Lemma summary_nonfinite l txn :
  In txn l -> recognized (Type_ txn) = true -> json.finite (amountOf txn) = false ->
  json.finite (NetLiquidity (calculateSummary l)) = false.
Proof.
  intros Hin Hrec Hx. rewrite NetLiquidity_of_summary.
  destruct (sums_of_summary l) as (HP & HT & HF). rewrite HP, HT, HF.
  destruct (Type_ txn) eqn:Ety; try discriminate.
  - apply f64_add_nonfinite. left. apply f64_add_nonfinite. left.
    apply (sumFrom_nonfinite _ _ _ txn); assumption.
  - apply f64_add_nonfinite. left. apply f64_add_nonfinite. right.
    apply (sumFrom_nonfinite _ _ _ txn); assumption.
  - apply f64_add_nonfinite. right.
    apply (sumFrom_nonfinite _ _ _ txn); assumption.
Qed.

Lemma report_unsupported enc ts l n txn :
  In txn l -> recognized (Type_ txn) = true -> json.finite (amountOf txn) = false ->
  json.supported enc (json.Report ts (calculateSummary l) n) = false.
Proof.
  intros Hin Hrec Hx. unfold json.supported.
  rewrite (summary_nonfinite l txn Hin Hrec Hx). apply andb_false_r.
Qed.

(** X16: when the vault reads a transaction of a recognised type whose
    amount scans as a NaN or an infinity, [BookkeepingAPIHandler] sets the
    content type and writes neither a status nor a body: the encoder
    refuses the summary and its error is dropped. *)
Theorem api_sends_nothing_for_an_amount_that_is_not_finite {World Processor : Type} (v : Vault World Processor) 
    (p : os.Process) (r : Request) (world world1 world2 : World) (w : ResponseWriter)
    (processor : Processor) (transactions : list Transaction) (txn : Transaction) :
  Method r = MethodGet ->
  NewTransactionProcessor v (getEnvOrDefault p "VAULT_DIR" "vault")
    (getEnvOrDefault p "LEDGER_DIR" "ledger") world = (inl processor, world1) ->
  ReadCSVFiles v processor world1 = (inl transactions, world2) ->
  In txn transactions -> recognized (Type_ txn) = true -> json.finite (amountOf txn) = false ->
  fst (fst (pages.BookkeepingAPIHandler v p r world w))
    = HeaderSet w "Content-Type" "application/json".
Proof.
  intros Hm Hnew Hread Hin Hrec Hx. unfold pages.BookkeepingAPIHandler.
  rewrite Hm. cbn [String.eqb negb]. simpl (negb _). cbv iota.
  rewrite Hnew, Hread.
  pose proof (report_unsupported (encodes v)
    (pages.transactionData (Categorize v processor transactions)) transactions
    (len transactions) txn Hin Hrec Hx) as Hun.
  unfold calculateSummary in Hun.
  destruct (calculateSummaryLog transactions) as [summary log]. cbn [fst] in *.
  unfold Encode. rewrite Hun. reflexivity.
Qed.

Lemma api_sends_nothing_for_an_amount_that_is_not_finite_witness :
  fst (fst (pages.BookkeepingAPIHandler (readingVault (inl [T1; TNaN])) deniedProcess
              {| Method := "GET" |} tt newWriter))
    = HeaderSet newWriter "Content-Type" "application/json".
Proof.
  apply (api_sends_nothing_for_an_amount_that_is_not_finite
           (readingVault (inl [T1; TNaN])) deniedProcess {| Method := "GET" |} tt tt tt
           newWriter tt [T1; TNaN] TNaN).
  - reflexivity.
  - reflexivity.
  - reflexivity.
  - simpl. auto.
  - reflexivity.
  - vm_compute. reflexivity.
Defined.

(** X17: the replies of the three handlers of [bookkeeping.go], and the
    world they leave, do not depend on the text of the errors of the
    vault: the text goes to the log only. *)
Theorem vault_error_text_is_not_sent {World Processor : Type} (v : Vault World Processor) (gh : Site)
    (p : os.Process) (r : Request) (world : World) (w : ResponseWriter) :
  fst (pages.BookkeepingHandler (redact v) gh p r world w)
    = fst (pages.BookkeepingHandler v gh p r world w)
  /\ fst (pages.BookkeepingAPIHandler (redact v) p r world w)
     = fst (pages.BookkeepingAPIHandler v p r world w)
  /\ fst (pages.ProcessTransactionsHandler (redact v) p r world w)
     = fst (pages.ProcessTransactionsHandler v p r world w).
Proof.
  split; [|split].
  - unfold pages.BookkeepingHandler.
    destruct (negb (String.eqb (Method r) MethodGet)); [reflexivity|].
    destruct (loadPage gh _) as [t|e]; [|reflexivity].
    cbn [redact NewTransactionProcessor ReadCSVFiles Categorize].
    destruct (NewTransactionProcessor v _ _ world) as [[proc|err] world1]; [|reflexivity].
    destruct (ReadCSVFiles v proc world1) as [[l|err] world2]; [|reflexivity].
    reflexivity.
  - unfold pages.BookkeepingAPIHandler.
    destruct (negb (String.eqb (Method r) MethodGet)); [reflexivity|].
    cbn [redact NewTransactionProcessor ReadCSVFiles Categorize encodes].
    destruct (NewTransactionProcessor v _ _ world) as [[proc|err] world1]; [|reflexivity].
    destruct (ReadCSVFiles v proc world1) as [[l|err] world2]; [|reflexivity].
    reflexivity.
  - unfold pages.ProcessTransactionsHandler.
    destruct (negb (String.eqb (Method r) MethodPost)); [reflexivity|].
    cbn [redact Run encodes].
    destruct (Run v _ _ world) as [[err|] world1]; reflexivity.
Qed.

Lemma getEnvOrDefault_unset p name defaultValue :
  (forall wd, os.Getwd p = Some wd -> IsAbs wd = true) ->
  os.Getenv p name = EmptyString ->
  part_000.getEnvOrDefault p name defaultValue = getEnvOrDefault p name defaultValue.
Proof.
  intros Hwd He. unfold getEnvOrDefault, part_000.getEnvOrDefault.
  rewrite He, (Abs_Clean p _ Hwd). destruct (Abs p defaultValue); reflexivity.
Qed.

(** X18: with an absolute working directory and both variables empty,
    the two variants of [BookkeepingAPIHandler] give the same reply and
    world whenever the vault opens and reads, and the two variants of
    [ProcessTransactionsHandler] whenever [Run] succeeds, for any method
    of the request. *)
Theorem variants_reply_alike_when_the_vault_succeeds {World Processor : Type}
    (v : Vault World Processor) (p : os.Process) (r : Request) (world : World)
    (w : ResponseWriter) :
  (forall wd, os.Getwd p = Some wd -> IsAbs wd = true) ->
  os.Getenv p "VAULT_DIR" = EmptyString ->
  os.Getenv p "LEDGER_DIR" = EmptyString ->
  (forall processor world1 transactions world2,
     NewTransactionProcessor v (getEnvOrDefault p "VAULT_DIR" "vault")
       (getEnvOrDefault p "LEDGER_DIR" "ledger") world = (inl processor, world1) ->
     ReadCSVFiles v processor world1 = (inl transactions, world2) ->
     part_000_pages.BookkeepingAPIHandler v p r world w
       = fst (pages.BookkeepingAPIHandler v p r world w))
  /\ (forall world1,
        Run v (getEnvOrDefault p "VAULT_DIR" "vault") (getEnvOrDefault p "LEDGER_DIR" "ledger")
          world = (None, world1) ->
        part_000_pages.ProcessTransactionsHandler v p r world w
          = fst (pages.ProcessTransactionsHandler v p r world w)).
Proof.
  intros Hwd Hv Hl. split.
  - intros processor world1 transactions world2 Hnew Hread.
    unfold part_000_pages.BookkeepingAPIHandler, pages.BookkeepingAPIHandler.
    destruct (negb (String.eqb (Method r) MethodGet)); [reflexivity|].
    rewrite !getEnvOrDefault_unset by assumption.
    rewrite Hnew, Hread, summary_unchecked.
    destruct (calculateSummaryLog transactions) as [summary log]. reflexivity.
  - intros world1 Hrun.
    unfold part_000_pages.ProcessTransactionsHandler, pages.ProcessTransactionsHandler.
    destruct (negb (String.eqb (Method r) MethodPost)); [reflexivity|].
    rewrite !getEnvOrDefault_unset by assumption.
    rewrite Hrun. reflexivity.
Qed.

Lemma variants_reply_alike_when_the_vault_succeeds_witness :
  part_000_pages.BookkeepingAPIHandler (readingVault (inl [T1; T2; T3])) deniedProcess
      {| Method := "GET" |} tt newWriter
    = fst (pages.BookkeepingAPIHandler (readingVault (inl [T1; T2; T3])) deniedProcess
             {| Method := "GET" |} tt newWriter)
  /\ part_000_pages.ProcessTransactionsHandler (readingVault (inl [T1; T2; T3])) deniedProcess
       {| Method := "POST" |} tt newWriter
     = fst (pages.ProcessTransactionsHandler (readingVault (inl [T1; T2; T3])) deniedProcess
              {| Method := "POST" |} tt newWriter).
Proof.
  split.
  - apply (variants_reply_alike_when_the_vault_succeeds (readingVault (inl [T1; T2; T3]))
             deniedProcess {| Method := "GET" |} tt newWriter) with (processor := tt)
             (world1 := tt) (transactions := [T1; T2; T3]) (world2 := tt);
      try reflexivity.
    intros wd H. inversion H. reflexivity.
  - apply (variants_reply_alike_when_the_vault_succeeds (readingVault (inl [T1; T2; T3]))
             deniedProcess {| Method := "POST" |} tt newWriter) with (world1 := tt);
      try reflexivity.
    intros wd H. inversion H. reflexivity.
Defined.

Lemma sentHeader_Encode enc w val :
  sent w = None -> sentHeader (Encode enc w val) = header w.
Proof.
  intros H. unfold Encode. destruct (json.supported enc val).
  - unfold sentHeader. rewrite sent_Write, H. reflexivity.
  - unfold sentHeader. rewrite H. reflexivity.
Qed.

Lemma sentHeader_Encode_sent enc w val code h :
  sent w = Some (code, h) -> sentHeader (Encode enc w val) = h /\ status (Encode enc w val) = code.
Proof.
  intros H. unfold Encode. destruct (json.supported enc val).
  - unfold sentHeader, status. rewrite sent_Write, H. auto.
  - unfold sentHeader, status. rewrite H. auto.
Qed.

Lemma status_Error w e code : sent w = None -> status (Error w e code) = code.
Proof.
  intros H. unfold status, Error. rewrite sent_Write. unfold WriteHeader.
  cbn [sent HeaderSet HeaderDel]. rewrite H. reflexivity.
Qed.

(** X19: on a writer that has sent nothing, [BookkeepingAPIHandler]
    answers a GET, and [ProcessTransactionsHandler] a POST, with the
    content type [application/json], on success and on failure; any
    other method gets the status 405 and the world is left as it is. *)
Theorem api_replies_are_typed_as_json {World Processor : Type}
    (v : Vault World Processor) (p : os.Process) (r : Request) (world : World)
    (w : ResponseWriter) :
  sent w = None ->
  (if String.eqb (Method r) MethodGet
   then sentHeader (fst (fst (pages.BookkeepingAPIHandler v p r world w))) !! "Content-Type"
        = Some jsonType
   else status (fst (fst (pages.BookkeepingAPIHandler v p r world w))) = StatusMethodNotAllowed
        /\ snd (fst (pages.BookkeepingAPIHandler v p r world w)) = world)
  /\ (if String.eqb (Method r) MethodPost
      then sentHeader (fst (fst (pages.ProcessTransactionsHandler v p r world w)))
             !! "Content-Type" = Some jsonType
      else status (fst (fst (pages.ProcessTransactionsHandler v p r world w)))
             = StatusMethodNotAllowed
           /\ snd (fst (pages.ProcessTransactionsHandler v p r world w)) = world).
Proof.
  intros Hs.
  assert (Hh : forall val, sentHeader (Encode (encodes v) (HeaderSet w "Content-Type" "application/json") val)
                  !! "Content-Type" = Some jsonType).
  { intros val. rewrite sentHeader_Encode by exact Hs. apply lookup_insert_eq. }
  assert (Hh' : forall val code,
            sentHeader (Encode (encodes v)
                          (WriteHeader (HeaderSet w "Content-Type" "application/json") code) val)
              !! "Content-Type" = Some jsonType).
  { intros val code.
    destruct (sentHeader_Encode_sent (encodes v)
                (WriteHeader (HeaderSet w "Content-Type" "application/json") code) val code
                (<["Content-Type" := "application/json"]> (header w))) as (-> & _).
    - unfold WriteHeader. cbn [sent HeaderSet]. rewrite Hs. reflexivity.
    - apply lookup_insert_eq. }
  split.
  - unfold pages.BookkeepingAPIHandler.
    destruct (String.eqb (Method r) MethodGet); cbn [negb].
    + destruct (NewTransactionProcessor v _ _ world) as [[proc|err] world1]; [|apply Hh'].
      destruct (ReadCSVFiles v proc world1) as [[l|err] world2]; [|apply Hh'].
      destruct (calculateSummaryLog l) as [summary log]. apply Hh.
    + cbn [fst snd]. split; [apply status_Error; exact Hs|reflexivity].
  - unfold pages.ProcessTransactionsHandler.
    destruct (String.eqb (Method r) MethodPost); cbn [negb].
    + destruct (Run v _ _ world) as [[err|] world1]; [apply Hh'|apply Hh].
    + cbn [fst snd]. split; [apply status_Error; exact Hs|reflexivity].
Qed.

Lemma api_replies_are_typed_as_json_witness :
  sentHeader (fst (fst (pages.BookkeepingAPIHandler (closedVault "disk failure") deniedProcess
                          {| Method := "GET" |} tt newWriter))) !! "Content-Type"
    = Some jsonType
  /\ status (fst (fst (pages.ProcessTransactionsHandler (closedVault "disk failure")
                         deniedProcess {| Method := "GET" |} tt newWriter)))
     = StatusMethodNotAllowed
  /\ snd (fst (pages.ProcessTransactionsHandler (closedVault "disk failure")
                 deniedProcess {| Method := "GET" |} tt newWriter)) = tt.
Proof.
  apply (api_replies_are_typed_as_json (closedVault "disk failure") deniedProcess
           {| Method := "GET" |} tt newWriter).
  reflexivity.
Defined.

(** X20: in the second variant, when the vault cannot be opened, the
    page handler answers 500 with a page that holds the text of the error
    as it is, not escaped, and the API handler answers 500 with the text
    of the error in the body; neither sets a header. *)
Theorem part_000_sends_the_error_text {World Processor : Type}
    (v : Vault World Processor) (gh : Site) (p : os.Process) (r : Request)
    (world world1 : World) (w : ResponseWriter) (t : PageTemplate) (err : string) :
  Method r = MethodGet ->
  sent w = None ->
  loadPage gh "/templates/bookkeeping.html" = inl t ->
  NewTransactionProcessor v (part_000.getEnvOrDefault p "VAULT_DIR" "vault")
    (part_000.getEnvOrDefault p "LEDGER_DIR" "ledger") world = (inr err, world1) ->
  (let w' := fst (part_000_pages.BookkeepingHandler v gh p r world w) in
   status w' = StatusInternalServerError
   /\ sentHeader w' = header w
   /\ written w'
      = (written w
         ++ [Text ("<html><body><h1>Error</h1><p>Failed to initialize transaction processor: "
                   ++ err ++ "</p></body></html>")])%list)
  /\ (let w' := fst (part_000_pages.BookkeepingAPIHandler v p r world w) in
      status w' = StatusInternalServerError
      /\ sentHeader w' = header w
      /\ written w' = (written w ++ [Encoded (json.Strings [("error", err)])])%list).
Proof.
  intros Hm Hs Hload Hnew. split.
  - unfold part_000_pages.BookkeepingHandler. rewrite Hm, Hload, Hnew.
    simpl (negb _). cbv iota. cbn [fst]. unfold part_000_pages.renderError.
    unfold status, sentHeader. rewrite sent_Write, written_Write, written_WriteHeader.
    unfold WriteHeader. rewrite Hs. cbn [sent]. auto.
  - unfold part_000_pages.BookkeepingAPIHandler. rewrite Hm, Hnew.
    simpl (negb _). cbv iota. cbn [fst]. unfold Encode. cbn [json.supported].
    unfold status, sentHeader. rewrite sent_Write, written_Write, written_WriteHeader.
    unfold WriteHeader. rewrite Hs. cbn [sent]. auto.
Qed.

Lemma part_000_sends_the_error_text_witness :
  (let w' := fst (part_000_pages.BookkeepingHandler (closedVault "<b>disk</b>")
                    (failingSite [] "stop") deniedProcess {| Method := "GET" |} tt newWriter) in
   status w' = StatusInternalServerError
   /\ sentHeader w' = header newWriter
   /\ written w'
      = (written newWriter
         ++ [Text ("<html><body><h1>Error</h1><p>Failed to initialize transaction processor: "
                   ++ "<b>disk</b>" ++ "</p></body></html>")])%list)
  /\ (let w' := fst (part_000_pages.BookkeepingAPIHandler (closedVault "<b>disk</b>")
                       deniedProcess {| Method := "GET" |} tt newWriter) in
      status w' = StatusInternalServerError
      /\ sentHeader w' = header newWriter
      /\ written w' = (written newWriter ++ [Encoded (json.Strings [("error", "<b>disk</b>")])])%list).
Proof.
  apply (part_000_sends_the_error_text (closedVault "<b>disk</b>") (failingSite [] "stop")
           deniedProcess {| Method := "GET" |} tt tt newWriter (fun _ _ => ([], Some "stop"))
           "<b>disk</b>"); reflexivity.
Defined.

(** X21: when the page template fails, [BookkeepingHandler] answers 500
    only if the template had written nothing; otherwise the status 200 has
    gone out with the first piece, and in both cases the text of the
    error follows what was written. *)
Theorem template_failure_after_output_keeps_the_status {World Processor : Type}
    (v : Vault World Processor) (gh : Site) (p : os.Process) (r : Request)
    (world world1 world2 : World) (w : ResponseWriter) (t : PageTemplate)
    (processor : Processor) (transactions : list Transaction)
    (pieces : list string) (err : string) :
  Method r = MethodGet ->
  sent w = None ->
  loadPage gh "/templates/bookkeeping.html" = inl t ->
  NewTransactionProcessor v (getEnvOrDefault p "VAULT_DIR" "vault")
    (getEnvOrDefault p "LEDGER_DIR" "ledger") world = (inl processor, world1) ->
  ReadCSVFiles v processor world1 = (inl transactions, world2) ->
  (forall data, t "base" data = (pieces, Some err)) ->
  let w' := fst (fst (pages.BookkeepingHandler v gh p r world w)) in
  status w' = match pieces with [] => StatusInternalServerError | _ => StatusOK end
  /\ written w' = (written w ++ map Text pieces ++ [Text (err ++ fmt.newline)])%list.
Proof.
  intros Hm Hs Hload Hnew Hread Ht. unfold pages.BookkeepingHandler.
  rewrite Hm, Hload, Hnew, Hread. simpl (negb _). cbv iota.
  destruct (calculateSummaryLog transactions) as [summary log].
  unfold pages.ExecuteTemplate. rewrite Ht. cbn [fst].
  destruct (fold_Write pieces w) as (H1 & H2 & H3).
  split.
  - unfold status, Error. rewrite sent_Write. unfold WriteHeader, HeaderSet, HeaderDel.
    cbn [sent]. rewrite H3, Hs. destruct pieces; reflexivity.
  - rewrite written_Error, H1, <- app_assoc. reflexivity.
Qed.

Lemma template_failure_after_output_keeps_the_status_witness :
  let w' := fst (fst (pages.BookkeepingHandler (readingVault (inl [T1])) (failingSite ["<html>"] "stop")
                        deniedProcess {| Method := "GET" |} tt newWriter)) in
  status w' = StatusOK
  /\ written w' = (written newWriter ++ map Text ["<html>"] ++ [Text ("stop" ++ fmt.newline)])%list.
Proof.
  apply (template_failure_after_output_keeps_the_status (readingVault (inl [T1]))
           (failingSite ["<html>"] "stop") deniedProcess {| Method := "GET" |} tt tt tt newWriter
           (fun _ _ => (["<html>"], Some "stop")) tt [T1] ["<html>"] "stop"); reflexivity.
Defined.
